(** * engram: storage layer, chunker, embedder cache, hybrid query engine and
    Gmail sync, embedded from the Python sources.

    Conventions of the embedding.
    - Python [str] is [string]; the characters are the 8-bit ones of [ascii],
      and case mapping / whitespace are the ASCII ones.
    - Python [float] scores are modelled as exact rationals [Q]; only their
      order, [min] and [1 - d] are used.
    - A [datetime] is represented by its [isoformat()] text, which is the only
      thing the storage layer ever stores or compares.
    - Code that can raise is written in a state-and-exception monad. *)

From Stdlib Require Import ZArith QArith Qminmax String Ascii List Bool Lia.
From Stdlib Require Import Sorting.Sorted Sorting.Permutation.
From Stdlib Require Import DecimalString.
From stdpp Require Import base gmap strings list.
Import ListNotations.

Set Warnings "-register-all".
Open Scope string_scope.
Open Scope Z_scope.

(* ===================================================================== *)
(** ** Exceptions and the state/exception monad *)
(* ===================================================================== *)

Inductive exn : Type :=
| IntegrityError            (* sqlite3.IntegrityError *)
| ValueError (msg : string)
| KeyError (key : string)
| IndexError
| RetryError                (* tenacity.RetryError *)
| OtherError (msg : string).

Inductive outcome (A : Type) : Type :=
| Ok (a : A)
| Raise (e : exn).
Arguments Ok {A} a.
Arguments Raise {A} e.

(** A computation over a state [S]: the state is kept when an exception
    escapes, as Python keeps the side effects already performed. *)
Definition M (S A : Type) : Type := S -> outcome A * S.

Definition ret {S A} (a : A) : M S A := fun s => (Ok a, s).
Definition raise {S A} (e : exn) : M S A := fun s => (Raise e, s).
Definition bind {S A B} (c : M S A) (k : A -> M S B) : M S B :=
  fun s => match c s with
           | (Ok a, s') => k a s'
           | (Raise e, s') => (Raise e, s')
           end.
Definition get_state {S} : M S S := fun s => (Ok s, s).
Definition put_state {S} (s' : S) : M S unit := fun _ => (Ok tt, s').
(** [try: c except Exception as e: h e] *)
Definition try_except {S A} (c : M S A) (h : exn -> M S A) : M S A :=
  fun s => match c s with
           | (Ok a, s') => (Ok a, s')
           | (Raise e, s') => h e s'
           end.

Notation "x <~ c ;; k" := (bind c (fun x => k))
  (at level 90, c at next level, right associativity).
Notation "c ;;; k" := (bind c (fun _ => k))
  (at level 90, right associativity).

(* ===================================================================== *)
(** ** Python string operations used by the sources *)
(* ===================================================================== *)

Module PyStr.

Definition is_upper (c : ascii) : bool :=
  let n := nat_of_ascii c in (65 <=? n)%nat && (n <=? 90)%nat.

Definition lower_char (c : ascii) : ascii :=
  if is_upper c then ascii_of_nat (nat_of_ascii c + 32) else c.

(** [s.lower()] *)
Fixpoint lower (s : string) : string :=
  match s with
  | EmptyString => EmptyString
  | String c s' => String (lower_char c) (lower s')
  end.

(** [c.isspace()] on the ASCII range: TAB..CR, FS..US and the space. *)
Definition is_space (c : ascii) : bool :=
  let n := nat_of_ascii c in
  ((9 <=? n)%nat && (n <=? 13)%nat) || ((28 <=? n)%nat && (n <=? 32)%nat).

Fixpoint lstrip (s : string) : string :=
  match s with
  | EmptyString => EmptyString
  | String c s' => if is_space c then lstrip s' else s
  end.

Fixpoint rstrip (s : string) : string :=
  match s with
  | EmptyString => EmptyString
  | String c s' =>
      match rstrip s' with
      | EmptyString => if is_space c then EmptyString else String c EmptyString
      | r => String c r
      end
  end.

(** [s.strip()] *)
Definition strip (s : string) : string := rstrip (lstrip s).

(** [len(s)] *)
Definition len (s : string) : Z := Z.of_nat (String.length s).

(** [len(l)] of a list *)
Definition len_list {A} (l : list A) : Z := Z.of_nat (List.length l).

(** Truthiness of a [str]: [if s:] *)
Definition truthy (s : string) : bool :=
  match s with EmptyString => false | _ => true end.

(** [s.count(sub)]: non-overlapping occurrences, scanning left to right;
    [skip] is the number of characters still covered by the last match. *)
Fixpoint count_aux (sub : string) (skip : nat) (s : string) : nat :=
  match s with
  | EmptyString => 0
  | String c s' =>
      match skip with
      | S k => count_aux sub k s'
      | O => if String.prefix sub s
             then S (count_aux sub (String.length sub - 1) s')
             else count_aux sub 0 s'
      end
  end.

Definition count (s sub : string) : Z :=
  match sub with
  | EmptyString => Z.of_nat (String.length s) + 1
  | _ => Z.of_nat (count_aux sub 0 s)
  end.

(** [s.rsplit(sep, 1)[0]] when [sep in s], [None] when [sep not in s]:
    the part of [s] before the last occurrence of [sep]. *)
Fixpoint rsplit1_head (sep s : string) : option string :=
  match s with
  | EmptyString => if String.prefix sep EmptyString then Some EmptyString else None
  | String c s' =>
      match rsplit1_head sep s' with
      | Some h => Some (String c h)
      | None => if String.prefix sep s then Some EmptyString else None
      end
  end.

(** [sub in s] *)
Fixpoint contains (sub s : string) : bool :=
  String.prefix sub s
  || match s with
     | EmptyString => false
     | String _ s' => contains sub s'
     end.

(** [sep.join(parts)] *)
Definition join (sep : string) (parts : list string) : string :=
  String.concat sep parts.

(** [s[:n]] for [n >= 0] *)
Definition take (n : Z) (s : string) : string :=
  String.substring 0 (Z.to_nat n) s.

(** [str(n)] of an [int]: its decimal digits, after a minus sign when it is
    negative. *)
Definition str_int (n : Z) : string := NilZero.string_of_int (Z.to_int n).

End PyStr.

(* ===================================================================== *)
(** ** knowledge_graph.py: the SQLite storage layer *)
(* ===================================================================== *)

Module KG.

(** JSON values, for the [metadata] dictionaries. *)
Inductive json : Type :=
| JNull
| JBool (b : bool)
| JInt (z : Z)
| JStr (s : string)
| JList (l : list json)
| JObj (kvs : list (string * json)).

(** A Python [dict] with string keys, in insertion order. *)
Definition dict : Type := list (string * json).

(** [d[key] = value]: the value is replaced in place when the key is there,
    the item is appended otherwise. *)
Fixpoint dict_set (key : string) (value : json) (d : dict) : dict :=
  match d with
  | [] => [(key, value)]
  | (k, v) :: rest =>
      if String.eqb k key then (k, value) :: rest
      else (k, v) :: dict_set key value rest
  end.

(** [d.get(key)] *)
Fixpoint dict_get (key : string) (d : dict) : option json :=
  match d with
  | [] => None
  | (k, v) :: rest => if String.eqb k key then Some v else dict_get key rest
  end.

(** [{**d, **more}]: the items of [more] are set one after the other. *)
Definition dict_update (d more : dict) : dict :=
  List.fold_left (fun acc kv => dict_set (fst kv) (snd kv) acc) more d.

(** [f"{v}"]: a string stands for itself; [repr] is [str] on lists and
    dictionaries. *)
Definition format_value (repr : json -> string) (v : json) : string :=
  match v with
  | JNull => "None"
  | JBool true => "True"
  | JBool false => "False"
  | JInt z => PyStr.str_int z
  | JStr s => s
  | _ => repr v
  end.

(** [datetime] values, by their [isoformat()] text. *)
Definition datetime : Type := string.
Definition isoformat (t : datetime) : string := t.

(** The text SQLite yields for [CURRENT_TIMESTAMP]. *)
Definition sqltime : Type := string.

(** *** Tables of the schema ([_init_schema]) *)

Record entity_row : Type := mk_entity {
  e_id : string;                      (* TEXT PRIMARY KEY *)
  e_type : string;
  e_name : string;
  e_email : option string;
  e_source : string;
  e_source_account : option string;
  e_metadata : option dict;           (* the JSON text, by the value it encodes *)
  e_created_at : sqltime;
  e_updated_at : sqltime
}.

Record content_row : Type := mk_content {
  c_id : string;                      (* TEXT PRIMARY KEY *)
  c_type : string;
  c_title : option string;
  c_body : option string;
  c_source : string;
  c_source_account : option string;
  c_source_id : option string;
  c_url : option string;
  c_timestamp : option string;
  c_metadata : option dict;
  c_created_at : sqltime;
  c_updated_at : sqltime
}.

Record relationship_row : Type := mk_relationship {
  r_rowid : Z;                        (* INTEGER PRIMARY KEY AUTOINCREMENT *)
  r_from_id : string;                 (* REFERENCES entities(id) ON DELETE CASCADE *)
  r_from_type : string;
  r_to_id : string;                   (* REFERENCES entities(id) ON DELETE CASCADE *)
  r_to_type : string;
  r_relation : string;
  r_metadata : option dict;
  r_created_at : sqltime
}.

Record changelog_row : Type := mk_changelog {
  l_rowid : Z;                        (* INTEGER PRIMARY KEY AUTOINCREMENT *)
  l_table_name : string;
  l_record_id : string;
  l_action : string;
  l_old_value : option string;
  l_new_value : option string;
  l_timestamp : sqltime
}.

Record sync_state_row : Type := mk_sync_state {
  s_source : string;                  (* PRIMARY KEY (source, account) *)
  s_account : string;
  s_last_sync : option string;
  s_last_sync_token : option string;
  s_metadata : option dict
}.

(** The database file: each table in rowid order, and the AUTOINCREMENT
    counter of [relationships] (rows of it can disappear by cascade). *)
Record db : Type := mk_db {
  entities : list entity_row;
  content : list content_row;
  relationships : list relationship_row;
  rel_seq : Z;
  changelog : list changelog_row;
  sync_state : list sync_state_row
}.

Definition empty_db : db := mk_db [] [] [] 0 [] [].

(** [with self._connection() as conn]: commit when the body returns,
    roll back to the state at entry when an exception leaves it. *)
Definition _connection {A} (body : M db A) : M db A :=
  fun d => match body d with
           | (Ok a, d') => (Ok a, d')
           | (Raise e, _) => (Raise e, d)
           end.

(** [json.dumps(metadata) if metadata else None] *)
Definition metadata_json (metadata : option dict) : option dict :=
  match metadata with
  | Some (kv :: kvs) => Some (kv :: kvs)
  | _ => None
  end.

(** [SELECT ... FROM entities WHERE id = ?] / [... FROM content WHERE id = ?] *)
Definition select_entity (d : db) (id : string) : option entity_row :=
  List.find (fun r => String.eqb (e_id r) id) (entities d).

Definition select_content (d : db) (id : string) : option content_row :=
  List.find (fun r => String.eqb (c_id r) id) (content d).

(** [_log_change]: one INSERT into [changelog]. *)
Definition _log_change (now : sqltime) (table_name record_id action : string)
  (old_value new_value : option string) : M db unit :=
  fun d =>
    (Ok tt,
     mk_db (entities d) (content d) (relationships d) (rel_seq d)
           (changelog d ++
              [mk_changelog (Z.of_nat (List.length (changelog d)) + 1)
                            table_name record_id action old_value new_value now])
           (sync_state d)).

Definition set_entities (es : list entity_row) : M db unit :=
  fun d => (Ok tt, mk_db es (content d) (relationships d) (rel_seq d)
                         (changelog d) (sync_state d)).

Definition set_content (cs : list content_row) : M db unit :=
  fun d => (Ok tt, mk_db (entities d) cs (relationships d) (rel_seq d)
                         (changelog d) (sync_state d)).

(** [upsert_entity]; [now] is the database clock during the call. *)
Definition upsert_entity (now : sqltime)
  (entity_id entity_type name source : string)
  (source_account email : option string) (metadata : option dict) : M db bool :=
  _connection (
    conn <~ get_state ;;
    let existing := select_entity conn entity_id in
    let metadata_json := metadata_json metadata in
    match existing with
    | Some _ =>
        (* UPDATE entities SET ..., updated_at = CURRENT_TIMESTAMP WHERE id = ? *)
        set_entities
          (List.map (fun r =>
             if String.eqb (e_id r) entity_id
             then mk_entity (e_id r) entity_type name email source source_account
                            metadata_json (e_created_at r) now
             else r) (entities conn)) ;;;
        _log_change now "entities" entity_id "update" None None ;;;
        ret false
    | None =>
        (* INSERT INTO entities (...) VALUES (...) *)
        set_entities
          (entities conn ++
             [mk_entity entity_id entity_type name email source source_account
                        metadata_json now now]) ;;;
        _log_change now "entities" entity_id "insert" None None ;;;
        ret true
    end).

(** [upsert_content] *)
Definition upsert_content (now : sqltime)
  (content_id content_type source : string)
  (source_account title body source_id url : option string)
  (timestamp : option datetime) (metadata : option dict) : M db bool :=
  _connection (
    conn <~ get_state ;;
    let existing := select_content conn content_id in
    let metadata_json := metadata_json metadata in
    let ts := option_map isoformat timestamp in
    match existing with
    | Some _ =>
        set_content
          (List.map (fun r =>
             if String.eqb (c_id r) content_id
             then mk_content (c_id r) content_type title body source source_account
                             source_id url ts metadata_json (c_created_at r) now
             else r) (content conn)) ;;;
        _log_change now "content" content_id "update" None None ;;;
        ret false
    | None =>
        set_content
          (content conn ++
             [mk_content content_id content_type title body source source_account
                         source_id url ts metadata_json now now]) ;;;
        _log_change now "content" content_id "insert" None None ;;;
        ret true
    end).

(** The INSERT of [add_relationship], with the constraints of the
    [relationships] table: both foreign keys (enforced, since [_connection]
    turns [PRAGMA foreign_keys] on) and the unique index
    [idx_rel_unique (from_id, to_id, relation)]. *)
Definition is_entity_id (d : db) (id : string) : bool :=
  List.existsb (fun r => String.eqb (e_id r) id) (entities d).

Definition same_edge (from_id to_id relation : string) (r : relationship_row) : bool :=
  String.eqb (r_from_id r) from_id && String.eqb (r_to_id r) to_id
  && String.eqb (r_relation r) relation.

Definition insert_relationship (now : sqltime)
  (from_id from_type to_id to_type relation : string) (metadata_json : option dict)
  : M db unit :=
  fun d =>
    if negb (is_entity_id d from_id) then (Raise IntegrityError, d)
    else if negb (is_entity_id d to_id) then (Raise IntegrityError, d)
    else if List.existsb (same_edge from_id to_id relation) (relationships d)
    then (Raise IntegrityError, d)
    else (Ok tt,
          mk_db (entities d) (content d)
                (relationships d ++
                   [mk_relationship (rel_seq d + 1) from_id from_type to_id to_type
                                    relation metadata_json now])
                (rel_seq d + 1) (changelog d) (sync_state d)).

(** [add_relationship] *)
Definition add_relationship (now : sqltime)
  (from_id from_type to_id to_type relation : string) (metadata : option dict)
  : M db bool :=
  _connection (
    try_except
      (let metadata_json := metadata_json metadata in
       insert_relationship now from_id from_type to_id to_type relation metadata_json ;;;
       ret true)
      (fun e => match e with
                | IntegrityError => ret false
                | _ => raise e
                end)).

(** [get_entity] / [get_content] ([_row_to_dict] of the row, or [None]) *)
Definition get_entity (entity_id : string) : M db (option entity_row) :=
  _connection (conn <~ get_state ;; ret (select_entity conn entity_id)).

Definition get_content (content_id : string) : M db (option content_row) :=
  _connection (conn <~ get_state ;; ret (select_content conn content_id)).

(** [delete_content] *)
Definition delete_content (now : sqltime) (content_id : string) : M db bool :=
  _connection (
    conn <~ get_state ;;
    let rowcount :=
      List.length (List.filter (fun r => String.eqb (c_id r) content_id) (content conn)) in
    set_content
      (List.filter (fun r => negb (String.eqb (c_id r) content_id)) (content conn)) ;;;
    if (0 <? rowcount)%nat
    then _log_change now "content" content_id "delete" None None ;;; ret true
    else ret false).

(** [delete_entity]; the foreign keys of [relationships] cascade. *)
Definition delete_entity (now : sqltime) (entity_id : string) : M db bool :=
  _connection (
    conn <~ get_state ;;
    let rowcount :=
      List.length (List.filter (fun r => String.eqb (e_id r) entity_id) (entities conn)) in
    put_state
      (mk_db (List.filter (fun r => negb (String.eqb (e_id r) entity_id)) (entities conn))
             (content conn)
             (if (0 <? rowcount)%nat
              then List.filter
                     (fun r => negb (String.eqb (r_from_id r) entity_id
                                     || String.eqb (r_to_id r) entity_id))
                     (relationships conn)
              else relationships conn)
             (rel_seq conn) (changelog conn) (sync_state conn)) ;;;
    if (0 <? rowcount)%nat
    then _log_change now "entities" entity_id "delete" None None ;;; ret true
    else ret false).

(** [get_last_sync] *)
Definition get_last_sync (source account : string) : M db (option sync_state_row) :=
  _connection (
    conn <~ get_state ;;
    ret (List.find (fun r => String.eqb (s_source r) source
                             && String.eqb (s_account r) account)
                   (sync_state conn))).

(** [set_last_sync]: INSERT ... ON CONFLICT(source, account) DO UPDATE. *)
Definition set_last_sync (source account : string) (last_sync : datetime)
  (sync_token : option string) (metadata : option dict) : M db unit :=
  _connection (
    conn <~ get_state ;;
    let metadata_json := metadata_json metadata in
    let row := mk_sync_state source account (Some (isoformat last_sync))
                             sync_token metadata_json in
    let hit r := String.eqb (s_source r) source && String.eqb (s_account r) account in
    put_state
      (mk_db (entities conn) (content conn) (relationships conn) (rel_seq conn)
             (changelog conn)
             (if List.existsb hit (sync_state conn)
              then List.map (fun r => if hit r then row else r) (sync_state conn)
              else sync_state conn ++ [row]))).

(** SQLite's [LIKE]: [%] matches any run of characters, [_] any single
    character, other characters match themselves up to ASCII case. *)
Fixpoint like (pat s : string) {struct pat} : bool :=
  match pat with
  | EmptyString => match s with EmptyString => true | _ => false end
  | String p pat' =>
      if Ascii.eqb p "%"
      then (fix star (t : string) : bool :=
              like pat' t
              || match t with
                 | EmptyString => false
                 | String _ t' => star t'
                 end) s
      else match s with
           | EmptyString => false
           | String c s' =>
               (Ascii.eqb p "_"
                || Ascii.eqb (PyStr.lower_char p) (PyStr.lower_char c))
               && like pat' s'
           end
  end.

(** [col LIKE ?] on a nullable column: NULL is not a match. *)
Definition col_like (col : option string) (pat : string) : bool :=
  match col with
  | Some v => like pat v
  | None => false
  end.

(** [col = ?], [col >= ?], [col <= ?] on a nullable TEXT column (BINARY
    collation: byte-wise lexicographic order). *)
Definition col_eq (col : option string) (v : string) : bool :=
  match col with Some x => String.eqb x v | None => false end.
Definition col_ge (col : option string) (v : string) : bool :=
  match col with Some x => String.leb v x | None => false end.
Definition col_le (col : option string) (v : string) : bool :=
  match col with Some x => String.leb x v | None => false end.

(** [ORDER BY timestamp DESC]: NULL sorts below every text, so it comes
    last; rows with equal keys are kept in rowid order. *)
Definition ts_le (a b : option string) : bool :=
  match a, b with
  | None, _ => true
  | Some _, None => false
  | Some x, Some y => String.leb x y
  end.

Fixpoint insert_by_ts_desc (x : content_row) (l : list content_row) : list content_row :=
  match l with
  | [] => [x]
  | y :: ys =>
      if ts_le (c_timestamp y) (c_timestamp x)
      then x :: y :: ys
      else y :: insert_by_ts_desc x ys
  end.

Definition order_by_ts_desc (l : list content_row) : list content_row :=
  List.fold_right insert_by_ts_desc [] l.

(** [LIMIT ?]: a negative bound means no bound. *)
Definition sql_limit {A} (limit : Z) (rows : list A) : list A :=
  if limit <? 0 then rows else List.firstn (Z.to_nat limit) rows.

(** An optional [str] argument tested with [if arg:] *)
Definition given (arg : option string) : option string :=
  match arg with
  | Some v => if PyStr.truthy v then Some v else None
  | None => None
  end.

(** The list [conditions] built by [search_content], as row predicates. *)
Definition search_conditions
  (query content_type source source_account : option string)
  (since until : option datetime) : list (content_row -> bool) :=
  (match given query with
   | Some q => [fun r => col_like (c_title r) ("%" ++ q ++ "%")
                         || col_like (c_body r) ("%" ++ q ++ "%")]
   | None => []
   end)
  ++ (match given content_type with
      | Some t => [fun r => String.eqb (c_type r) t]
      | None => []
      end)
  ++ (match given source with
      | Some v => [fun r => String.eqb (c_source r) v]
      | None => []
      end)
  ++ (match given source_account with
      | Some a => [fun r => col_eq (c_source_account r) a]
      | None => []
      end)
  ++ (match since with
      | Some t => [fun r => col_ge (c_timestamp r) (isoformat t)]
      | None => []
      end)
  ++ (match until with
      | Some t => [fun r => col_le (c_timestamp r) (isoformat t)]
      | None => []
      end).

(** [" AND ".join(conditions) if conditions else "1=1"] *)
Definition where_clause (conditions : list (content_row -> bool)) (r : content_row) : bool :=
  List.forallb (fun cond => cond r) conditions.

(** [search_content] *)
Definition search_content
  (query content_type source source_account : option string)
  (since until : option datetime) (limit : Z) : M db (list content_row) :=
  _connection (
    conn <~ get_state ;;
    let conditions :=
      search_conditions query content_type source source_account since until in
    ret (sql_limit limit
           (order_by_ts_desc (List.filter (where_clause conditions) (content conn))))).

(** *** The remaining readers of the storage layer *)

(** The list [conditions] built by [search_entities]. *)
Definition entity_conditions (query entity_type source : option string)
  : list (entity_row -> bool) :=
  (match given query with
   | Some q => [fun r => like ("%" ++ q ++ "%") (e_name r)
                         || col_like (e_email r) ("%" ++ q ++ "%")]
   | None => []
   end)
  ++ (match given entity_type with
      | Some t => [fun r => String.eqb (e_type r) t]
      | None => []
      end)
  ++ (match given source with
      | Some v => [fun r => String.eqb (e_source r) v]
      | None => []
      end).

(** [ORDER BY updated_at DESC]; rows with equal keys stay in rowid order. *)
Fixpoint insert_by_updated_desc (x : entity_row) (l : list entity_row)
  : list entity_row :=
  match l with
  | [] => [x]
  | y :: ys =>
      if String.leb (e_updated_at y) (e_updated_at x)
      then x :: y :: ys
      else y :: insert_by_updated_desc x ys
  end.

Definition order_by_updated_desc (l : list entity_row) : list entity_row :=
  List.fold_right insert_by_updated_desc [] l.

(** [search_entities] *)
Definition search_entities (query entity_type source : option string) (limit : Z)
  : M db (list entity_row) :=
  _connection (
    conn <~ get_state ;;
    let conditions := entity_conditions query entity_type source in
    ret (sql_limit limit
           (order_by_updated_desc
              (List.filter (fun r => List.forallb (fun cond => cond r) conditions)
                           (entities conn))))).

(** [get_relationships] *)
Definition get_relationships (entity_id : string) (relation : option string)
  (direction : string) : M db (list relationship_row) :=
  _connection (
    conn <~ get_state ;;
    let relation_ok r :=
      match given relation with
      | Some v => String.eqb (r_relation r) v
      | None => true
      end in
    let results : list relationship_row := [] in
    let results :=
      if String.eqb direction "outgoing" || String.eqb direction "both"
      then (results
            ++ List.filter (fun r => String.eqb (r_from_id r) entity_id && relation_ok r)
                           (relationships conn))%list
      else results in
    let results :=
      if String.eqb direction "incoming" || String.eqb direction "both"
      then (results
            ++ List.filter (fun r => String.eqb (r_to_id r) entity_id && relation_ok r)
                           (relationships conn))%list
      else results in
    ret results).

(** [get_content_ids_by_source] *)
Definition get_content_ids_by_source (source : string) (source_account : option string)
  : M db (gset string) :=
  _connection (
    conn <~ get_state ;;
    let rows :=
      match given source_account with
      | Some a =>
          List.filter (fun r => String.eqb (c_source r) source
                                && col_eq (c_source_account r) a)
                      (content conn)
      | None => List.filter (fun r => String.eqb (c_source r) source) (content conn)
      end in
    ret (list_to_set (List.map c_id rows))).

(** [SELECT key, COUNT( * ) ... GROUP BY key], as the dictionary built from
    its rows. *)
Definition count_by {A} (key : A -> string) (rows : list A) : gmap string Z :=
  List.fold_left
    (fun m r => <[key r := match m !! key r with Some n => n + 1 | None => 1 end]> m)
    rows ∅.

(** The dictionary returned by [get_stats]. *)
Record kg_stats : Type := mk_kg_stats {
  entities_by_type : gmap string Z;
  content_by_type : gmap string Z;
  content_by_source : gmap string Z;
  total_entities : Z;
  total_content : Z;
  total_relationships : Z;
  stats_sync_state : list sync_state_row
}.

(** [get_stats] *)
Definition get_stats : M db kg_stats :=
  _connection (
    conn <~ get_state ;;
    ret (mk_kg_stats
           (count_by e_type (entities conn))
           (count_by c_type (content conn))
           (count_by c_source (content conn))
           (Z.of_nat (List.length (entities conn)))
           (Z.of_nat (List.length (content conn)))
           (Z.of_nat (List.length (relationships conn)))
           (sync_state conn))).

End KG.

(* ===================================================================== *)
(** ** query/engine.py: the hybrid query engine *)
(* ===================================================================== *)

Module Engine.

Local Open Scope list_scope.

Definition embedding : Type := list Q.

(** The dictionary returned by [VectorStore.search]; it always has the
    four keys. *)
Record coll_results : Type := mk_coll_results {
  ids : list string;
  distances : list Q;
  documents : list string;
  metadatas : list KG.dict
}.

Inductive search_type : Type := Semantic | Keyword.

(** A result dictionary: the one built by [_semantic_search], or a content
    row to which [_keyword_search] added ["score"] and ["search_type"]. *)
Inductive hit : Type :=
| SemanticHit (id chunk_id type text : string) (metadata : KG.dict) (score : Q)
| KeywordHit (row : KG.content_row) (score : Q).

Definition hit_id (h : hit) : string :=
  match h with
  | SemanticHit id _ _ _ _ _ => id
  | KeywordHit row _ => KG.c_id row
  end.

Definition hit_score (h : hit) : Q :=
  match h with
  | SemanticHit _ _ _ _ _ score => score
  | KeywordHit _ score => score
  end.

Definition hit_search_type (h : hit) : search_type :=
  match h with
  | SemanticHit _ _ _ _ _ _ => Semantic
  | KeywordHit _ _ => Keyword
  end.

(** Python's [min(a, b)]: [b] when [b < a], else [a]. *)
Definition py_min (a b : Q) : Q :=
  match Qcompare b a with
  | Lt => b
  | _ => a
  end.

(** [l[i] if l else default]; [None] stands for the IndexError. *)
Definition item_or {A} (l : list A) (i : nat) (default : A) : option A :=
  match l with
  | [] => Some default
  | _ => List.nth_error l i
  end.

(** [l[:k]] *)
Definition py_prefix {A} (k : Z) (l : list A) : list A :=
  if k <? 0
  then List.firstn (List.length l - Z.to_nat (- k)) l
  else List.firstn (Z.to_nat k) l.

(** Truthiness of an optional list argument: [if xs:] / [xs or ...] *)
Definition given_list {A} (xs : option (list A)) : option (list A) :=
  match xs with
  | Some (x :: l) => Some (x :: l)
  | _ => None
  end.

(** The relevance score of a keyword result. *)
Definition keyword_score (query : string) (title body : option string) : Q :=
  let query_lower := PyStr.lower query in
  let title := PyStr.lower (match title with Some t => t | None => "" end) in
  let body := PyStr.lower (match body with Some b => b | None => "" end) in
  let title_matches := PyStr.count title query_lower in
  let body_matches := PyStr.count body query_lower in
  py_min (inject_Z (title_matches * 3 + body_matches) * (1 # 10)) (8 # 10).

(** The loop [for r in ...: if r["id"] not in seen_ids: ...] of [search]. *)
Definition add_unseen (acc : list hit * gset string) (r : hit) : list hit * gset string :=
  let '(results, seen_ids) := acc in
  if decide (hit_id r ∈ seen_ids)
  then (results, seen_ids)
  else (results ++ [r], seen_ids ∪ {[hit_id r]}).

(** [results.sort(key=score, reverse=True)]: stable, descending. *)
Fixpoint insert_by_score_desc (x : hit) (l : list hit) : list hit :=
  match l with
  | [] => [x]
  | y :: ys =>
      if Qle_bool (hit_score y) (hit_score x)
      then x :: y :: ys
      else y :: insert_by_score_desc x ys
  end.

Definition sort_by_score_desc (l : list hit) : list hit :=
  List.fold_right insert_by_score_desc [] l.

Section QueryEngine.

(** The collaborators of a [QueryEngine]: [self.kg.search_content],
    [self.embedder.embed], [self.vector_store.list_collections] and
    [self.vector_store.search]; each may raise. *)
Variable kg_search_content :
  option string -> option string -> option string -> option string ->
  option KG.datetime -> option KG.datetime -> Z -> outcome (list KG.content_row).
Variable embedder_embed : string -> outcome embedding.
Variable vs_list_collections : outcome (list string).
Variable vs_search : string -> embedding -> Z -> outcome coll_results.

(** The inner loop of [_semantic_search] over the ids of one collection;
    an IndexError leaves the loop, keeping what was appended. *)
Fixpoint append_coll_hits (collection : string) (cr : coll_results)
  (i : nat) (doc_ids : list string) (results : list hit) : list hit :=
  match doc_ids with
  | [] => results
  | doc_id :: rest =>
      let source_id :=
        match PyStr.rsplit1_head ":chunk:" doc_id with
        | Some h => h
        | None => doc_id
        end in
      match item_or (documents cr) i "", item_or (metadatas cr) i [],
            match distances cr with
            | [] => Some 0%Q
            | ds => option_map (fun d => (1 - d)%Q) (List.nth_error ds i)
            end with
      | Some text, Some metadata, Some score =>
          append_coll_hits collection cr (S i) rest
            (results ++ [SemanticHit source_id doc_id collection text metadata score])
      | _, _, _ => results
      end
  end.

(** [_semantic_search] *)
Definition _semantic_search (query : string) (content_types : option (list string))
  (top_k : Z) : outcome (list hit) :=
  match embedder_embed query with
  | Raise e => Raise e
  | Ok query_embedding =>
      match (match given_list content_types with
             | Some cts => Ok cts
             | None => vs_list_collections
             end) with
      | Raise e => Raise e
      | Ok collections =>
          Ok (List.fold_left
                (fun results collection =>
                   match vs_search collection query_embedding top_k with
                   | Ok cr => append_coll_hits collection cr 0 (ids cr) results
                   | Raise _ => results
                   end)
                collections [])
      end
  end.

(** The calls of [kg.search_content] made for a list of content types. *)
Fixpoint search_each_type (query : string) (content_types : list string)
  (since until : option KG.datetime) (limit : Z) : outcome (list KG.content_row) :=
  match content_types with
  | [] => Ok []
  | content_type :: rest =>
      match kg_search_content (Some query) (Some content_type) None None
                              since until limit with
      | Raise e => Raise e
      | Ok kg_results =>
          match search_each_type query rest since until limit with
          | Raise e => Raise e
          | Ok more => Ok (kg_results ++ more)
          end
      end
  end.

(** [_keyword_search] *)
Definition _keyword_search (query : string) (content_types sources : option (list string))
  (since until : option KG.datetime) (limit : Z) : outcome (list hit) :=
  match (match given_list content_types with
         | Some cts => search_each_type query cts since until limit
         | None => kg_search_content (Some query) None None None since until limit
         end) with
  | Raise e => Raise e
  | Ok results =>
      let results :=
        match given_list sources with
        | Some srcs =>
            List.filter (fun r => bool_decide (KG.c_source r ∈ srcs)) results
        | None => results
        end in
      Ok (List.map
            (fun r => KeywordHit r (keyword_score query (KG.c_title r) (KG.c_body r)))
            results)
  end.

(** The list [results] of [search] just before it is sorted. *)
Definition search_merged (query : string) (content_types sources : option (list string))
  (since until : option KG.datetime) (top_k : Z) (use_semantic use_keyword : bool)
  : list hit :=
  let acc := ([], ∅) in
  let acc :=
    if use_semantic
    then match _semantic_search query content_types (top_k * 2) with
         | Ok semantic_results => List.fold_left add_unseen semantic_results acc
         | Raise _ => acc
         end
    else acc in
  let acc :=
    if use_keyword
    then match _keyword_search query content_types sources since until (top_k * 2) with
         | Ok keyword_results => List.fold_left add_unseen keyword_results acc
         | Raise _ => acc
         end
    else acc in
  fst acc.

(** [search] *)
Definition search (query : string) (content_types sources : option (list string))
  (since until : option KG.datetime) (top_k : Z) (use_semantic use_keyword : bool)
  : list hit :=
  py_prefix top_k
    (sort_by_score_desc
       (search_merged query content_types sources since until top_k
                      use_semantic use_keyword)).

End QueryEngine.

(** A knowledge graph stored in [d], seen as the collaborator of the engine. *)
Definition kg_of_db (d : KG.db)
  (query content_type source source_account : option string)
  (since until : option KG.datetime) (limit : Z) : outcome (list KG.content_row) :=
  fst (KG.search_content query content_type source source_account since until limit d).

(** *** The direct lookups of the engine, over its knowledge graph *)

(** [get_entity] and [get_content] *)
Definition get_entity (entity_id : string) : M KG.db (option KG.entity_row) :=
  KG.get_entity entity_id.

Definition get_content (content_id : string) : M KG.db (option KG.content_row) :=
  KG.get_content content_id.

(** [find_person] *)
Definition find_person (query : string) : M KG.db (list KG.entity_row) :=
  KG.search_entities (Some query) (Some "person") None 20.

(** The loop [for content_id in content_ids[:limit]] of
    [get_person_activity]. *)
Fixpoint collect_activity (content_types : option (list string))
  (content_ids : list string) (activity : list KG.content_row)
  : M KG.db (list KG.content_row) :=
  match content_ids with
  | [] => ret activity
  | content_id :: rest =>
      content <~ KG.get_content content_id ;;
      collect_activity content_types rest
        (match content with
         | Some c =>
             match content_types with
             | None => activity ++ [c]
             | Some cts =>
                 if bool_decide (KG.c_type c ∈ cts) then activity ++ [c] else activity
             end
         | None => activity
         end)
  end.

(** [activity.sort(key=lambda x: x.get("timestamp") or "", reverse=True)] *)
Definition activity_key (c : KG.content_row) : string :=
  match KG.c_timestamp c with
  | Some t => t
  | None => ""
  end.

Fixpoint insert_by_activity_key (x : KG.content_row) (l : list KG.content_row)
  : list KG.content_row :=
  match l with
  | [] => [x]
  | y :: ys =>
      if String.leb (activity_key y) (activity_key x)
      then x :: y :: ys
      else y :: insert_by_activity_key x ys
  end.

Definition sort_activity (l : list KG.content_row) : list KG.content_row :=
  List.fold_right insert_by_activity_key [] l.

(** [get_person_activity] *)
Definition get_person_activity (person_id : string)
  (content_types : option (list string)) (limit : Z)
  : M KG.db (list KG.content_row) :=
  relationships <~ KG.get_relationships person_id None "incoming" ;;
  let content_ids := List.map KG.r_from_id relationships in
  activity <~ collect_activity content_types (py_prefix limit content_ids) [] ;;
  ret (py_prefix limit (sort_activity activity)).

End Engine.

(* ===================================================================== *)
(** ** semantic/chunker.py: the text chunker *)
(* ===================================================================== *)

Module Chunker.

Local Open Scope list_scope.

Record Chunk : Type := mk_chunk {
  text : string;
  start_char : Z;
  end_char : Z;
  chunk_index : Z;
  metadata : option KG.dict
}.

(** [s[n:]] *)
Fixpoint drop (n : nat) (s : string) : string :=
  match n, s with
  | O, _ => s
  | S k, String _ s' => drop k s'
  | S _, EmptyString => EmptyString
  end.

(** The number of leading characters of [s] that are in [" \n\t"]. *)
Fixpoint leading_blanks (s : string) : nat :=
  match s with
  | String c s' =>
      if Ascii.eqb c " " || Ascii.eqb c "010" || Ascii.eqb c "009"
      then S (leading_blanks s')
      else O
  | EmptyString => O
  end.

(** The variables of the main loop of [chunk]. *)
Record loop_state : Type := mk_loop {
  chunks : list Chunk;
  current_chunk : list string;
  current_start : Z;
  current_length : Z;
  next_index : Z
}.

Section TextChunker.

(** The attributes set by [__init__]. *)
Variables chunk_size chunk_overlap min_chunk_size : Z.

(** [re.split(sentence_pattern, text)] for the pattern of
    [_split_into_sentences]. *)
Variable re_split : string -> list string.

(** The loop of [_split_into_sentences] over [parts]. *)
Fixpoint sentences_from (text : string) (current_pos : Z) (parts : list string)
  : list (Z * string) :=
  match parts with
  | [] => []
  | part :: rest =>
      let here :=
        if PyStr.truthy (PyStr.strip part)
        then [(current_pos, PyStr.strip part)]
        else [] in
      let current_pos := current_pos + PyStr.len part in
      let current_pos :=
        if current_pos <? PyStr.len text
        then current_pos
             + Z.of_nat (leading_blanks (drop (Z.to_nat current_pos) text))
        else current_pos in
      here ++ sentences_from text current_pos rest
  end.

Definition _split_into_sentences (text : string) : list (Z * string) :=
  sentences_from text 0 (re_split text).

(** The loop of [_get_overlap] over [reversed(sentences)]. *)
Fixpoint overlap_from (target_length : Z) (reversed : list string)
  (overlap_sentences : list string) (overlap_length : Z) : list string :=
  match reversed with
  | [] => overlap_sentences
  | sentence :: rest =>
      if overlap_length + PyStr.len sentence >? target_length
      then overlap_sentences
      else overlap_from target_length rest (sentence :: overlap_sentences)
                        (overlap_length + PyStr.len sentence + 1)
  end.

Definition _get_overlap (sentences : list string) (target_length : Z) : string :=
  match sentences with
  | [] => ""
  | _ => PyStr.join " " (overlap_from target_length (List.rev sentences) [] 0)
  end.

(** One iteration of [for sentence_start, sentence in sentences]. *)
Definition chunk_step (metadata : option KG.dict) (st : loop_state)
  (item : Z * string) : loop_state :=
  let '(sentence_start, sentence) := item in
  let sentence_length := PyStr.len sentence in
  let st :=
    match current_chunk st with
    | _ :: _ =>
        if current_length st + sentence_length >? chunk_size
        then
          let chunk_text := PyStr.join " " (current_chunk st) in
          let overlap_text := _get_overlap (current_chunk st) chunk_overlap in
          let new_length :=
            if PyStr.truthy overlap_text then PyStr.len overlap_text else 0 in
          mk_loop
            (chunks st
               ++ [mk_chunk (PyStr.strip chunk_text) (current_start st)
                            (current_start st + PyStr.len chunk_text)
                            (next_index st) metadata])
            (if PyStr.truthy overlap_text then [overlap_text] else [])
            (sentence_start - new_length)
            new_length
            (next_index st + 1)
        else st
    | [] => st
    end in
  mk_loop (chunks st) (current_chunk st ++ [sentence]) (current_start st)
          (current_length st + sentence_length + 1) (next_index st).

(** The code after the loop: emit the last chunk, or merge it into the
    previous one when it is shorter than [min_chunk_size]. *)
Definition chunk_finish (metadata : option KG.dict) (st : loop_state) : list Chunk :=
  match current_chunk st with
  | [] => chunks st
  | _ :: _ =>
      let chunk_text := PyStr.join " " (current_chunk st) in
      if PyStr.len chunk_text >=? min_chunk_size
      then chunks st
             ++ [mk_chunk (PyStr.strip chunk_text) (current_start st)
                          (current_start st + PyStr.len chunk_text)
                          (next_index st) metadata]
      else match List.rev (chunks st) with
           | [] => chunks st
           | prev_chunk :: earlier =>
               let merged_text :=
                 (text prev_chunk ++ " " ++ PyStr.strip chunk_text)%string in
               List.rev earlier
                 ++ [mk_chunk merged_text (start_char prev_chunk)
                              (start_char prev_chunk + PyStr.len merged_text)
                              (chunk_index prev_chunk) metadata]
           end
  end.

(** [TextChunker.chunk] *)
Definition chunk (text : string) (metadata : option KG.dict) : list Chunk :=
  if negb (PyStr.truthy text) || (PyStr.len text <? min_chunk_size)
  then
    if PyStr.truthy text
    then [mk_chunk (PyStr.strip text) 0 (PyStr.len text) 0 metadata]
    else []
  else
    let sentences := _split_into_sentences text in
    chunk_finish metadata
      (List.fold_left (chunk_step metadata) sentences (mk_loop [] [] 0 0 0)).

(** [chunk_document] *)
Definition chunk_document (title body source_id source_type : string)
  (metadata : option KG.dict) : list Chunk :=
  let base_metadata :=
    KG.dict_update
      [("source_id", KG.JStr source_id); ("source_type", KG.JStr source_type);
       ("title", KG.JStr title)]
      (match metadata with Some m => m | None => [] end) in
  let full_text :=
    if PyStr.truthy title then (title ++ String "010" (String "010" body))%string
    else body in
  let chunks := chunk full_text (Some base_metadata) in
  let total_chunks := PyStr.len_list chunks in
  List.map
    (fun c =>
       mk_chunk (text c) (start_char c) (end_char c) (chunk_index c)
                (Some (KG.dict_update base_metadata
                         [("chunk_index", KG.JInt (chunk_index c));
                          ("total_chunks", KG.JInt total_chunks)])))
    chunks.

End TextChunker.

(** [EmailChunker]: a [TextChunker] with [chunk_size=800],
    [chunk_overlap=150], [min_chunk_size=10]. *)
Section EmailChunker.

Variable re_split : string -> list string.

(** [str] on a list or a dictionary. *)
Variable repr : KG.json -> string.

(** [chunk_email]; the addresses are the values the caller found in the
    metadata of the message. *)
Definition chunk_email (subject body : string) (from_addr to_addr : KG.json)
  (message_id : string) (metadata : option KG.dict) : list Chunk :=
  let header :=
    ("Subject: " ++ subject ++ String "010" ("From: " ++ KG.format_value repr from_addr
       ++ String "010" ("To: " ++ KG.format_value repr to_addr)))%string in
  let base_metadata :=
    KG.dict_update
      [("source_id", KG.JStr message_id); ("source_type", KG.JStr "email");
       ("subject", KG.JStr subject); ("from", from_addr);
       ("to", to_addr)]
      (match metadata with Some m => m | None => [] end) in
  let full_text := (header ++ String "010" (String "010" body))%string in
  chunk 800 150 10 re_split full_text (Some base_metadata).

End EmailChunker.

End Chunker.

(* ===================================================================== *)
(** ** semantic/embedder.py: the embedder and its cache *)
(* ===================================================================== *)

Module Embedder.

Local Open Scope list_scope.

Definition embedding : Type := list Q.

(** What an [Embedder] works on: its own [self._cache], the files of
    [cache_dir] (file name to the JSON list stored in it) and the log of the
    batches sent to the provider. Only [_cache] belongs to the instance; the
    other two outlive it. *)
Record state : Type := mk_state {
  _cache : gmap string embedding;
  disk : gmap string embedding;
  provider_calls : list (list string)
}.

(** [texts[i : i + batch_size] for i in range(0, len(texts), batch_size)] *)
Fixpoint batches (fuel : nat) (batch_size : nat) (texts : list string)
  : list (list string) :=
  match fuel with
  | O => []
  | S fuel' =>
      match texts with
      | [] => []
      | _ => List.firstn batch_size texts
               :: batches fuel' batch_size (List.skipn batch_size texts)
      end
  end.

(** [results.sort(key=lambda x: x[0])]: stable, ascending. *)
Fixpoint insert_by_index (x : nat * embedding) (l : list (nat * embedding))
  : list (nat * embedding) :=
  match l with
  | [] => [x]
  | y :: ys =>
      if (fst x <=? fst y)%nat
      then x :: y :: ys
      else y :: insert_by_index x ys
  end.

Definition sort_by_index (l : list (nat * embedding)) : list (nat * embedding) :=
  List.fold_right insert_by_index [] l.

Section EmbedderClass.

(** [hashlib.sha256(text.encode()).hexdigest()[:16]] *)
Variable _cache_key : string -> string.

(** [EMBEDDING_BATCH_SIZE] of the configuration. *)
Variable batch_size : Z.

(** [self._client.embeddings.create] followed by the extraction of
    [batch_embeddings]; the first argument is the number of calls made
    before, so that a failure can be transient. *)
Variable provider : nat -> list string -> outcome (list embedding).

(** [_truncate_text] *)
Definition _truncate_text (text : string) (max_tokens : Z) : string :=
  let max_chars := max_tokens * 4 in
  if PyStr.len text >? max_chars then PyStr.take max_chars text else text.

(** [_load_cache]: reads [cache_index.json] when it exists, logs its size,
    and leaves [self._cache] as it is. *)
Definition _load_cache : M state unit :=
  st <~ get_state ;;
  match disk st !! "cache_index.json" with
  | Some index => ret tt
  | None => ret tt
  end.

(** [__init__]: a new instance over the same cache directory; [api_key] is
    the value of [api_key or OPENAI_API_KEY]. *)
Definition __init__ (api_key : string) : M state unit :=
  if negb (PyStr.truthy api_key)
  then raise (ValueError "OpenAI API key is required")
  else
    st <~ get_state ;;
    put_state (mk_state ∅ (disk st) (provider_calls st)) ;;;
    _load_cache.

(** [_save_cache_entry]; the write is taken to succeed. *)
Definition _save_cache_entry (key : string) (e : embedding) : M state unit :=
  st <~ get_state ;;
  put_state (mk_state (_cache st) (<[(key ++ ".json")%string := e]> (disk st))
                      (provider_calls st)).

(** [_load_cache_entry] *)
Definition _load_cache_entry (key : string) : M state (option embedding) :=
  st <~ get_state ;;
  ret (disk st !! (key ++ ".json")%string).

(** [self._cache[cache_key] = embedding] *)
Definition cache_store (key : string) (e : embedding) : M state unit :=
  st <~ get_state ;;
  put_state (mk_state (<[key := e]> (_cache st)) (disk st) (provider_calls st)).

(** One request to the provider. *)
Definition call_provider (batch : list string) : M state (list embedding) :=
  fun st =>
    (provider (List.length (provider_calls st)) batch,
     mk_state (_cache st) (disk st) (provider_calls st ++ [batch])).

(** The body of [_embed_batch], one attempt. *)
Fixpoint embed_batches (bs : list (list string)) (all_embeddings : list embedding)
  : M state (list embedding) :=
  match bs with
  | [] => ret all_embeddings
  | batch :: rest =>
      let batch := List.map (fun t => _truncate_text t 8000) batch in
      batch_embeddings <~ call_provider batch ;;
      embed_batches rest (all_embeddings ++ batch_embeddings)
  end.

Definition _embed_batch_attempt (texts : list string) : M state (list embedding) :=
  if batch_size =? 0
  then raise (ValueError "range() arg 3 must not be zero")
  else if batch_size <? 0 then ret []
  else embed_batches (batches (List.length texts) (Z.to_nat batch_size) texts) [].

(** [_embed_batch] under [@retry(stop=stop_after_attempt(3))]. *)
Definition _embed_batch (texts : list string) : M state (list embedding) :=
  try_except (_embed_batch_attempt texts) (fun _ =>
  try_except (_embed_batch_attempt texts) (fun _ =>
  try_except (_embed_batch_attempt texts) (fun _ =>
  raise RetryError))).

(** [embed] *)
Definition embed (text : string) : M state embedding :=
  let cache_key := _cache_key text in
  st <~ get_state ;;
  match _cache st !! cache_key with
  | Some e => ret e
  | None =>
      embs <~ _embed_batch [text] ;;
      match embs with
      | [] => raise IndexError
      | e :: _ =>
          cache_store cache_key e ;;;
          _save_cache_entry cache_key e ;;;
          ret e
      end
  end.

(** The first loop of [embed_batch]: split the texts into cache hits and
    texts to embed, with their positions. *)
Fixpoint check_cache (cache : gmap string embedding) (i : nat) (texts : list string)
  : list (nat * embedding) * list (nat * string) :=
  match texts with
  | [] => ([], [])
  | t :: rest =>
      let '(results, to_embed) := check_cache cache (S i) rest in
      match cache !! _cache_key t with
      | Some e => ((i, e) :: results, to_embed)
      | None => (results, (i, t) :: to_embed)
      end
  end.

(** The loop over [zip(to_embed_indices, new_embeddings)]. *)
Fixpoint store_new (pairs : list ((nat * string) * embedding))
  (results : list (nat * embedding)) : M state (list (nat * embedding)) :=
  match pairs with
  | [] => ret results
  | ((idx, t), e) :: rest =>
      let cache_key := _cache_key t in
      cache_store cache_key e ;;;
      _save_cache_entry cache_key e ;;;
      store_new rest (results ++ [(idx, e)])
  end.

(** [embed_batch] *)
Definition embed_batch (texts : list string) : M state (list embedding) :=
  st <~ get_state ;;
  let '(results, to_embed) := check_cache (_cache st) 0 texts in
  results <~
    (match to_embed with
     | [] => ret results
     | _ =>
         new_embeddings <~ _embed_batch (List.map snd to_embed) ;;
         store_new (List.combine to_embed new_embeddings) results
     end) ;;
  ret (List.map snd (sort_by_index results)).

End EmbedderClass.

End Embedder.

(* ===================================================================== *)
(** ** [SemanticIndexer] (src/semantic/semantic_indexer.py) *)
(* ===================================================================== *)

Module SemanticIndexer.

Local Open Scope list_scope.

(** The content dictionaries handed to [_chunk_content]: the keys it reads.
    [i_metadata], [i_source_account] and [i_timestamp] are [None] when the
    key is missing or holds [None]. *)
Record content_item : Type := mk_item {
  i_id : string;
  i_type : string;
  i_title : option string;
  i_body : option string;
  i_metadata : option KG.dict;
  i_source_account : option string;
  i_timestamp : option string
}.

(** The arguments of one call of [VectorStore.add]. *)
Record add_call : Type := mk_add {
  a_collection : string;
  a_ids : list string;
  a_embeddings : list Embedder.embedding;
  a_documents : list string;
  a_metadatas : list KG.dict
}.

(** What an indexer works on: the state of its embedder and the calls made
    to [vector_store.add]. *)
Record state : Type := mk_state {
  embedder : Embedder.state;
  add_calls : list add_call
}.

(** [x or ""] and [x or {}] *)
Definition str_or_empty (x : option string) : string :=
  match x with Some s => s | None => "" end.
Definition dict_or_empty (x : option KG.dict) : KG.dict :=
  match x with Some m => m | None => [] end.

Section SemanticIndexerClass.

(** The embedder: [_cache_key], [EMBEDDING_BATCH_SIZE] and the provider. *)
Variable _cache_key : string -> string.
Variable batch_size : Z.
Variable provider : nat -> list string -> outcome (list Embedder.embedding).

(** [re.split] of the chunkers and [str] on lists and dictionaries. *)
Variable re_split : string -> list string.
Variable repr : KG.json -> string.

(** The outcome of [VectorStore.add] ([get_collection] and [upsert]). *)
Variable vs_add : add_call -> outcome unit.

(** A call of a method of [self.embedder]. *)
Definition on_embedder {A} (c : M Embedder.state A) : M state A :=
  fun st => let '(r, e) := c (embedder st) in (r, mk_state e (add_calls st)).

(** [self.vector_store.add(...)] *)
Definition vector_store_add (call : add_call) : M state unit :=
  fun st => (vs_add call, mk_state (embedder st) (add_calls st ++ [call])).

(** [_chunk_content]; [self.text_chunker] is a [TextChunker()] with the
    default sizes. *)
Definition _chunk_content (content : content_item) : list Chunker.Chunk :=
  let content_type := i_type content in
  let title := str_or_empty (i_title content) in
  let body := str_or_empty (i_body content) in
  let metadata := dict_or_empty (i_metadata content) in
  if negb (PyStr.truthy body) then []
  else
    let base_metadata :=
      KG.dict_update
        [("source_id", KG.JStr (i_id content));
         ("source_type", KG.JStr content_type);
         ("title", KG.JStr title);
         ("source_account",
          match i_source_account content with
          | Some a => KG.JStr a
          | None => KG.JNull
          end);
         ("timestamp",
          match i_timestamp content with
          | Some t => if PyStr.truthy t then KG.JStr t else KG.JNull
          | None => KG.JNull
          end)]
        metadata in
    if String.eqb content_type "email"
    then
      Chunker.chunk_email re_split repr title body
        (match KG.dict_get "from" metadata with Some v => v | None => KG.JStr "" end)
        (match KG.dict_get "to" metadata with Some v => v | None => KG.JStr "" end)
        (i_id content) (Some base_metadata)
    else
      Chunker.chunk_document 1000 200 100 re_split title body (i_id content)
        content_type (Some base_metadata).

(** [index_content] *)
Definition index_content (content_id content_type : string)
  (title body : option string) (metadata : option KG.dict) : M state Z :=
  if negb (PyStr.truthy (str_or_empty body)) then ret 0
  else
    let content :=
      mk_item content_id content_type title body
              (Some (dict_or_empty metadata)) None None in
    let chunks := _chunk_content content in
    (match chunks with
     | [] => ret tt
     | _ =>
         let texts := List.map Chunker.text chunks in
         embeddings <~ on_embedder
                         (Embedder.embed_batch _cache_key batch_size provider texts) ;;
         let ids :=
           List.map (fun c => (content_id ++ ":chunk:"
                                 ++ PyStr.str_int (Chunker.chunk_index c))%string)
                    chunks in
         let documents := texts in
         let metadatas :=
           List.map (fun c => dict_or_empty (Chunker.metadata c)) chunks in
         vector_store_add (mk_add content_type ids embeddings documents metadatas)
     end) ;;;
    ret (PyStr.len_list chunks).

End SemanticIndexerClass.

End SemanticIndexer.

(* ===================================================================== *)
(** ** indexers/gmail_indexer.py: full and delta synchronisation *)
(* ===================================================================== *)

Module Gmail.

Local Open Scope list_scope.

(** The dictionary built by [GmailClient.parse_message]. *)
Record parsed_message : Type := mk_parsed {
  p_id : string;
  p_thread_id : string;
  p_subject : option string;
  p_from : string;
  p_to : string;
  p_cc : string;
  p_body : option string;
  p_timestamp : option KG.datetime;
  p_label_ids : list string;
  p_has_attachments : bool
}.

(** The response of [list_messages]: the ids of [response["messages"]] when
    the key is present, and [nextPageToken]. *)
Record list_response : Type := mk_list_response {
  messages : option (list string);
  nextPageToken : option string
}.

(** One record of [response["history"]]: the ids under [messagesAdded] and
    [messagesDeleted]. *)
Record history_record : Type := mk_history_record {
  messagesAdded : list string;
  messagesDeleted : list string
}.

Record history_response : Type := mk_history_response {
  history : list history_record;
  historyId : option string
}.

(** A person found by [_extract_people]. *)
Record person : Type := mk_person {
  email : string;
  name : option string;
  relation : string
}.

(** What an indexing run works on: the knowledge graph and the [stats]
    dictionary of the run, which is updated in place. *)
Record run_state : Type := mk_run {
  kg : KG.db;
  stats : gmap string Z
}.

(** A call of a [KnowledgeGraph] method on [self.kg]. *)
Definition on_kg {A} (c : M KG.db A) : M run_state A :=
  fun st => let '(r, d) := c (kg st) in (r, mk_run d (stats st)).

(** [stats = {...}] *)
Definition new_stats (s : gmap string Z) : M run_state unit :=
  fun st => (Ok tt, mk_run (kg st) s).

(** [stats[key] += 1] *)
Definition incr (key : string) : M run_state unit :=
  fun st => match stats st !! key with
            | Some v => (Ok tt, mk_run (kg st) (<[key := v + 1]> (stats st)))
            | None => (Raise (KeyError key), st)
            end.

(** [stats[key]] *)
Definition read (key : string) : M run_state Z :=
  fun st => match stats st !! key with
            | Some v => (Ok v, st)
            | None => (Raise (KeyError key), st)
            end.

Definition full_stats : gmap string Z :=
  {[ "messages_processed" := 0; "messages_indexed" := 0;
     "people_extracted" := 0; "errors" := 0 ]}.

Definition delta_stats : gmap string Z :=
  {[ "messages_added" := 0; "messages_deleted" := 0; "errors" := 0 ]}.

(** [str(e)] *)
Definition exn_str (e : exn) : string :=
  match e with
  | IntegrityError => "constraint failed"
  | ValueError msg => msg
  | KeyError key => ("'" ++ key ++ "'")%string
  | IndexError => "list index out of range"
  | RetryError => "RetryError"
  | OtherError msg => msg
  end.

(** The [stats] dictionary as the JSON object stored in the sync state. *)
Definition stats_json (s : gmap string Z) : KG.json :=
  KG.JObj (List.map (fun kv => (fst kv, KG.JInt (snd kv))) (map_to_list s)).

Section GmailIndexer.

(** The raw message dictionaries of the Gmail API. *)
Variable message : Type.

(** [GOOGLE_ACCOUNTS] and [SYNC_BATCH_SIZE] of the configuration. *)
Variable GOOGLE_ACCOUNTS : list string.
Variable SYNC_BATCH_SIZE : Z.

(** The [GmailClient] of an account: its constructor, [list_messages],
    [get_message], [get_profile] (reduced to the [historyId] of the
    profile), [list_history] and the static [parse_message]. *)
Variable GmailClient : string -> outcome unit.
Variable list_messages : string -> string -> Z -> option string -> outcome list_response.
Variable get_message : string -> string -> outcome (option message).
Variable get_profile : string -> outcome (option string).
Variable list_history : string -> string -> outcome history_response.
Variable parse_message : message -> outcome parsed_message.

(** The two [re.findall] calls of [_parse_email_addresses]: the
    (name, email) groups of the bracketed pattern, and the plain addresses. *)
Variable findall_named : string -> list (string * string).
Variable findall_plain : string -> list string.

(** The clock during the run: [CURRENT_TIMESTAMP] of the database and
    [datetime.now(timezone.utc)]. *)
Variable now : KG.sqltime.
Variable utcnow : KG.datetime.

(** A call of a collaborator that may raise. *)
Definition call {A} (r : outcome A) : M run_state A := fun st => (r, st).

(** [_parse_email_addresses] *)
Definition _parse_email_addresses (text : string) : list (string * option string) :=
  match findall_named text with
  | (_ :: _) as matches =>
      List.map (fun m => (PyStr.strip (snd m),
                          if PyStr.truthy (fst m) then Some (PyStr.strip (fst m)) else None))
               matches
  | [] => List.map (fun e => (e, None)) (findall_plain text)
  end.

(** [_extract_people] *)
Definition _extract_people (msg : parsed_message) : list person :=
  List.flat_map
    (fun fr : string * string =>
       let '(value, relation) := fr in
       if PyStr.truthy value
       then List.map (fun en => mk_person (PyStr.lower (fst en)) (snd en) relation)
                     (_parse_email_addresses value)
       else [])
    [(p_from msg, "sender"); (p_to msg, "recipient"); (p_cc msg, "cc")].

(** The loop [for person in people] of [_index_message]. *)
Fixpoint index_people (account content_id : string) (people : list person)
  : M run_state unit :=
  match people with
  | [] => ret tt
  | p :: rest =>
      let person_id := ("person:" ++ email p)%string in
      is_new <~ on_kg (KG.upsert_entity now person_id "person"
                         (match name p with
                          | Some n => if PyStr.truthy n then n else email p
                          | None => email p
                          end)
                         "gmail" (Some account) (Some (email p)) None) ;;
      (if is_new : bool then incr "people_extracted" else ret tt) ;;;
      on_kg (KG.add_relationship now content_id "email" person_id "person"
               (relation p) None) ;;;
      index_people account content_id rest
  end.

(** [_index_message] *)
Definition _index_message (account : string) (msg : message) : M run_state unit :=
  parsed <~ call (parse_message msg) ;;
  let content_id := ("gmail:" ++ account ++ ":" ++ p_id parsed)%string in
  let people := _extract_people parsed in
  index_people account content_id people ;;;
  let body_preview :=
    match p_body parsed with
    | Some b => if PyStr.truthy b then PyStr.take 5000 b else ""
    | None => ""
    end in
  is_new <~ on_kg (KG.upsert_content now content_id "email" "gmail"
                     (Some account) (p_subject parsed) (Some body_preview)
                     (Some (p_id parsed)) None (p_timestamp parsed)
                     (Some [("thread_id", KG.JStr (p_thread_id parsed));
                            ("from", KG.JStr (p_from parsed));
                            ("to", KG.JStr (p_to parsed));
                            ("labels", KG.JList (List.map KG.JStr (p_label_ids parsed)));
                            ("has_attachments", KG.JBool (p_has_attachments parsed))])) ;;
  if is_new : bool then incr "messages_indexed" else ret tt.

(** The loop [for msg_stub in response["messages"]] of [index_all]. *)
Fixpoint index_page (account : string) (msg_ids : list string) : M run_state unit :=
  match msg_ids with
  | [] => ret tt
  | msg_id :: rest =>
      try_except
        (m <~ call (get_message account msg_id) ;;
         match m with
         | Some msg => _index_message account msg ;;; incr "messages_processed"
         | None => ret tt
         end)
        (fun _ => incr "errors") ;;;
      index_page account rest
  end.

(** The [while] loop of [index_all]; [fuel] bounds the number of pages
    requested, and the result is [false] when it ran out. *)
Fixpoint index_all_loop (fuel : nat) (account query : string) (max_messages : Z)
  (page_token : option string) : M run_state bool :=
  match fuel with
  | O => ret false
  | S fuel' =>
      processed <~ read "messages_processed" ;;
      if processed <? max_messages
      then
        next <~ try_except
          (response <~ call (list_messages account query
                               (Z.min SYNC_BATCH_SIZE (max_messages - processed))
                               page_token) ;;
           match messages response with
           | None => ret (inl true)
           | Some msg_ids =>
               index_page account msg_ids ;;;
               match KG.given (nextPageToken response) with
               | None => ret (inl true)
               | Some token => ret (inr token)
               end
           end)
          (fun _ => incr "errors" ;;; ret (inl true)) ;;
        match next : bool + string with
        | inl finished => ret finished
        | inr token => index_all_loop fuel' account query max_messages (Some token)
        end
      else ret true
  end.

(** [index_all]; the result is [None] when [fuel] pages were not enough. *)
Definition index_all (fuel : nat) (account : string) (max_messages : Z)
  (labels : option (list string)) : M run_state (option (gmap string Z)) :=
  if negb (bool_decide (account ∈ GOOGLE_ACCOUNTS))
  then raise (ValueError ("Unknown account: " ++ account))
  else
    call (GmailClient account) ;;;
    new_stats full_stats ;;;
    let query_parts :=
      match Engine.given_list labels with
      | Some ls => List.map (fun label => ("label:" ++ label)%string) ls
      | None => []
      end in
    let query :=
      match query_parts with
      | [] => ""
      | _ => PyStr.join " OR " query_parts
      end in
    finished <~ index_all_loop fuel account query max_messages None ;;
    if finished : bool
    then
      history_id <~ call (get_profile account) ;;
      st <~ get_state ;;
      on_kg (KG.set_last_sync "gmail" account utcnow history_id
               (Some [("type", KG.JStr "full"); ("stats", stats_json (stats st))])) ;;;
      st <~ get_state ;;
      ret (Some (stats st))
    else ret None.

(** The loop [for added in history.get("messagesAdded", [])] of [index_delta]. *)
Fixpoint index_added (account : string) (msg_ids : list string) : M run_state unit :=
  match msg_ids with
  | [] => ret tt
  | msg_id :: rest =>
      try_except
        (m <~ call (get_message account msg_id) ;;
         match m with
         | Some msg => _index_message account msg ;;; incr "messages_added"
         | None => ret tt
         end)
        (fun _ => incr "errors") ;;;
      index_added account rest
  end.

(** The loop [for deleted in history.get("messagesDeleted", [])]. *)
Fixpoint index_deleted (account : string) (msg_ids : list string) : M run_state unit :=
  match msg_ids with
  | [] => ret tt
  | msg_id :: rest =>
      let content_id := ("gmail:" ++ account ++ ":" ++ msg_id)%string in
      deleted <~ on_kg (KG.delete_content now content_id) ;;
      (if deleted : bool then incr "messages_deleted" else ret tt) ;;;
      index_deleted account rest
  end.

(** The loop [for history in response.get("history", [])]. *)
Fixpoint index_history (account : string) (records : list history_record)
  : M run_state unit :=
  match records with
  | [] => ret tt
  | h :: rest =>
      index_added account (messagesAdded h) ;;;
      index_deleted account (messagesDeleted h) ;;;
      index_history account rest
  end.

(** [index_delta]; [fuel] is handed to [index_all] when it falls back. *)
Definition index_delta (fuel : nat) (account : string)
  : M run_state (option (gmap string Z)) :=
  if negb (bool_decide (account ∈ GOOGLE_ACCOUNTS))
  then raise (ValueError ("Unknown account: " ++ account))
  else
    call (GmailClient account) ;;;
    new_stats delta_stats ;;;
    sync_state <~ on_kg (KG.get_last_sync "gmail" account) ;;
    match (match sync_state with
           | Some row => KG.given (KG.s_last_sync_token row)
           | None => None
           end) with
    | None => index_all fuel account 10000 None
    | Some start_history_id =>
        fallback <~ try_except
          (response <~ call (list_history account start_history_id) ;;
           index_history account (history response) ;;;
           let new_history_id :=
             match historyId response with
             | Some h => h
             | None => start_history_id
             end in
           st <~ get_state ;;
           on_kg (KG.set_last_sync "gmail" account utcnow (Some new_history_id)
                    (Some [("type", KG.JStr "delta"); ("stats", stats_json (stats st))])) ;;;
           ret false)
          (fun e => incr "errors" ;;; ret (PyStr.contains "historyId" (exn_str e))) ;;
        if fallback : bool
        then index_all fuel account 10000 None
        else st <~ get_state ;; ret (Some (stats st))
    end.

End GmailIndexer.

End Gmail.

(* ===================================================================== *)
(** ** The write operations of the storage layer, as data *)
(* ===================================================================== *)

Module Writes.

Import KG.

(** A call of one of the six writing methods of [KnowledgeGraph]. *)
Inductive write_call : Type :=
| UpsertEntity (entity_id entity_type name source : string)
               (source_account email : option string) (metadata : option dict)
| UpsertContent (content_id content_type source : string)
                (source_account title body source_id url : option string)
                (timestamp : option datetime) (metadata : option dict)
| AddRelationship (from_id from_type to_id to_type relation : string)
                  (metadata : option dict)
| DeleteContent (content_id : string)
| DeleteEntity (entity_id : string)
| SetLastSync (source account : string) (last_sync : datetime)
              (sync_token : option string) (metadata : option dict).

(** The database after the call, made while the database clock shows [now]. *)
Definition run_write (now : sqltime) (c : write_call) (d : db) : db :=
  match c with
  | UpsertEntity i t n s sa e m => snd (upsert_entity now i t n s sa e m d)
  | UpsertContent i t s sa ti b si u ts m =>
      snd (upsert_content now i t s sa ti b si u ts m d)
  | AddRelationship f ft t tty r m => snd (add_relationship now f ft t tty r m d)
  | DeleteContent i => snd (delete_content now i d)
  | DeleteEntity i => snd (delete_entity now i d)
  | SetLastSync s a l t m => snd (set_last_sync s a l t m d)
  end.

(** The (table, record id, action) a call records in the changelog, if any. *)
Definition logged_change (c : write_call) (d : db) : option (string * string * string) :=
  match c with
  | UpsertEntity i _ _ _ _ _ _ =>
      Some ("entities", i,
            match select_entity d i with Some _ => "update" | None => "insert" end)
  | UpsertContent i _ _ _ _ _ _ _ _ _ =>
      Some ("content", i,
            match select_content d i with Some _ => "update" | None => "insert" end)
  | DeleteContent i =>
      match select_content d i with
      | Some _ => Some ("content", i, "delete")
      | None => None
      end
  | DeleteEntity i =>
      match select_entity d i with
      | Some _ => Some ("entities", i, "delete")
      | None => None
      end
  | AddRelationship _ _ _ _ _ _ => None
  | SetLastSync _ _ _ _ _ => None
  end.

(** The changelog rows appended for a recorded change. *)
Definition appended (now : sqltime) (d : db) (l : option (string * string * string))
  : list changelog_row :=
  match l with
  | Some (table_name, record_id, action) =>
      [mk_changelog (Z.of_nat (List.length (changelog d)) + 1)
                    table_name record_id action None None now]
  | None => []
  end.

End Writes.

(** Notions used to state the properties of [search_content]. *)
Module KGAux.

Import KG.

(** The query has none of the wildcards of [LIKE]. *)
Fixpoint no_wildcard (q : string) : bool :=
  match q with
  | EmptyString => true
  | String c q' =>
      negb (Ascii.eqb c "%") && negb (Ascii.eqb c "_") && no_wildcard q'
  end.

(** [q] is a substring of [s], up to ASCII letter case. *)
Definition contains_ci (q s : string) : bool :=
  PyStr.contains (PyStr.lower q) (PyStr.lower s).

(** [contains_ci] on a nullable column. *)
Definition col_contains_ci (q : string) (col : option string) : bool :=
  match col with
  | Some v => contains_ci q v
  | None => false
  end.



End KGAux.

(** Notions used to state the properties of the query engine. *)
Module EngineAux.

Import Engine.


(** [a] may stand before [b] in a list sorted by descending score. *)
Definition score_ge (a b : hit) : Prop := (hit_score b <= hit_score a)%Q.

(** The state of [results] and [seen_ids] in [search] after the semantic
    branch and before the keyword branch. *)
Definition semantic_part
  (embedder_embed : string -> outcome embedding)
  (vs_list_collections : outcome (list string))
  (vs_search : string -> embedding -> Z -> outcome coll_results)
  (query : string) (content_types : option (list string))
  (top_k : Z) (use_semantic : bool) : list hit * gset string :=
  if use_semantic
  then match _semantic_search embedder_embed vs_list_collections vs_search
               query content_types (top_k * 2) with
       | Ok semantic_results => List.fold_left add_unseen semantic_results ([], ∅)
       | Raise _ => ([], ∅)
       end
  else ([], ∅).

(** The hit [_semantic_search] builds for the id at position [i] of the
    answer [cr] of a collection, when the answer has a document, a metadata
    dictionary and a distance at that position. *)
Definition hit_at (collection : string) (cr : coll_results) (item : nat * string)
  : hit :=
  let i := fst item in
  let doc_id := snd item in
  SemanticHit
    (match PyStr.rsplit1_head ":chunk:" doc_id with
     | Some h => h
     | None => doc_id
     end)
    doc_id collection
    (List.nth i (documents cr) "")
    (List.nth i (metadatas cr) [])
    (1 - List.nth i (distances cr) 0%Q)%Q.

End EngineAux.

(** Notions used to state the properties of the Gmail indexer. *)
Module GmailAux.

Import Gmail.

(** The keys of the statistics of a full and of a delta synchronisation. *)
Definition full_keys : gset string :=
  {[ "messages_processed"; "messages_indexed"; "people_extracted"; "errors" ]}.
Definition delta_keys : gset string :=
  {[ "messages_added"; "messages_deleted"; "errors" ]}.

(** There is no SyncState row for the account, or its token is missing. *)
Definition no_sync_token (d : KG.db) (account : string) : Prop :=
  match fst (KG.get_last_sync "gmail" account d) with
  | Ok (Some row) => KG.given (KG.s_last_sync_token row) = None
  | Ok None => True
  | Raise _ => False
  end.

(** Following [nextPageToken] from [page_token], the listing stops (a
    failure, a response without messages or without a next page) within
    [n] requests, whatever [max_results] is asked. *)
Fixpoint listing_ends
  (list_messages : string -> string -> Z -> option string -> outcome list_response)
  (n : nat) (account query : string) (page_token : option string) : Prop :=
  match n with
  | O => False
  | S n' =>
      forall max_results,
        match list_messages account query max_results page_token with
        | Raise _ => True
        | Ok response =>
            match messages response, KG.given (nextPageToken response) with
            | Some _, Some token =>
                listing_ends list_messages n' account query (Some token)
            | _, _ => True
            end
        end
  end.

(** A computation that leaves the set of keys of [stats] as it is. *)
Definition keeps_keys {A} (c : M run_state A) : Prop :=
  forall st r st', c st = (r, st') -> dom (stats st') = dom (stats st).

(** No entity of the graph has an id that begins with [gmail:], the prefix
    of the content ids of the Gmail indexer. *)
Definition no_gmail_entity (d : KG.db) : Prop :=
  List.Forall (fun r => String.prefix "gmail:" (KG.e_id r) = false)
              (KG.entities d).

(** A call on the graph, and a step of an indexing run, that keep
    [no_gmail_entity] and leave the [relationships] table as it is. *)
Definition db_keeps_edges {A} (c : M KG.db A) : Prop :=
  forall d, no_gmail_entity d ->
    no_gmail_entity (snd (c d))
    /\ KG.relationships (snd (c d)) = KG.relationships d.

Definition keeps_edges {A} (c : M run_state A) : Prop :=
  forall st, no_gmail_entity (kg st) ->
    no_gmail_entity (kg (snd (c st)))
    /\ KG.relationships (kg (snd (c st))) = KG.relationships (kg st).

End GmailAux.

(** The constraints of the schema, as an invariant of the database. *)
Module KGInv.

Import KG.

Definition edge_key (r : relationship_row) : string * string * string :=
  (r_from_id r, r_to_id r, r_relation r).

Definition sync_key (r : sync_state_row) : string * string :=
  (s_source r, s_account r).

Record well_formed (d : db) : Prop := mk_well_formed {
  (* PRIMARY KEY of entities, content and sync_state *)
  wf_entities : List.NoDup (List.map e_id (entities d));
  wf_content : List.NoDup (List.map c_id (content d));
  wf_sync : List.NoDup (List.map sync_key (sync_state d));
  (* idx_rel_unique *)
  wf_edges : List.NoDup (List.map edge_key (relationships d));
  (* both FOREIGN KEYs of relationships *)
  wf_fk : forall r, List.In r (relationships d) ->
            is_entity_id d (r_from_id r) = true
            /\ is_entity_id d (r_to_id r) = true;
  (* AUTOINCREMENT ids *)
  wf_rowids : List.NoDup (List.map r_rowid (relationships d))
              /\ 0 <= rel_seq d
              /\ forall r, List.In r (relationships d) -> 0 < r_rowid r <= rel_seq d;
  wf_log : List.map l_rowid (changelog d)
           = List.map Z.of_nat (List.seq 1 (List.length (changelog d)))
}.

End KGInv.

(** Notions used to state the properties of the chunker. *)
Module ChunkerAux.

Import Chunker.

(** The chunks are numbered 0, 1, ... in order and carry the metadata [md]. *)
Definition numbered (md : option KG.dict) (l : list Chunk) : Prop :=
  List.map chunk_index l = List.map Z.of_nat (List.seq 0 (List.length l))
  /\ List.Forall (fun c => metadata c = md) l.

(** The invariant of the main loop of [chunk]. *)
Definition loop_ok (md : option KG.dict) (st : loop_state) : Prop :=
  numbered md (chunks st) /\ next_index st = Z.of_nat (List.length (chunks st)).

End ChunkerAux.

(** Notions used to state the properties of the embedder. *)
Module EmbedderAux.

Import Embedder.

(** The vector [embed_batch] answers for a text: the cached one when the
    key of the text is in the cache, the one the provider computes for the
    truncated text otherwise. *)
Definition answer (_cache_key : string -> string) (f : string -> embedding)
  (cache : gmap string embedding) (t : string) : embedding :=
  match cache !! _cache_key t with
  | Some e => e
  | None => f (_truncate_text t 8000)
  end.

(** The texts of a list whose key is not in the cache, in order. *)
Definition misses (_cache_key : string -> string)
  (cache : gmap string embedding) (texts : list string) : list string :=
  List.filter (fun t => match cache !! _cache_key t with
                        | Some _ => false
                        | None => true
                        end) texts.

(** A request respects the limits: at most [batch_size] texts, each of at
    most 32000 characters. *)
Definition request_ok (batch_size : Z) (batch : list string) : Prop :=
  PyStr.len_list batch <= batch_size
  /\ List.Forall (fun t => PyStr.len t <= 32000) batch.

(** What a step may do to the state: send requests that respect the limits,
    and nothing else. *)
Definition only_sends (batch_size : Z) (st st' : state) : Prop :=
  _cache st' = _cache st /\ disk st' = disk st
  /\ exists new,
       provider_calls st' = (provider_calls st ++ new)%list
       /\ List.Forall (request_ok batch_size) new.

(** Orders on the (position, vector) pairs of [embed_batch]. *)
Definition idx_le (a b : nat * embedding) : Prop := (fst a <= fst b)%nat.
Definition idx_lt (a b : nat * embedding) : Prop := (fst a < fst b)%nat.

End EmbedderAux.

(** Notions used to state the properties of the semantic indexer. *)
Module SemanticAux.

(** The string holds no colon. *)
Fixpoint no_colon (s : string) : bool :=
  match s with
  | EmptyString => true
  | String c s' => negb (Ascii.eqb c ":") && no_colon s'
  end.

(** The id under which [index_content] stores chunk number [k] of an item. *)
Definition chunk_id (content_id : string) (k : nat) : string :=
  (content_id ++ ":chunk:" ++ PyStr.str_int (Z.of_nat k))%string.

End SemanticAux.

(** Concrete databases and calls used to exercise the model. *)
Module Scenario.

Import KG.

Definition t0 : sqltime := "2024-01-01 00:00:00".
Definition t1 : sqltime := "2024-01-01 00:00:01".

Definition two_people : db :=
  snd (upsert_entity t0 "person:b" "person" "Person B" "gmail" None None None
         (snd (upsert_entity t0 "person:a" "person" "Person A" "gmail" None None None
                 empty_db))).

Definition abc_row : content_row :=
  mk_content "c1" "note" (Some "abc") None "manual" None None None None None t0 t0.

Definition abc_db : db := mk_db [] [abc_row] [] 0 [] [].

(** Three stored items that mention "hello": two e-mails with a timestamp
    and a file without one. *)
Definition mail_1 : content_row :=
  mk_content "1" "email" (Some "Hello World") None "gmail" (Some "a") None None
             (Some "2024-01-02T00:00:00") None t0 t0.
Definition file_2 : content_row :=
  mk_content "2" "file" None (Some "say HELLO") "drive" None None None None None t0 t0.
Definition mail_3 : content_row :=
  mk_content "3" "email" (Some "other") (Some "hello") "gmail" (Some "a") None None
             (Some "2024-01-03T00:00:00") None t0 t0.
Definition hello_db : db := mk_db [] [mail_1; file_2; mail_3] [] 0 [] [].

(** An embedder whose provider answers every text with the same vector,
    with the identity as cache key and batches of 100. *)
Definition demo_vector : Embedder.embedding := [(1 # 2)%Q].
Definition demo_provider (n : nat) (batch : list string)
  : outcome (list Embedder.embedding) :=
  Ok (List.map (fun _ => demo_vector) batch).
Definition demo_embed : string -> M Embedder.state Embedder.embedding :=
  Embedder.embed (fun t => t) 100 demo_provider.
Definition fresh_embedder : Embedder.state := Embedder.mk_state ∅ ∅ [].

(** A query engine over one stored note of source [slack], dated 2020, and a
    vector store whose only collection answers every query with a chunk of
    an item [a] and a chunk of that note [b]. *)
Definition note_b : content_row :=
  mk_content "b" "note" (Some "Budget plan") (Some "the budget") "slack" None None
             None (Some "2020-01-01T00:00:00") None t0 t0.
Definition notes_db : db := mk_db [] [note_b] [] 0 [] [].
Definition q_embed (query : string) : outcome Engine.embedding := Ok [1%Q].
Definition q_collections : outcome (list string) := Ok ["note"].
Definition q_vs_search (collection : string) (e : Engine.embedding) (top_k : Z)
  : outcome Engine.coll_results :=
  Ok (Engine.mk_coll_results ["a:chunk:0"; "b:chunk:3"] [(1 # 10)%Q; (1 # 2)%Q]
                             ["alpha"; "beta"] [[]; []]).
Definition q_search :=
  Engine.search (Engine.kg_of_db notes_db) q_embed q_collections q_vs_search.
Definition hit_a : Engine.hit :=
  Engine.SemanticHit "a" "a:chunk:0" "note" "alpha" [] (1 - (1 # 10))%Q.
Definition hit_b : Engine.hit :=
  Engine.SemanticHit "b" "b:chunk:3" "note" "beta" [] (1 - (1 # 2))%Q.

(** A mailbox with one message, for the account [acct]; the raw messages are
    taken to be the parsed ones. *)
Definition g_accounts : list string := ["acct"].
Definition g_message : Gmail.parsed_message :=
  Gmail.mk_parsed "m1" "t1" (Some "Quarterly Report") "Ann <ann@example.com>"
                  "bob@example.com" "" (Some "the quarterly numbers")
                  (Some "2024-01-01T10:00:00+00:00") ["INBOX"] false.
Definition g_client (account : string) : outcome unit := Ok tt.
Definition g_list_messages (account query : string) (max_results : Z)
  (page_token : option string) : outcome Gmail.list_response :=
  Ok (Gmail.mk_list_response (Some ["m1"]) None).
Definition g_get_message (account msg_id : string)
  : outcome (option Gmail.parsed_message) := Ok (Some g_message).
Definition g_get_profile (account : string) : outcome (option string) :=
  Ok (Some "h100").
Definition g_list_history (account start_history_id : string)
  : outcome Gmail.history_response :=
  Ok (Gmail.mk_history_response [] None).
Definition g_parse_message (m : Gmail.parsed_message) : outcome Gmail.parsed_message :=
  Ok m.
Definition g_findall_named (text : string) : list (string * string) :=
  if String.eqb text "Ann <ann@example.com>" then [("Ann ", "ann@example.com")] else [].
Definition g_findall_plain (text : string) : list string :=
  if String.eqb text "bob@example.com" then ["bob@example.com"] else [].
Definition g_index_delta :=
  Gmail.index_delta Gmail.parsed_message g_accounts 100 g_client g_list_messages g_get_message
    g_get_profile g_list_history g_parse_message g_findall_named g_findall_plain
    t0 "2024-01-02T00:00:00+00:00".
Definition g_start : Gmail.run_state := Gmail.mk_run empty_db ∅.

(** The same mailbox with the parts of a run exposed, a run in which the
    history listing fails for another reason than an expired id, and a graph
    that holds a cursor for [acct]. *)
Definition g_index_all :=
  Gmail.index_all Gmail.parsed_message g_accounts 100 g_client g_list_messages
    g_get_message g_get_profile g_parse_message g_findall_named g_findall_plain
    t0 "2024-01-02T00:00:00+00:00".
Definition g_index_added :=
  Gmail.index_added Gmail.parsed_message g_get_message g_parse_message
    g_findall_named g_findall_plain t0.
Definition g_failing_history (account start_history_id : string)
  : outcome Gmail.history_response :=
  Raise (OtherError "quota exceeded").
Definition g_index_delta_failing :=
  Gmail.index_delta Gmail.parsed_message g_accounts 100 g_client g_list_messages
    g_get_message g_get_profile g_failing_history g_parse_message g_findall_named
    g_findall_plain t0 "2024-01-02T00:00:00+00:00".
Definition g_cursor_row : sync_state_row :=
  mk_sync_state "gmail" "acct" (Some "2024-01-01T00:00:00+00:00") (Some "h7") None.
Definition g_synced : Gmail.run_state :=
  Gmail.mk_run (mk_db [] [] [] 0 [] [g_cursor_row]) ∅.

(** A semantic indexer over the demo provider and a vector store that
    accepts every call. *)
Definition s_index_content :=
  SemanticIndexer.index_content (fun t => t) 100 demo_provider (fun t => [t])
    (fun _ => "") (fun _ => Ok tt).
Definition s_start : SemanticIndexer.state :=
  SemanticIndexer.mk_state fresh_embedder [].

(** Two people and one edge between them. *)
Definition acquainted : db :=
  snd (add_relationship t0 "person:a" "person" "person:b" "person" "knows" None
         two_people).

End Scenario.

(* ===================================================================== *)
(** * Properties of the storage layer *)
(* ===================================================================== *)

Section KGFacts.

Import KG.

Lemma find_none_map_id {A} (p : A -> bool) (f : A -> A) (l : list A) :
  List.find p l = None ->
  List.map (fun r => if p r then f r else r) l = l.
Proof.
  induction l as [|x l IH]; simpl; [reflexivity|].
  destruct (p x) eqn:E; [discriminate|].
  intros H. rewrite IH by assumption. reflexivity.
Qed.

Lemma find_app_new {A} (p : A -> bool) (l : list A) (x : A) :
  List.find p l = None -> p x = true -> List.find p (l ++ [x]) = Some x.
Proof.
  induction l as [|y l IH]; simpl; intros Hn Hp.
  - rewrite Hp. reflexivity.
  - destruct (p y); [discriminate|]. auto.
Qed.

Lemma find_none_filter_length {A} (p : A -> bool) (l : list A) :
  List.find p l = None -> List.length (List.filter p l) = 0%nat.
Proof.
  induction l as [|x l IH]; simpl; [reflexivity|].
  destruct (p x); [discriminate|]. assumption.
Qed.

Lemma find_some_filter_length {A} (p : A -> bool) (l : list A) (x : A) :
  List.find p l = Some x -> (0 <? List.length (List.filter p l))%nat = true.
Proof.
  induction l as [|y l IH]; simpl; [discriminate|].
  destruct (p y); simpl; auto.
Qed.

Lemma find_none_filter_negb {A} (p : A -> bool) (l : list A) :
  List.find p l = None -> List.filter (fun r => negb (p r)) l = l.
Proof.
  induction l as [|x l IH]; simpl; [reflexivity|].
  destruct (p x); [discriminate|]. simpl. intros H. rewrite IH by assumption.
  reflexivity.
Qed.

Lemma find_existsb {A} (p : A -> bool) (l : list A) :
  List.existsb p l = match List.find p l with Some _ => true | None => false end.
Proof.
  induction l as [|x l IH]; simpl; [reflexivity|].
  destruct (p x); simpl; auto.
Qed.

End KGFacts.

(** C2 (as amended). For a record whose id is not stored yet, the first
    [upsert_entity] (resp. [upsert_content]) returns [True] and the second
    one, with the same field values, returns [False]; after the second call
    the table holds the same rows, the row of the record having the same
    field values and [created_at], with [updated_at] set to the clock of the
    second call. *)
Theorem upsert_twice_true_then_false :
  forall (now1 now2 : KG.sqltime) (d : KG.db)
         (entity_id entity_type name source : string)
         (source_account email : option string) (metadata : option KG.dict)
         (content_id content_type csource : string)
         (caccount title body source_id url : option string)
         (timestamp : option KG.datetime) (cmetadata : option KG.dict),
    KG.select_entity d entity_id = None ->
    KG.select_content d content_id = None ->
    let e1 := KG.upsert_entity now1 entity_id entity_type name source
                source_account email metadata d in
    let e2 := KG.upsert_entity now2 entity_id entity_type name source
                source_account email metadata (snd e1) in
    let c1 := KG.upsert_content now1 content_id content_type csource caccount
                title body source_id url timestamp cmetadata d in
    let c2 := KG.upsert_content now2 content_id content_type csource caccount
                title body source_id url timestamp cmetadata (snd c1) in
    let erow u := KG.mk_entity entity_id entity_type name email source
                    source_account (KG.metadata_json metadata) now1 u in
    let crow u := KG.mk_content content_id content_type title body csource caccount
                    source_id url (option_map KG.isoformat timestamp)
                    (KG.metadata_json cmetadata) now1 u in
    (fst e1 = Ok true /\ fst e2 = Ok false
     /\ KG.entities (snd e1) = (KG.entities d ++ [erow now1])%list
     /\ KG.entities (snd e2) = (KG.entities d ++ [erow now2])%list
     /\ KG.select_entity (snd e2) entity_id = Some (erow now2))
    /\ (fst c1 = Ok true /\ fst c2 = Ok false
        /\ KG.content (snd c1) = (KG.content d ++ [crow now1])%list
        /\ KG.content (snd c2) = (KG.content d ++ [crow now2])%list
        /\ KG.select_content (snd c2) content_id = Some (crow now2)).
Proof.
  intros now1 now2 d entity_id entity_type name source source_account email
    metadata content_id content_type csource caccount title body source_id url
    timestamp cmetadata He Hc.
  unfold KG.select_entity in He. unfold KG.select_content in Hc.
  split.
  - cbv beta zeta.
    unfold KG.upsert_entity, KG._connection, bind, get_state, KG.set_entities,
      KG._log_change, ret, KG.select_entity. simpl.
    rewrite He. simpl.
    rewrite (find_app_new _ _ _ He) by (simpl; apply String.eqb_refl).
    simpl. rewrite List.map_app. simpl. rewrite String.eqb_refl.
    rewrite (find_none_map_id _ _ _ He).
    rewrite (find_app_new _ _ _ He) by (simpl; apply String.eqb_refl).
    repeat split; reflexivity.
  - cbv beta zeta.
    unfold KG.upsert_content, KG._connection, bind, get_state, KG.set_content,
      KG._log_change, ret, KG.select_content. simpl.
    rewrite Hc. simpl.
    rewrite (find_app_new _ _ _ Hc) by (simpl; apply String.eqb_refl).
    simpl. rewrite List.map_app. simpl. rewrite String.eqb_refl.
    rewrite (find_none_map_id _ _ _ Hc).
    rewrite (find_app_new _ _ _ Hc) by (simpl; apply String.eqb_refl).
    repeat split; reflexivity.
Qed.

Lemma upsert_twice_true_then_false_witness :
  fst (KG.upsert_entity Scenario.t1 "person:a" "person" "Person A" "gmail" None None None
         (snd (KG.upsert_entity Scenario.t0 "person:a" "person" "Person A" "gmail"
                 None None None KG.empty_db)))
  = Ok false.
Proof.
  exact (proj1 (proj2 (proj1
    (upsert_twice_true_then_false Scenario.t0 Scenario.t1 KG.empty_db
       "person:a" "person" "Person A" "gmail" None None None
       "c1" "note" "manual" None None None None None None None
       eq_refl eq_refl)))).
Defined.

(** C2, as stated, fails: the second call rewrites [updated_at], so the
    stored row differs as soon as the database clock has moved. *)
Lemma upsert_twice_row_changes :
  let d1 := snd (KG.upsert_entity Scenario.t0 "person:a" "person" "Person A" "gmail"
                   None None None KG.empty_db) in
  let r2 := KG.upsert_entity Scenario.t1 "person:a" "person" "Person A" "gmail"
              None None None d1 in
  fst r2 = Ok false
  /\ KG.select_entity (snd r2) "person:a" <> KG.select_entity d1 "person:a".
Proof.
  vm_compute. split; [reflexivity | discriminate].
Qed.

(** C3 (as amended). Every call of a writing method keeps the changelog it
    found and appends to it: exactly one record for [upsert_entity],
    [upsert_content], and for a [delete_content] / [delete_entity] that finds
    its row; nothing for [add_relationship], [set_last_sync] and a delete of
    an absent id. A call that appends nothing leaves the [entities] and
    [content] tables as they were, so every write to these two tables is
    logged in the same call. *)
Theorem entity_and_content_writes_are_logged :
  forall (now : KG.sqltime) (c : Writes.write_call) (d : KG.db),
    KG.changelog (Writes.run_write now c d)
    = (KG.changelog d ++ Writes.appended now d (Writes.logged_change c d))%list
    /\ (Writes.logged_change c d = None ->
        KG.entities (Writes.run_write now c d) = KG.entities d
        /\ KG.content (Writes.run_write now c d) = KG.content d).
Proof.
  intros now c d. destruct c; simpl.
  - (* upsert_entity *)
    unfold KG.upsert_entity, KG._connection, bind, get_state, KG.set_entities,
      KG._log_change, ret. simpl.
    destruct (KG.select_entity d entity_id); simpl; split;
      solve [reflexivity | discriminate].
  - unfold KG.upsert_content, KG._connection, bind, get_state, KG.set_content,
      KG._log_change, ret. simpl.
    destruct (KG.select_content d content_id); simpl; split;
      solve [reflexivity | discriminate].
  - (* add_relationship *)
    unfold KG.add_relationship, KG._connection, try_except, bind,
      KG.insert_relationship, ret, raise. simpl.
    destruct (KG.is_entity_id d from_id); simpl;
      [destruct (KG.is_entity_id d to_id); simpl;
       [destruct (List.existsb _ _); simpl|]|];
      rewrite List.app_nil_r; auto.
  - (* delete_content *)
    unfold KG.delete_content, KG._connection, bind, get_state, KG.set_content,
      KG._log_change, ret, KG.select_content. simpl.
    destruct (List.find _ (KG.content d)) eqn:E.
    + rewrite (find_some_filter_length _ _ _ E). simpl.
      split; [reflexivity | discriminate].
    + rewrite (find_none_filter_length _ _ E). simpl.
      rewrite List.app_nil_r, (find_none_filter_negb _ _ E). auto.
  - (* delete_entity *)
    unfold KG.delete_entity, KG._connection, bind, get_state, put_state,
      KG._log_change, ret, KG.select_entity. simpl.
    destruct (List.find _ (KG.entities d)) eqn:E.
    + rewrite (find_some_filter_length _ _ _ E). simpl.
      split; [reflexivity | discriminate].
    + rewrite (find_none_filter_length _ _ E). simpl.
      rewrite List.app_nil_r, (find_none_filter_negb _ _ E). auto.
  - (* set_last_sync *)
    unfold KG.set_last_sync, KG._connection, bind, get_state, put_state, ret. simpl.
    rewrite List.app_nil_r. auto.
Qed.

Lemma entity_and_content_writes_are_logged_witness :
  KG.entities
    (Writes.run_write Scenario.t1
       (Writes.AddRelationship "person:a" "person" "person:b" "person" "knows" None)
       Scenario.two_people)
  = KG.entities Scenario.two_people.
Proof.
  exact (proj1 (proj2
    (entity_and_content_writes_are_logged Scenario.t1
       (Writes.AddRelationship "person:a" "person" "person:b" "person" "knows" None)
       Scenario.two_people) eq_refl)).
Defined.

(** C3, as stated, fails: [add_relationship] and [set_last_sync] write
    without appending to the changelog. *)
Lemma relationship_and_sync_writes_not_logged :
  let d1 := Writes.run_write Scenario.t1
              (Writes.AddRelationship "person:a" "person" "person:b" "person" "knows" None)
              Scenario.two_people in
  let d2 := Writes.run_write Scenario.t1
              (Writes.SetLastSync "gmail" "acct" "2024-01-01T00:00:01+00:00"
                                  (Some "tok1") None)
              Scenario.two_people in
  (KG.relationships d1 <> KG.relationships Scenario.two_people
   /\ KG.changelog d1 = KG.changelog Scenario.two_people)
  /\ (KG.sync_state d2 <> KG.sync_state Scenario.two_people
      /\ KG.changelog d2 = KG.changelog Scenario.two_people).
Proof.
  vm_compute. repeat split; discriminate.
Qed.

(** C9. [add_relationship] never raises: it returns [True] exactly when both
    ends are ids of stored entities and the edge is new, and [False] for
    every constraint violation. In particular an edge whose [from_id] or
    [to_id] is not an entity id (a content id, say) is answered with [False]
    and the database is left as it was. *)
Theorem add_relationship_false_on_any_violation :
  forall (now : KG.sqltime) (from_id from_type to_id to_type relation : string)
         (metadata : option KG.dict) (d : KG.db),
    let r := KG.add_relationship now from_id from_type to_id to_type relation
               metadata d in
    fst r = Ok (KG.is_entity_id d from_id && KG.is_entity_id d to_id
                && negb (List.existsb (KG.same_edge from_id to_id relation)
                                      (KG.relationships d)))
    /\ (fst r = Ok false -> snd r = d)
    /\ (KG.is_entity_id d from_id = false \/ KG.is_entity_id d to_id = false ->
        fst r = Ok false /\ snd r = d).
Proof.
  intros now from_id from_type to_id to_type relation metadata d.
  cbv zeta.
  unfold KG.add_relationship, KG._connection, try_except, bind,
    KG.insert_relationship, ret, raise.
  destruct (KG.is_entity_id d from_id); simpl;
    [destruct (KG.is_entity_id d to_id); simpl;
     [destruct (List.existsb _ _); simpl|]|];
    (split; [reflexivity | split; [intros Hr; try discriminate Hr; reflexivity |]]);
    intros [Hv|Hv]; try discriminate Hv; split; reflexivity.
Qed.

Lemma add_relationship_false_on_any_violation_witness :
  fst (KG.add_relationship Scenario.t1 "gmail:acct:1" "email" "person:a" "person"
         "sender" None Scenario.two_people) = Ok false
  /\ snd (KG.add_relationship Scenario.t1 "gmail:acct:1" "email" "person:a" "person"
            "sender" None Scenario.two_people) = Scenario.two_people.
Proof.
  exact (proj2 (proj2
    (add_relationship_false_on_any_violation Scenario.t1 "gmail:acct:1" "email"
       "person:a" "person" "sender" None Scenario.two_people))
    (or_introl eq_refl)).
Defined.

(* ===================================================================== *)
(** * Properties of [search_content] *)
(* ===================================================================== *)

Section LikeFacts.

Import KG KGAux.

Lemma like_percent (pat s : string) :
  like (String "%" pat) s
  = like pat s
    || match s with
       | EmptyString => false
       | String _ t => like (String "%" pat) t
       end.
Proof. destruct s; reflexivity. Qed.

Lemma like_percent_only (s : string) : like "%" s = true.
Proof.
  induction s as [|c s IH]; [reflexivity|].
  rewrite like_percent, IH. apply orb_true_r.
Qed.

Lemma prefix_cons (a b : ascii) (s t : string) :
  String.prefix (String a s) (String b t) = Ascii.eqb a b && String.prefix s t.
Proof.
  simpl. destruct (ascii_dec a b) as [->|Hne].
  - rewrite Ascii.eqb_refl. reflexivity.
  - apply Ascii.eqb_neq in Hne. rewrite Hne. reflexivity.
Qed.

(** A query without wildcards, followed by [%], matches the texts that
    start with it, up to letter case. *)
Lemma like_literal_prefix (q : string) : forall s,
  no_wildcard q = true ->
  like (q ++ "%") s = String.prefix (PyStr.lower q) (PyStr.lower s).
Proof.
  induction q as [|c q IH]; intros s Hq.
  - simpl String.append. rewrite like_percent_only. destruct s; reflexivity.
  - simpl in Hq. apply andb_prop in Hq. destruct Hq as [Hc Hq].
    apply andb_prop in Hc. destruct Hc as [Hp Hu].
    apply negb_true_iff in Hp, Hu.
    change ((String c q ++ "%")%string) with (String c (q ++ "%")).
    destruct s as [|d s].
    + simpl. rewrite Hp. reflexivity.
    + cbn [like]. rewrite Hp, Hu. cbn [orb].
      cbn [PyStr.lower]. rewrite prefix_cons, IH by exact Hq. reflexivity.
Qed.

(** For a query without wildcards, [LIKE '%query%'] is the
    case-insensitive substring test. *)
Lemma like_literal_substring (q s : string) :
  no_wildcard q = true ->
  like ("%" ++ q ++ "%") s = contains_ci q s.
Proof.
  intros Hq. unfold contains_ci.
  change (("%" ++ q ++ "%")%string) with (String "%" (q ++ "%")).
  induction s as [|c s IH].
  - rewrite like_percent, like_literal_prefix by exact Hq.
    simpl. rewrite orb_false_r. destruct (PyStr.lower q); reflexivity.
  - rewrite like_percent, like_literal_prefix, IH by exact Hq.
    cbn [PyStr.lower PyStr.contains]. reflexivity.
Qed.

End LikeFacts.

Section SearchContentFacts.

Import KG KGAux.







Lemma sorted_firstn {A} (R : A -> A -> Prop) (n : nat) (l : list A) :
  Sorted R l -> Sorted R (List.firstn n l).
Proof.
  revert l. induction n as [|n IH]; intros l Hs; [constructor|].
  destruct l as [|x l]; [constructor|]. simpl.
  inversion Hs as [|? ? Hs' Hhd]; subst.
  constructor; [apply IH, Hs'|].
  destruct n; [constructor|].
  destruct l as [|y l]; [constructor|].
  inversion Hhd; subst. constructor. assumption.
Qed.


End SearchContentFacts.




(* ===================================================================== *)
(** * Properties of the chunker *)
(* ===================================================================== *)



(* ===================================================================== *)
(** * Properties of the embedder cache *)
(* ===================================================================== *)

Section EmbedderFacts.

Variable _cache_key : string -> string.
Variable batch_size : Z.
Variable provider : nat -> list string -> outcome (list Embedder.embedding).

(** Within one instance, a text whose key is in [self._cache] is answered
    from it, without any request to the provider. *)
Lemma embed_cached_no_provider_call (text : string) (st : Embedder.state)
  (e : Embedder.embedding) :
  Embedder._cache st !! _cache_key text = Some e ->
  Embedder.embed _cache_key batch_size provider text st = (Ok e, st).
Proof.
  intros H. unfold Embedder.embed, bind, get_state. rewrite H. reflexivity.
Qed.

(** A new instance starts with an empty [self._cache], whatever the cache
    directory holds. *)
Lemma init_cache_empty (api_key : string) (st st' : Embedder.state) :
  Embedder.__init__ api_key st = (Ok tt, st') ->
  Embedder._cache st' = ∅ /\ Embedder.disk st' = Embedder.disk st.
Proof.
  unfold Embedder.__init__, Embedder._load_cache, bind, get_state, put_state,
    ret, raise.
  destruct (negb (PyStr.truthy api_key)); [discriminate|]. simpl.
  destruct (Embedder.disk st !! "cache_index.json"); intros [= <-]; auto.
Qed.

Local Abbreviation embed := (Embedder.embed _cache_key batch_size provider).

Lemma attempt_single_text (text : string) (st : Embedder.state) :
  0 < batch_size ->
  exists r,
    Embedder._embed_batch_attempt batch_size provider [text] st
    = (r, Embedder.mk_state (Embedder._cache st) (Embedder.disk st)
            (Embedder.provider_calls st
               ++ [[Embedder._truncate_text text 8000]])%list).
Proof.
  intros Hb. unfold Embedder._embed_batch_attempt.
  destruct (batch_size =? 0) eqn:E0; [apply Z.eqb_eq in E0; lia|].
  destruct (batch_size <? 0) eqn:E1; [apply Z.ltb_lt in E1; lia|].
  destruct (Z.to_nat batch_size) as [|n] eqn:En; [lia|].
  simpl. rewrite List.firstn_nil. simpl.
  unfold bind, Embedder.call_provider, ret.
  destruct (provider _ _); eauto.
Qed.

(** [_embed_batch] on one text sends one, two or three requests. *)
Lemma embed_batch_single_calls (text : string) (st : Embedder.state) :
  0 < batch_size ->
  exists (k : nat) r,
    (1 <= k <= 3)%nat
    /\ Embedder._embed_batch batch_size provider [text] st
       = (r, Embedder.mk_state (Embedder._cache st) (Embedder.disk st)
               (Embedder.provider_calls st
                  ++ List.repeat [Embedder._truncate_text text 8000] k)%list).
Proof.
  intros Hb. unfold Embedder._embed_batch, try_except.
  destruct (attempt_single_text text st Hb) as (r1 & ->).
  destruct r1 as [a|e1]; [exists 1%nat; eexists; split; [lia | reflexivity]|].
  match goal with
  | |- context [Embedder._embed_batch_attempt _ _ _ ?s] =>
      destruct (attempt_single_text text s Hb) as (r2 & ->)
  end.
  cbn [Embedder._cache Embedder.disk Embedder.provider_calls].
  destruct r2 as [a|e2].
  { exists 2%nat. eexists. split; [lia|]. simpl List.repeat.
    rewrite <- List.app_assoc. reflexivity. }
  match goal with
  | |- context [Embedder._embed_batch_attempt _ _ _ ?s] =>
      destruct (attempt_single_text text s Hb) as (r3 & ->)
  end.
  cbn [Embedder._cache Embedder.disk Embedder.provider_calls].
  exists 3%nat. simpl List.repeat.
  destruct r3 as [a|e3]; eexists; (split; [lia|]);
    unfold raise; rewrite <- !List.app_assoc; reflexivity.
Qed.

(** A text whose key is not in [self._cache] costs at least one request to
    the provider, whatever the cache directory holds. *)
Lemma embed_miss_calls_provider (text : string) (st : Embedder.state) :
  0 < batch_size ->
  Embedder._cache st !! _cache_key text = None ->
  exists k : nat,
    (1 <= k <= 3)%nat
    /\ Embedder.provider_calls (snd (embed text st))
       = (Embedder.provider_calls st
            ++ List.repeat [Embedder._truncate_text text 8000] k)%list.
Proof.
  intros Hb Hmiss. unfold Embedder.embed, bind at 1, get_state. rewrite Hmiss.
  unfold bind at 1.
  destruct (embed_batch_single_calls text st Hb) as (k & r & Hk & ->).
  exists k. split; [exact Hk|].
  destruct r as [[|e embs]|err]; reflexivity.
Qed.

(** After a restart the cache files are not consulted: the first [embed]
    of any text goes to the provider. *)
Lemma embed_after_init_calls_provider (api_key text : string)
  (st st' : Embedder.state) :
  0 < batch_size ->
  Embedder.__init__ api_key st = (Ok tt, st') ->
  exists k : nat,
    (1 <= k <= 3)%nat
    /\ Embedder.provider_calls (snd (embed text st'))
       = (Embedder.provider_calls st
            ++ List.repeat [Embedder._truncate_text text 8000] k)%list.
Proof.
  intros Hb Hinit.
  assert (Hc : Embedder._cache st' = ∅
               /\ Embedder.provider_calls st' = Embedder.provider_calls st).
  { revert Hinit.
    unfold Embedder.__init__, Embedder._load_cache, bind, get_state, put_state,
      ret, raise.
    destruct (negb (PyStr.truthy api_key)); [discriminate|]. simpl.
    destruct (Embedder.disk st !! "cache_index.json"); intros [= <-]; auto. }
  destruct Hc as [Hc Hp]. rewrite <- Hp.
  apply embed_miss_calls_provider; [exact Hb|].
  rewrite Hc. apply lookup_empty.
Qed.

(** Within one instance, a text that was embedded is answered from the
    cache afterwards: same vector, no request, no change of state. *)
Lemma embed_twice_same_instance (text : string) (st st1 : Embedder.state)
  (e : Embedder.embedding) :
  embed text st = (Ok e, st1) ->
  embed text st1 = (Ok e, st1).
Proof.
  intros H. apply embed_cached_no_provider_call.
  revert H. unfold Embedder.embed, bind at 1, get_state.
  destruct (Embedder._cache st !! _cache_key text) as [e0|] eqn:E.
  - unfold ret. intros [= <- <-]. exact E.
  - unfold bind at 1.
    destruct (Embedder._embed_batch _ _ _ _) as [[[|e1 embs]|err] s1];
      try discriminate.
    unfold bind, Embedder.cache_store, Embedder._save_cache_entry, get_state,
      put_state, ret. simpl. intros [= <- <-]. simpl.
    apply lookup_insert_eq.
Qed.

End EmbedderFacts.

(** C4, at the failing input: ["hello"] is embedded once, which writes its
    cache file; a new instance over the same directory embeds it again, and
    the provider receives a second request although the file is there. *)
Lemma embed_after_restart_calls_provider :
  let run := Scenario.demo_embed "hello" ;;;
             Embedder.__init__ "sk-key" ;;;
             Scenario.demo_embed "hello" in
  let st := snd (run Scenario.fresh_embedder) in
  Embedder.disk st !! "hello.json" = Some Scenario.demo_vector
  /\ Embedder.provider_calls st = [["hello"]; ["hello"]].
Proof.
  vm_compute. split; reflexivity.
Qed.

(* ===================================================================== *)
(** * Properties of the query engine *)
(* ===================================================================== *)

Local Open Scope list_scope.

Section MergeFacts.

Import Engine EngineAux.





(** The merge only appends. *)
Lemma merge_appends l : forall results seen_ids,
  exists extra,
    fst (List.fold_left add_unseen l (results, seen_ids)) = results ++ extra
    /\ forall x, List.In x extra -> List.In x l.
Proof.
  induction l as [|a l IH]; intros results seen_ids; simpl.
  - exists []. rewrite List.app_nil_r. split; [reflexivity | intros x []].
  - destruct (decide (hit_id a ∈ seen_ids)).
    + destruct (IH results seen_ids) as (extra & E & Hx).
      exists extra. split; [exact E | auto].
    + destruct (IH (results ++ [a]) (seen_ids ∪ {[hit_id a]})) as (extra & E & Hx).
      exists (a :: extra). rewrite E, <- List.app_assoc. simpl.
      split; [reflexivity | intros x [<-|Hin]; auto].
Qed.




(** *** The sort *)





(** *** The final slice *)

Lemma py_prefix_is_prefix {A} (k : Z) (l : list A) :
  exists rest, l = py_prefix k l ++ rest.
Proof.
  unfold py_prefix. destruct (k <? 0);
    eexists; symmetry; apply List.firstn_skipn.
Qed.

Lemma py_prefix_length {A} (k : Z) (l : list A) :
  0 <= k -> Z.of_nat (List.length (py_prefix k l)) <= k.
Proof.
  intros Hk. unfold py_prefix.
  destruct (k <? 0) eqn:E; [apply Z.ltb_lt in E; lia|].
  rewrite List.length_firstn. lia.
Qed.

Lemma sorted_prefix (l1 l2 : list hit) :
  StronglySorted score_ge (l1 ++ l2) -> StronglySorted score_ge l1.
Proof.
  induction l1 as [|x l1 IH]; simpl; intros H; [constructor|].
  inversion H as [|? ? Hs Hall]; subst. constructor; [auto|].
  apply List.Forall_app in Hall. tauto.
Qed.


End MergeFacts.

Section ScoreFacts.

Import Engine.



End ScoreFacts.



Section SearchFacts.

Import Engine EngineAux.

Variable kg_search_content :
  option string -> option string -> option string -> option string ->
  option KG.datetime -> option KG.datetime -> Z -> outcome (list KG.content_row).
Variable embedder_embed : string -> outcome embedding.
Variable vs_list_collections : outcome (list string).
Variable vs_search : string -> embedding -> Z -> outcome coll_results.

Local Abbreviation merged :=
  (search_merged kg_search_content embedder_embed vs_list_collections vs_search).
Local Abbreviation semantic :=
  (_semantic_search embedder_embed vs_list_collections vs_search).
Local Abbreviation keyword := (_keyword_search kg_search_content).
Local Abbreviation semantic_part :=
  (EngineAux.semantic_part embedder_embed vs_list_collections vs_search).


Lemma merged_unfold query content_types sources since until top_k use_semantic use_keyword :
  merged query content_types sources since until top_k use_semantic use_keyword
  = fst (if use_keyword
         then match keyword query content_types sources since until (top_k * 2) with
              | Ok keyword_results =>
                  List.fold_left add_unseen keyword_results
                    (semantic_part query content_types top_k use_semantic)
              | Raise _ => semantic_part query content_types top_k use_semantic
              end
         else semantic_part query content_types top_k use_semantic).
Proof. reflexivity. Qed.


(** The merged list is the semantic part followed by keyword hits. *)
Lemma merged_semantic_first query content_types sources since until top_k
  use_semantic use_keyword :
  exists keyword_part,
    merged query content_types sources since until top_k use_semantic use_keyword
    = fst (semantic_part query content_types top_k use_semantic) ++ keyword_part
    /\ List.Forall (fun h => hit_search_type h = Keyword) keyword_part.
Proof.
  rewrite merged_unfold.
  destruct use_keyword;
    [|exists []; rewrite List.app_nil_r; split; [reflexivity | constructor]].
  destruct (keyword _ _ _ _ _ _) as [kws|e] eqn:E;
    [|exists []; rewrite List.app_nil_r; split; [reflexivity | constructor]].
  destruct (semantic_part query content_types top_k use_semantic) as [r s].
  destruct (merge_appends kws r s) as (extra & -> & Hx).
  exists extra. split; [reflexivity|].
  apply List.Forall_forall. intros x Hin. apply Hx in Hin.
  unfold _keyword_search in E.
  destruct (match given_list content_types with
            | Some cts => _ | None => _ end); [|discriminate].
  injection E as <-. apply List.in_map_iff in Hin.
  destruct Hin as (row & <- & _). reflexivity.
Qed.


End SearchFacts.

Section SemanticTag.

Import Engine.

Variable embedder_embed : string -> outcome embedding.
Variable vs_list_collections : outcome (list string).
Variable vs_search : string -> embedding -> Z -> outcome coll_results.



End SemanticTag.




(** C10. [sources], [since] and [until] reach the keyword branch only. The
    merged list is the semantic part, which is computed from the query, the
    content types and [top_k] alone, followed by keyword hits; so a search
    without the keyword branch returns the same list whatever the three
    filters are. In the engine over [Scenario.notes_db], a search restricted
    to source [gmail] and to the year 2024 returns the semantic hit for the
    note [b], whose source is [slack] and whose timestamp is in 2020. *)
Theorem semantic_branch_unfiltered :
  (forall (kg_search_content :
             option string -> option string -> option string -> option string ->
             option KG.datetime -> option KG.datetime -> Z ->
             outcome (list KG.content_row))
          (embedder_embed : string -> outcome Engine.embedding)
          (vs_list_collections : outcome (list string))
          (vs_search : string -> Engine.embedding -> Z -> outcome Engine.coll_results)
          (query : string) (content_types sources : option (list string))
          (since until : option KG.datetime) (top_k : Z)
          (use_semantic use_keyword : bool),
      (exists keyword_part,
          Engine.search_merged kg_search_content embedder_embed vs_list_collections
            vs_search query content_types sources since until top_k
            use_semantic use_keyword
          = (fst (EngineAux.semantic_part embedder_embed vs_list_collections
                    vs_search query content_types top_k use_semantic)
             ++ keyword_part)%list
          /\ List.Forall (fun h => Engine.hit_search_type h = Engine.Keyword)
                         keyword_part)
      /\ Engine.search kg_search_content embedder_embed vs_list_collections
           vs_search query content_types sources since until top_k
           use_semantic false
         = Engine.search kg_search_content embedder_embed vs_list_collections
             vs_search query content_types None None None top_k
             use_semantic false)
  /\ (Scenario.q_search "budget" None (Some ["gmail"])
        (Some "2024-01-01T00:00:00") (Some "2024-12-31T23:59:59") 10 true true
      = [Scenario.hit_a; Scenario.hit_b]
      /\ KG.select_content Scenario.notes_db (Engine.hit_id Scenario.hit_b)
         = Some Scenario.note_b
      /\ ~ List.In (KG.c_source Scenario.note_b) ["gmail"]
      /\ KG.col_ge (KG.c_timestamp Scenario.note_b) "2024-01-01T00:00:00" = false).
Proof.
  split.
  - intros kg emb lc vs query cts sources since until top_k us uk. split.
    + apply merged_semantic_first.
    + reflexivity.
  - split; [vm_compute; reflexivity|].
    split; [reflexivity|].
    split; [|reflexivity].
    simpl. intros [H|[]]. discriminate H.
Qed.

(* ===================================================================== *)
(** * Properties of the Gmail indexer *)
(* ===================================================================== *)

Section KeysFacts.

Import Gmail GmailAux.

Lemma keeps_ret {A} (a : A) : keeps_keys (ret a).
Proof. intros st r st' [= _ <-]. reflexivity. Qed.

Lemma keeps_raise {A} (e : exn) : keeps_keys (@raise run_state A e).
Proof. intros st r st' [= _ <-]. reflexivity. Qed.

Lemma keeps_get : keeps_keys (@get_state run_state).
Proof. intros st r st' [= _ <-]. reflexivity. Qed.

Lemma keeps_bind {A B} (c : M run_state A) (k : A -> M run_state B) :
  keeps_keys c -> (forall a, keeps_keys (k a)) -> keeps_keys (bind c k).
Proof.
  intros Hc Hk st r st'. unfold bind.
  destruct (c st) as [[a|e] s1] eqn:E; intros H.
  - rewrite (Hk a _ _ _ H). eapply Hc, E.
  - injection H as _ <-. eapply Hc, E.
Qed.

Lemma keeps_try {A} (c : M run_state A) (h : exn -> M run_state A) :
  keeps_keys c -> (forall e, keeps_keys (h e)) -> keeps_keys (try_except c h).
Proof.
  intros Hc Hh st r st'. unfold try_except.
  destruct (c st) as [[a|e] s1] eqn:E; intros H.
  - injection H as _ <-. eapply Hc, E.
  - rewrite (Hh e _ _ _ H). eapply Hc, E.
Qed.

Lemma keeps_on_kg {A} (c : M KG.db A) : keeps_keys (on_kg c).
Proof.
  intros st r st'. unfold on_kg. destruct (c (kg st)). intros [= _ <-].
  reflexivity.
Qed.

Lemma keeps_incr key : keeps_keys (incr key).
Proof.
  intros st r st'. unfold incr.
  destruct (stats st !! key) eqn:E; intros [= _ <-]; [|reflexivity].
  simpl. rewrite dom_insert_L.
  assert (Hkey : key ∈ dom (stats st)) by (apply elem_of_dom; eauto).
  apply set_eq. intros x. rewrite elem_of_union, elem_of_singleton.
  split; [intros [->|Hx]; assumption | auto].
Qed.

Lemma keeps_read key : keeps_keys (read key).
Proof.
  intros st r st'. unfold read.
  destruct (stats st !! key); intros [= _ <-]; reflexivity.
Qed.

Lemma incr_ok key st :
  key ∈ dom (stats st) -> exists st', incr key st = (Ok tt, st').
Proof.
  intros H. apply elem_of_dom in H. destruct H as [v Hv].
  unfold incr. rewrite Hv. eauto.
Qed.

Lemma read_ok key st :
  key ∈ dom (stats st) -> exists v, read key st = (Ok v, st).
Proof.
  intros H. apply elem_of_dom in H. destruct H as [v Hv].
  unfold read. rewrite Hv. eauto.
Qed.

Lemma full_stats_keys : dom full_stats = full_keys.
Proof.
  unfold full_stats, full_keys. rewrite !dom_insert_L, dom_singleton_L. set_solver.
Qed.

Variable message : Type.
Variable GOOGLE_ACCOUNTS : list string.
Variable SYNC_BATCH_SIZE : Z.
Variable GmailClient : string -> outcome unit.
Variable list_messages : string -> string -> Z -> option string -> outcome list_response.
Variable get_message : string -> string -> outcome (option message).
Variable get_profile : string -> outcome (option string).
Variable list_history : string -> string -> outcome history_response.
Variable parse_message : message -> outcome parsed_message.
Variable findall_named : string -> list (string * string).
Variable findall_plain : string -> list string.
Variable now : KG.sqltime.
Variable utcnow : KG.datetime.

Lemma keeps_call {A} (r : outcome A) : keeps_keys (call r).
Proof. intros st r0 st' [= _ <-]. reflexivity. Qed.

Create HintDb keys.
#[local] Hint Resolve keeps_ret keeps_raise keeps_get keeps_on_kg keeps_incr
  keeps_read keeps_call : keys.

(** Walks through the binds, handlers and case distinctions of a
    computation; what is left are the calls of other functions. *)
Ltac keys :=
  lazymatch goal with
  | |- keeps_keys (bind _ _) => apply keeps_bind; [keys | intros ?; keys]
  | |- keeps_keys (try_except _ _) => apply keeps_try; [keys | intros ?; keys]
  | |- keeps_keys (match ?x with _ => _ end) => destruct x; keys
  | |- _ => try solve [auto with keys]
  end.

Lemma keeps_index_people account content_id people :
  keeps_keys (index_people now account content_id people).
Proof.
  induction people as [|p rest IH]; simpl; keys.
Qed.
#[local] Hint Resolve keeps_index_people : keys.

Lemma keeps_index_message account msg :
  keeps_keys (_index_message message parse_message findall_named findall_plain now
                             account msg).
Proof.
  unfold _index_message. keys.
Qed.
#[local] Hint Resolve keeps_index_message : keys.

Lemma keeps_index_page account msg_ids :
  keeps_keys (index_page message get_message parse_message findall_named findall_plain
                         now account msg_ids).
Proof.
  induction msg_ids as [|m rest IH]; simpl; keys.
Qed.
#[local] Hint Resolve keeps_index_page : keys.

Lemma keeps_index_all_loop fuel : forall account query max_messages page_token,
  keeps_keys (index_all_loop message SYNC_BATCH_SIZE list_messages get_message
                parse_message findall_named findall_plain now
                fuel account query max_messages page_token).
Proof.
  induction fuel as [|fuel IH]; intros account query max_messages page_token;
    simpl; keys.
Qed.

Lemma try_incr_errors_ok (c : M run_state unit) (st : run_state) :
  keeps_keys c ->
  "errors" ∈ dom (stats st) ->
  exists st',
    try_except c (fun _ => incr "errors") st = (Ok tt, st')
    /\ dom (stats st') = dom (stats st).
Proof.
  intros Hc He. unfold try_except.
  destruct (c st) as [[[]|e] s1] eqn:E.
  - exists s1. split; [reflexivity | eapply Hc, E].
  - pose proof (Hc _ _ _ E) as Hd.
    destruct (incr_ok "errors" s1) as (s2 & E2); [rewrite Hd; exact He|].
    exists s2. split; [exact E2|].
    rewrite (keeps_incr _ _ _ _ E2). exact Hd.
Qed.

(** [index_page] never raises once [stats] has the key ["errors"]. *)
Lemma index_page_ok account msg_ids : forall st,
  "errors" ∈ dom (stats st) ->
  exists st',
    index_page message get_message parse_message findall_named findall_plain now
               account msg_ids st = (Ok tt, st').
Proof.
  induction msg_ids as [|m rest IH]; intros st He; simpl; [unfold ret; eauto|].
  unfold bind at 1.
  match goal with
  | |- context [try_except ?c _ st] =>
      destruct (try_incr_errors_ok c st) as (s1 & E & Hd); [|exact He|]
  end.
  - keys.
  - rewrite E. apply IH. rewrite Hd. exact He.
Qed.

(** With a listing that ends within [fuel] requests, the loop of
    [index_all] finishes, without raising. *)
Lemma index_all_loop_ok fuel : forall account query max_messages page_token st,
  listing_ends list_messages fuel account query page_token ->
  dom (stats st) = full_keys ->
  exists st',
    index_all_loop message SYNC_BATCH_SIZE list_messages get_message parse_message
      findall_named findall_plain now fuel account query max_messages page_token st
    = (Ok true, st').
Proof.
  induction fuel as [|fuel IH]; intros account query max_messages page_token st
    Hend Hd; [destruct Hend|].
  simpl. unfold bind at 1.
  destruct (read_ok "messages_processed" st) as (processed & ->);
    [rewrite Hd; unfold full_keys; set_solver|].
  destruct (processed <? max_messages); [|unfold ret; eauto].
  assert (He : "errors" ∈ dom (stats st))
    by (rewrite Hd; unfold full_keys; set_solver).
  unfold bind at 1. unfold try_except, bind at 1, call.
  specialize (Hend (Z.min SYNC_BATCH_SIZE (max_messages - processed))).
  destruct (list_messages account query
              (Z.min SYNC_BATCH_SIZE (max_messages - processed)) page_token)
    as [response|e].
  - destruct (messages response) as [msg_ids|]; [|unfold ret; eauto].
    unfold bind at 1.
    destruct (index_page_ok account msg_ids st He) as (s1 & E).
    rewrite E.
    destruct (KG.given (nextPageToken response)) as [token|];
      [|unfold ret; eauto].
    unfold ret at 1. apply IH; [exact Hend|].
    rewrite (keeps_index_page _ _ _ _ _ E). exact Hd.
  - unfold bind. destruct (incr_ok "errors" st He) as (s1 & ->).
    unfold ret; eauto.
Qed.

Local Abbreviation index_all :=
  (Gmail.index_all message GOOGLE_ACCOUNTS SYNC_BATCH_SIZE GmailClient list_messages
     get_message get_profile parse_message findall_named findall_plain now utcnow).
Local Abbreviation index_delta :=
  (Gmail.index_delta message GOOGLE_ACCOUNTS SYNC_BATCH_SIZE GmailClient list_messages
     get_message get_profile list_history parse_message findall_named
     findall_plain now utcnow).

Lemma get_last_sync_reads source account d :
  snd (KG.get_last_sync source account d) = d
  /\ exists row, fst (KG.get_last_sync source account d) = Ok row.
Proof.
  unfold KG.get_last_sync, KG._connection, bind, get_state, ret. simpl. eauto.
Qed.

(** Without a stored token, [index_delta] is [index_all(account)]. *)
Lemma index_delta_is_index_all fuel account st :
  List.In account GOOGLE_ACCOUNTS ->
  no_sync_token (kg st) account ->
  index_delta fuel account st = index_all fuel account 10000 None st.
Proof.
  intros Hacc Htok.
  assert (Hb : negb (bool_decide (account ∈ GOOGLE_ACCOUNTS)) = false).
  { rewrite bool_decide_eq_true_2; [reflexivity | apply list_elem_of_In, Hacc]. }
  unfold Gmail.index_delta. rewrite Hb.
  unfold bind at 1. unfold call at 1.
  destruct (GmailClient account) as [[]|e] eqn:Ec.
  - unfold bind at 1. unfold new_stats at 1.
    unfold bind at 1. unfold on_kg at 1. cbn [kg stats].
    unfold no_sync_token in Htok.
    destruct (get_last_sync_reads "gmail" account (kg st)) as (Hs & row & Hr).
    destruct (KG.get_last_sync "gmail" account (kg st)) as [r d] eqn:E.
    simpl in Hs, Hr, Htok. subst r d.
    assert (Hnone : match row with
                    | Some r => KG.given (KG.s_last_sync_token r)
                    | None => None
                    end = None) by (destruct row; auto).
    rewrite Hnone.
    unfold Gmail.index_all. rewrite Hb.
    unfold bind at 1 3. unfold call at 1 3. rewrite Ec.
    unfold bind at 1 3. unfold new_stats at 1 2. cbn [kg stats].
    reflexivity.
  - unfold Gmail.index_all. rewrite Hb. unfold bind at 1. unfold call at 1.
    rewrite Ec. reflexivity.
Qed.

(** The statistics returned by [index_all] have the keys of a full run. *)
Lemma index_all_full_keys fuel account max_messages labels st s st' :
  index_all fuel account max_messages labels st = (Ok (Some s), st') ->
  dom s = full_keys.
Proof.
  unfold Gmail.index_all.
  destruct (negb (bool_decide (account ∈ GOOGLE_ACCOUNTS))); [discriminate|].
  unfold bind at 1. unfold call at 1.
  destruct (GmailClient account) as [[]|e]; [|discriminate].
  unfold bind at 1. unfold new_stats at 1.
  unfold bind at 1.
  match goal with
  | |- context [index_all_loop ?m ?a ?b ?c ?d ?e ?f ?g ?h ?i ?j ?k ?l ?st0] =>
      pose proof (keeps_index_all_loop h i j k l st0) as Hk;
      destruct (index_all_loop m a b c d e f g h i j k l st0) as [[[]|] s1] eqn:E;
      [specialize (Hk _ _ eq_refl); cbn [stats] in Hk | discriminate | discriminate]
  end.
  unfold bind at 1. unfold call at 1.
  destruct (get_profile account) as [history_id|]; [|discriminate].
  unfold bind, get_state, on_kg, ret.
  destruct (KG.set_last_sync _ _ _ _ _ _) as [[u|e] d]; [|discriminate].
  cbn [stats]. intros [= <- _]. rewrite Hk. apply full_stats_keys.
Qed.

(** With a listing that ends, a client that can be built and a profile that
    can be read, [index_all] returns its statistics. *)
Lemma index_all_returns fuel account max_messages st history_id :
  List.In account GOOGLE_ACCOUNTS ->
  GmailClient account = Ok tt ->
  get_profile account = Ok history_id ->
  listing_ends list_messages fuel account "" None ->
  exists s st', index_all fuel account max_messages None st = (Ok (Some s), st').
Proof.
  intros Hacc Hc Hp Hend.
  unfold Gmail.index_all.
  rewrite bool_decide_eq_true_2 by (apply list_elem_of_In, Hacc).
  cbn [negb]. unfold bind at 1. unfold call at 1. rewrite Hc.
  unfold bind at 1. unfold new_stats at 1.
  unfold bind at 1. cbn [Engine.given_list].
  destruct (index_all_loop_ok fuel account "" max_messages None
              (mk_run (kg st) full_stats) Hend full_stats_keys) as (s1 & ->).
  unfold bind at 1. unfold call at 1. rewrite Hp.
  unfold bind, get_state, on_kg, ret.
  destruct (KG.set_last_sync _ _ _ _ _ _) as [[u|e] d] eqn:E.
  - eauto.
  - unfold KG.set_last_sync, KG._connection, bind, get_state, put_state, ret in E.
    discriminate.
Qed.

End KeysFacts.

(** C5. For an account of [GOOGLE_ACCOUNTS] with no SyncState row, or with
    a row whose token is missing, [index_delta] is [index_all(account)]: the
    same result and the same effects. Whatever statistics it returns have
    exactly the four keys of a full run, and neither [messages_added] nor
    [messages_deleted]. It does return them when the client can be built,
    the profile can be read and the listing ends within [fuel] requests. *)
Theorem index_delta_falls_back_to_full :
  forall (message : Type) (GOOGLE_ACCOUNTS : list string) (SYNC_BATCH_SIZE : Z)
         (GmailClient : string -> outcome unit)
         (list_messages :
            string -> string -> Z -> option string -> outcome Gmail.list_response)
         (get_message : string -> string -> outcome (option message))
         (get_profile : string -> outcome (option string))
         (list_history : string -> string -> outcome Gmail.history_response)
         (parse_message : message -> outcome Gmail.parsed_message)
         (findall_named : string -> list (string * string))
         (findall_plain : string -> list string)
         (now : KG.sqltime) (utcnow : KG.datetime)
         (fuel : nat) (account : string) (st : Gmail.run_state),
    let index_delta :=
      Gmail.index_delta message GOOGLE_ACCOUNTS SYNC_BATCH_SIZE GmailClient list_messages
        get_message get_profile list_history parse_message findall_named
        findall_plain now utcnow in
    let index_all :=
      Gmail.index_all message GOOGLE_ACCOUNTS SYNC_BATCH_SIZE GmailClient list_messages
        get_message get_profile parse_message findall_named findall_plain
        now utcnow in
    List.In account GOOGLE_ACCOUNTS ->
    GmailAux.no_sync_token (Gmail.kg st) account ->
    index_delta fuel account st = index_all fuel account 10000 None st
    /\ (forall s st',
          index_delta fuel account st = (Ok (Some s), st') ->
          dom s = GmailAux.full_keys
          /\ ("messages_added" ∉ dom s) /\ ("messages_deleted" ∉ dom s))
    /\ (forall history_id,
          GmailClient account = Ok tt ->
          get_profile account = Ok history_id ->
          GmailAux.listing_ends list_messages fuel account "" None ->
          exists s st',
            index_delta fuel account st = (Ok (Some s), st')
            /\ dom s = GmailAux.full_keys).
Proof.
  intros message GOOGLE_ACCOUNTS SYNC_BATCH_SIZE GmailClient list_messages
    get_message get_profile list_history parse_message findall_named
    findall_plain now utcnow fuel account st index_delta index_all Hacc Htok.
  assert (E : index_delta fuel account st = index_all fuel account 10000 None st)
    by (apply index_delta_is_index_all; assumption).
  split; [exact E|]. split.
  - intros s st' H. rewrite E in H.
    apply index_all_full_keys in H. rewrite H.
    unfold GmailAux.full_keys.
    split; [reflexivity|].
    split; rewrite !elem_of_union, !elem_of_singleton; intuition discriminate.
  - intros history_id Hc Hp Hend. rewrite E.
    destruct (index_all_returns message GOOGLE_ACCOUNTS SYNC_BATCH_SIZE GmailClient
                list_messages get_message get_profile parse_message findall_named
                findall_plain now utcnow fuel account 10000 st history_id
                Hacc Hc Hp Hend) as (s & st' & H).
    exists s, st'. split; [exact H|].
    eapply index_all_full_keys, H.
Qed.

Lemma index_delta_falls_back_to_full_witness :
  exists s st',
    Scenario.g_index_delta 1%nat "acct" Scenario.g_start = (Ok (Some s), st')
    /\ dom s = GmailAux.full_keys.
Proof.
  refine (proj2 (proj2
    (index_delta_falls_back_to_full Gmail.parsed_message Scenario.g_accounts 100
       Scenario.g_client Scenario.g_list_messages Scenario.g_get_message
       Scenario.g_get_profile Scenario.g_list_history Scenario.g_parse_message
       Scenario.g_findall_named Scenario.g_findall_plain Scenario.t0
       "2024-01-02T00:00:00+00:00" 1%nat "acct" Scenario.g_start _ _))
    (Some "h100") eq_refl eq_refl _).
  - simpl. auto.
  - exact I.
  - simpl. intros max_results. exact I.
Defined.

(** Scenario D, run: the statistics of the fallback on the one-message
    mailbox. *)
Lemma scenario_d_stats :
  match fst (Scenario.g_index_delta 1%nat "acct" Scenario.g_start) with
  | Ok (Some s) =>
      s !! "messages_processed" = Some 1 /\ s !! "messages_indexed" = Some 1
      /\ s !! "people_extracted" = Some 2 /\ s !! "errors" = Some 0
      /\ s !! "messages_added" = None
  | _ => False
  end.
Proof.
  vm_compute. repeat split.
Qed.

(* ===================================================================== *)
(** * Worked examples *)
(* ===================================================================== *)

Example lower_example : PyStr.lower "Quarterly REPORT" = "quarterly report".
Proof. reflexivity. Qed.

Example count_example :
  PyStr.count "aaa" "aa" = 1 /\ PyStr.count "abcabc" "bc" = 2
  /\ PyStr.count "abc" "" = 4.
Proof. repeat split. Qed.

Example rsplit_example :
  PyStr.rsplit1_head ":chunk:" "gmail:a:1:chunk:12" = Some "gmail:a:1"
  /\ PyStr.rsplit1_head ":chunk:" "gmail:a:1" = None
  /\ PyStr.rsplit1_head ":chunk:" "x:chunk:y:chunk:3" = Some "x:chunk:y".
Proof. repeat split. Qed.

Example like_example :
  KG.like "%a%b_" "xxAyyBz" = true /\ KG.like "%a%b_" "xxAyyB" = false
  /\ KG.like "%" "" = true /\ KG.like "_" "" = false.
Proof. repeat split. Qed.

(** Four sentences of eight characters, chunks of at most 30 characters with
    an overlap of 10: the second chunk starts with the last sentence of the
    first one. *)
Example chunk_example :
  Chunker.chunk 30 10 5
    (fun _ => ["Aaa bbb."; "Ccc ddd."; "Eee fff."; "Ggg hhh."])
    "Aaa bbb. Ccc ddd. Eee fff. Ggg hhh." None
  = [Chunker.mk_chunk "Aaa bbb. Ccc ddd. Eee fff." 0 26 0 None;
     Chunker.mk_chunk "Eee fff. Ggg hhh." 19 36 1 None].
Proof. reflexivity. Qed.

(** Scenario A: the substring search ignores letter case. *)
Example search_content_example :
  fst (KG.search_content (Some "hello") None None None None None 100
         Scenario.hello_db)
  = Ok [Scenario.mail_3; Scenario.mail_1; Scenario.file_2]
  /\ fst (KG.search_content (Some "hello") (Some "email") None None
            (Some "2024-01-02T00:00:00") (Some "2024-01-02T00:00:00") 100
            Scenario.hello_db)
     = Ok [Scenario.mail_1].
Proof. split; reflexivity. Qed.

(** Scenario B: the token written by [set_last_sync] is read back. *)
Example sync_state_example :
  fst (KG.get_last_sync "gmail" "acct"
         (snd (KG.set_last_sync "gmail" "acct" "2024-01-01T00:00:00+00:00"
                 (Some "tok1") None KG.empty_db)))
  = Ok (Some (KG.mk_sync_state "gmail" "acct" (Some "2024-01-01T00:00:00+00:00")
                               (Some "tok1") None)).
Proof. reflexivity. Qed.

(** Deleting an absent id returns [False]; deleting a stored one returns
    [True] and the row is gone. *)
Example delete_example :
  fst (KG.delete_content Scenario.t1 "nope" Scenario.abc_db) = Ok false
  /\ fst (KG.delete_content Scenario.t1 "c1" Scenario.abc_db) = Ok true
  /\ fst (KG.get_content "c1"
            (snd (KG.delete_content Scenario.t1 "c1" Scenario.abc_db)))
     = Ok None.
Proof. repeat split. Qed.

(** The keyword scores of the note [b] for the query [budget]: one hit in
    the title and one in the body. *)
Example keyword_score_example :
  Engine.keyword_score "budget" (Some "Budget plan") (Some "the budget")
  = (inject_Z 4 * (1 # 10))%Q
  /\ Engine.keyword_score "a" (Some "aaa") (Some "aaaaaaaa") = (8 # 10)%Q.
Proof. split; reflexivity. Qed.

(* ===================================================================== *)
(** * Further properties of the storage layer *)
(* ===================================================================== *)

Section KGInvariant.

Import KG KGInv.

Local Open Scope list_scope.

Lemma is_entity_id_in d id :
  is_entity_id d id = true <-> List.In id (List.map e_id (entities d)).
Proof.
  unfold is_entity_id. rewrite List.existsb_exists, List.in_map_iff.
  split; intros (r & H1 & H2).
  - apply String.eqb_eq in H2. eauto.
  - exists r. split; [exact H2 | apply String.eqb_eq, H1].
Qed.

Lemma find_none_not_in {A} (key : A -> string) (id : string) (l : list A) :
  List.find (fun r => String.eqb (key r) id) l = None ->
  ~ List.In id (List.map key l).
Proof.
  induction l as [|x l IH]; simpl; [tauto|].
  destruct (String.eqb (key x) id) eqn:E; [discriminate|].
  intros Hn [Hx|Hin]; [|exact (IH Hn Hin)].
  apply String.eqb_neq in E. contradiction.
Qed.

Lemma map_key_replace {A K} (key : A -> K) (p : A -> bool) (f : A -> A) (l : list A) :
  (forall r, key (f r) = key r) ->
  List.map key (List.map (fun r => if p r then f r else r) l) = List.map key l.
Proof.
  intros Hf. rewrite List.map_map. apply List.map_ext.
  intros r. destruct (p r); auto.
Qed.

Lemma nodup_map_filter {A K} (key : A -> K) (p : A -> bool) (l : list A) :
  List.NoDup (List.map key l) -> List.NoDup (List.map key (List.filter p l)).
Proof.
  induction l as [|x l IH]; simpl; intros H; [constructor|].
  inversion H as [|? ? Hn Hd]; subst.
  destruct (p x); simpl; [constructor|]; auto.
  intros Hin. apply Hn. apply List.in_map_iff in Hin.
  destruct Hin as (y & Ey & Hy). apply List.filter_In in Hy.
  apply List.in_map_iff. exists y. tauto.
Qed.

Lemma nodup_map_snoc {A K} (key : A -> K) (l : list A) (x : A) :
  List.NoDup (List.map key l) -> ~ List.In (key x) (List.map key l) ->
  List.NoDup (List.map key (l ++ [x])).
Proof.
  intros Hd Hn. rewrite List.map_app. simpl.
  apply List.NoDup_app; [exact Hd | repeat constructor; simpl; tauto|].
  intros k Hk [<-|[]]. exact (Hn Hk).
Qed.

Lemma log_ids_snoc (l : list changelog_row) (x : changelog_row) :
  List.map l_rowid l = List.map Z.of_nat (List.seq 1 (List.length l)) ->
  l_rowid x = Z.of_nat (List.length l) + 1 ->
  List.map l_rowid (l ++ [x])
  = List.map Z.of_nat (List.seq 1 (List.length (l ++ [x]))).
Proof.
  intros Hl Hx. rewrite List.length_app, List.map_app. simpl List.length.
  rewrite List.seq_app, List.map_app, Hl. simpl. rewrite Hx.
  do 2 f_equal. lia.
Qed.

Lemma existsb_same_edge_in from_id to_id relation l :
  List.existsb (same_edge from_id to_id relation) l = false ->
  ~ List.In (from_id, to_id, relation) (List.map edge_key l).
Proof.
  intros He Hin. apply List.in_map_iff in Hin. destruct Hin as (r & Er & Hr).
  assert (Ht : List.existsb (same_edge from_id to_id relation) l = true).
  { apply List.existsb_exists. exists r. split; [exact Hr|].
    unfold edge_key in Er. injection Er as <- <- <-.
    unfold same_edge. rewrite !String.eqb_refl. reflexivity. }
  congruence.
Qed.

Lemma filter_negb_id {A} (p : A -> bool) (l : list A) :
  List.length (List.filter p l) = 0%nat ->
  List.filter (fun r => negb (p r)) l = l.
Proof.
  induction l as [|x l IH]; simpl; [reflexivity|].
  destruct (p x); simpl; [discriminate|]. intros H. rewrite IH by exact H.
  reflexivity.
Qed.

Lemma upsert_entity_wf now i t n s sa e m d :
  well_formed d -> well_formed (snd (upsert_entity now i t n s sa e m d)).
Proof.
  intros [He Hc Hs Hed Hfk (Hr1 & Hr0 & Hr2) Hl].
  unfold upsert_entity, _connection, bind, get_state, set_entities, _log_change,
    ret. simpl.
  destruct (select_entity d i) as [row|] eqn:E; simpl.
  - assert (Hids : List.map e_id
              (List.map (fun r => if String.eqb (e_id r) i
                                  then mk_entity (e_id r) t n e s sa (metadata_json m)
                                                 (e_created_at r) now
                                  else r) (entities d))
            = List.map e_id (entities d)).
    { rewrite List.map_map. apply List.map_ext. intros r.
      destruct (String.eqb (e_id r) i); reflexivity. }
    constructor; simpl; auto.
    + rewrite Hids. exact He.
    + intros r Hr. destruct (Hfk r Hr) as [H1 H2].
      rewrite is_entity_id_in in H1, H2 |- *. simpl. rewrite Hids.
      split; [exact H1|]. rewrite is_entity_id_in. simpl. rewrite Hids. exact H2.
    + apply log_ids_snoc; [exact Hl | reflexivity].
  - constructor; simpl; auto.
    + apply nodup_map_snoc; [exact He|]. apply find_none_not_in, E.
    + intros r Hr. destruct (Hfk r Hr) as [H1 H2].
      rewrite !is_entity_id_in in *. simpl. rewrite List.map_app.
      split; apply List.in_or_app; auto.
    + apply log_ids_snoc; [exact Hl | reflexivity].
Qed.

Lemma upsert_content_wf now i t s sa ti b si u ts m d :
  well_formed d -> well_formed (snd (upsert_content now i t s sa ti b si u ts m d)).
Proof.
  intros [He Hc Hs Hed Hfk (Hr1 & Hr0 & Hr2) Hl].
  unfold upsert_content, _connection, bind, get_state, set_content, _log_change,
    ret. simpl.
  destruct (select_content d i) as [row|] eqn:E; simpl.
  - constructor; simpl; auto.
    + rewrite List.map_map.
      erewrite List.map_ext; [exact Hc|].
      intros r. simpl. destruct (String.eqb (c_id r) i); reflexivity.
    + apply log_ids_snoc; [exact Hl | reflexivity].
  - constructor; simpl; auto.
    + apply nodup_map_snoc; [exact Hc|]. apply find_none_not_in, E.
    + apply log_ids_snoc; [exact Hl | reflexivity].
Qed.

Lemma add_relationship_wf now f ft t tty rel m d :
  well_formed d -> well_formed (snd (add_relationship now f ft t tty rel m d)).
Proof.
  intros Hwf. pose proof Hwf as [He Hc Hs Hed Hfk (Hr1 & Hr0 & Hr2) Hl].
  unfold add_relationship, _connection, try_except, bind, insert_relationship,
    ret, raise.
  destruct (is_entity_id d f) eqn:Ef; simpl; [|exact Hwf].
  destruct (is_entity_id d t) eqn:Et; simpl; [|exact Hwf].
  destruct (List.existsb _ _) eqn:Ex; simpl; [exact Hwf|].
  constructor; simpl; auto.
  - apply nodup_map_snoc; [exact Hed|].
    apply existsb_same_edge_in, Ex.
  - intros r Hr. apply List.in_app_or in Hr.
    destruct Hr as [Hr|[<-|[]]]; [apply (Hfk r Hr)|]. simpl.
    split; assumption.
  - split; [|split; [lia|]].
    + apply nodup_map_snoc; [exact Hr1|]. simpl.
      intros Hin. apply List.in_map_iff in Hin. destruct Hin as (r & Er & Hr).
      specialize (Hr2 r Hr). lia.
    + intros r Hr. apply List.in_app_or in Hr.
      destruct Hr as [Hr|[<-|[]]]; [specialize (Hr2 r Hr); lia|]. simpl. lia.
Qed.

Lemma delete_content_wf now i d :
  well_formed d -> well_formed (snd (delete_content now i d)).
Proof.
  intros [He Hc Hs Hed Hfk (Hr1 & Hr0 & Hr2) Hl].
  unfold delete_content, _connection, bind, get_state, set_content, _log_change,
    ret. simpl.
  destruct (0 <? _)%nat; simpl; constructor; simpl; auto;
    try (apply nodup_map_filter; exact Hc).
  apply log_ids_snoc; [exact Hl | reflexivity].
Qed.

Lemma delete_entity_wf now i d :
  well_formed d -> well_formed (snd (delete_entity now i d)).
Proof.
  intros [He Hc Hs Hed Hfk (Hr1 & Hr0 & Hr2) Hl].
  unfold delete_entity, _connection, bind, get_state, put_state, _log_change,
    ret. simpl.
  destruct (0 <? _)%nat eqn:E; simpl.
  - constructor; simpl; auto.
    + apply nodup_map_filter, He.
    + apply nodup_map_filter, Hed.
    + intros r Hr. apply List.filter_In in Hr. destruct Hr as [Hr Hne].
      apply negb_true_iff, orb_false_iff in Hne. destruct Hne as [N1 N2].
      destruct (Hfk r Hr) as [H1 H2].
      assert (Hkeep : forall x, String.eqb x i = false ->
                is_entity_id d x = true ->
                List.existsb (fun r0 => String.eqb (e_id r0) x)
                  (List.filter (fun r0 => negb (String.eqb (e_id r0) i))
                               (entities d)) = true).
      { intros x Hx Hin. unfold is_entity_id in Hin.
        apply List.existsb_exists in Hin. destruct Hin as (y & Hy & Ey).
        apply List.existsb_exists. exists y. split; [|exact Ey].
        apply List.filter_In. split; [exact Hy|].
        apply String.eqb_eq in Ey. subst x. rewrite Hx. reflexivity. }
      unfold is_entity_id at 1 2. simpl. split; apply Hkeep; assumption.
    + split; [apply nodup_map_filter, Hr1|]. split; [exact Hr0|].
      intros r Hr. apply List.filter_In in Hr. apply Hr2. tauto.
    + apply log_ids_snoc; [exact Hl | reflexivity].
  - apply Nat.ltb_ge in E.
    assert (E0 : List.length
                   (List.filter (fun r => String.eqb (e_id r) i) (entities d)) = 0%nat)
      by lia.
    rewrite (filter_negb_id _ _ E0).
    constructor; simpl; auto.
Qed.

Lemma set_last_sync_wf s a l t m d :
  well_formed d -> well_formed (snd (set_last_sync s a l t m d)).
Proof.
  intros [He Hc Hs Hed Hfk (Hr1 & Hr0 & Hr2) Hl].
  unfold set_last_sync, _connection, bind, get_state, put_state, ret. simpl.
  constructor; simpl; auto.
  destruct (List.existsb _ (sync_state d)) eqn:E.
  - rewrite List.map_map. erewrite List.map_ext_in; [exact Hs|].
    intros r _. simpl.
    destruct (String.eqb (s_source r) s && String.eqb (s_account r) a) eqn:Ek;
      [|reflexivity].
    apply andb_prop in Ek. destruct Ek as [E1 E2].
    apply String.eqb_eq in E1, E2. unfold sync_key. simpl. congruence.
  - apply nodup_map_snoc; [exact Hs|]. simpl.
    intros Hin. apply List.in_map_iff in Hin. destruct Hin as (r & Er & Hr).
    assert (Ht : List.existsb
                   (fun r => String.eqb (s_source r) s && String.eqb (s_account r) a)
                   (sync_state d) = true).
    { apply List.existsb_exists. exists r. split; [exact Hr|].
      unfold sync_key in Er. injection Er as -> ->.
      rewrite !String.eqb_refl. reflexivity. }
    congruence.
Qed.

Lemma run_write_wf now c d :
  well_formed d -> well_formed (Writes.run_write now c d).
Proof.
  destruct c; simpl; intros Hd;
    [ apply upsert_entity_wf | apply upsert_content_wf | apply add_relationship_wf
    | apply delete_content_wf | apply delete_entity_wf | apply set_last_sync_wf ];
    exact Hd.
Qed.

Lemma empty_db_wf : well_formed empty_db.
Proof.
  constructor; simpl.
  - constructor.
  - constructor.
  - constructor.
  - constructor.
  - intros r [].
  - split; [constructor | split; [lia | intros r []]].
  - reflexivity.
Qed.

End KGInvariant.

(** X1. The constraints of the schema hold in every database that is
    reached from the empty one by any sequence of write calls, at any clock
    readings: the ids of [entities], of [content] and the (source, account)
    pairs of [sync_state] are unique, no (from_id, to_id, relation) edge is
    stored twice, both ends of every edge are stored entities, the edge ids
    are distinct and positive, and the changelog ids are 1, 2, ... in
    order. *)
Theorem writes_keep_schema_constraints :
  forall calls : list (KG.sqltime * Writes.write_call),
    KGInv.well_formed
      (List.fold_left (fun d nc => Writes.run_write (fst nc) (snd nc) d)
                      calls KG.empty_db).
Proof.
  intros calls.
  assert (G : forall d, KGInv.well_formed d ->
                KGInv.well_formed
                  (List.fold_left (fun d nc => Writes.run_write (fst nc) (snd nc) d)
                                  calls d)).
  { induction calls as [|[now c] calls IH]; intros d Hd; simpl; [exact Hd|].
    apply IH, run_write_wf, Hd. }
  apply G, empty_db_wf.
Qed.

Section KGRoundTrips.

Import KG KGInv.

Local Open Scope list_scope.

Lemma db_eta (d : db) :
  mk_db (entities d) (content d) (relationships d) (rel_seq d) (changelog d)
        (sync_state d) = d.
Proof. destruct d; reflexivity. Qed.

Lemma existsb_false_filter {A} (p : A -> bool) (l : list A) :
  List.existsb p l = false -> List.filter p l = [].
Proof.
  induction l as [|x l IH]; simpl; [reflexivity|].
  destruct (p x); simpl; [discriminate | exact IH].
Qed.

Lemma find_filter_other {A} (key : A -> string) (i j : string) (l : list A) :
  i <> j ->
  List.find (fun r => String.eqb (key r) j)
            (List.filter (fun r => negb (String.eqb (key r) i)) l)
  = List.find (fun r => String.eqb (key r) j) l.
Proof.
  intros Hne. induction l as [|x l IH]; simpl; [reflexivity|].
  destruct (String.eqb (key x) i) eqn:Ei; simpl.
  - destruct (String.eqb (key x) j) eqn:Ej; [|exact IH].
    apply String.eqb_eq in Ei, Ej. congruence.
  - rewrite IH. reflexivity.
Qed.

Lemma find_filter_self {A} (key : A -> string) (i : string) (l : list A) :
  List.find (fun r => String.eqb (key r) i)
            (List.filter (fun r => negb (String.eqb (key r) i)) l) = None.
Proof.
  induction l as [|x l IH]; simpl; [reflexivity|].
  destruct (String.eqb (key x) i) eqn:Ei; simpl; [exact IH|].
  rewrite Ei. exact IH.
Qed.

Lemma find_replace_self {A} (key : A -> string) (i : string) (f : A -> A)
  (l : list A) (r : A) :
  (forall x, key (f x) = key x) ->
  List.find (fun x => String.eqb (key x) i) l = Some r ->
  List.find (fun x => String.eqb (key x) i)
            (List.map (fun x => if String.eqb (key x) i then f x else x) l)
  = Some (f r).
Proof.
  intros Hf. induction l as [|x l IH]; simpl; [discriminate|].
  destruct (String.eqb (key x) i) eqn:Ei.
  - intros [= <-]. rewrite Hf, Ei. reflexivity.
  - rewrite Ei. exact IH.
Qed.

Lemma find_replace_other {A} (key : A -> string) (i j : string) (f : A -> A)
  (l : list A) :
  (forall x, key (f x) = key x) -> i <> j ->
  List.find (fun x => String.eqb (key x) j)
            (List.map (fun x => if String.eqb (key x) i then f x else x) l)
  = List.find (fun x => String.eqb (key x) j) l.
Proof.
  intros Hf Hne. induction l as [|x l IH]; simpl; [reflexivity|].
  destruct (String.eqb (key x) i) eqn:Ei.
  - rewrite Hf. destruct (String.eqb (key x) j) eqn:Ej; [|exact IH].
    apply String.eqb_eq in Ei, Ej. congruence.
  - destruct (String.eqb (key x) j); [reflexivity | exact IH].
Qed.

Lemma find_snoc_other {A} (key : A -> string) (i j : string) (l : list A) (x : A) :
  key x = i -> i <> j ->
  List.find (fun r => String.eqb (key r) j) (l ++ [x])
  = List.find (fun r => String.eqb (key r) j) l.
Proof.
  intros Hk Hne. induction l as [|y l IH]; simpl.
  - rewrite Hk. apply String.eqb_neq in Hne. rewrite Hne. reflexivity.
  - destruct (String.eqb (key y) j); [reflexivity | exact IH].
Qed.

End KGRoundTrips.

(** X2. Relationship uniqueness. When [add_relationship] has added an edge,
    adding the same (from_id, to_id, relation) again, whatever the types and
    the metadata, returns [False] and leaves the database as it is; the
    outgoing relationships of [from_id] hold that edge exactly once, and no
    entry was written to the changelog. *)
Theorem add_relationship_twice :
  forall (now1 now2 : KG.sqltime)
         (from_id from_type to_id to_type relation : string)
         (metadata : option KG.dict)
         (from_type' to_type' : string) (metadata' : option KG.dict) (d : KG.db),
    fst (KG.add_relationship now1 from_id from_type to_id to_type relation
           metadata d) = Ok true ->
    let d1 := snd (KG.add_relationship now1 from_id from_type to_id to_type
                     relation metadata d) in
    KG.add_relationship now2 from_id from_type' to_id to_type' relation metadata' d1
    = (Ok false, d1)
    /\ (exists rows,
          fst (KG.get_relationships from_id None "outgoing" d1) = Ok rows
          /\ List.filter (KG.same_edge from_id to_id relation) rows
             = [KG.mk_relationship (KG.rel_seq d + 1) from_id from_type to_id
                                   to_type relation (KG.metadata_json metadata)
                                   now1])
    /\ KG.changelog d1 = KG.changelog d.
Proof.
  intros now1 now2 f ft t tty rel md ft' tty' md' d.
  unfold KG.add_relationship, KG._connection, try_except, bind,
    KG.insert_relationship, ret, raise.
  destruct (KG.is_entity_id d f) eqn:Ef; simpl; [|discriminate].
  destruct (KG.is_entity_id d t) eqn:Et; simpl; [|discriminate].
  destruct (List.existsb _ (KG.relationships d)) eqn:Ex; simpl; [discriminate|].
  intros _.
  unfold KG.is_entity_id in *. simpl. rewrite Ef, Et. simpl.
  rewrite List.existsb_app. simpl.
  assert (Hs : KG.same_edge f t rel
                 (KG.mk_relationship (KG.rel_seq d + 1) f ft t tty rel
                                     (KG.metadata_json md) now1) = true).
  { unfold KG.same_edge. simpl. rewrite !String.eqb_refl. reflexivity. }
  rewrite Hs, orb_true_r. simpl.
  split; [reflexivity|]. split; [|reflexivity].
  eexists. split.
  { unfold KG.get_relationships, KG._connection, bind, get_state, ret. simpl.
    reflexivity. }
  rewrite !List.filter_app.
  cbn [List.filter KG.r_from_id]. rewrite String.eqb_refl.
  cbn [andb List.filter]. rewrite Hs.
  match goal with
  | |- List.filter ?p (List.filter ?q ?l) ++ _ = _ =>
      assert (Hn : List.filter p (List.filter q l) = [])
  end.
  { apply existsb_false_filter.
    destruct (List.existsb _ (List.filter _ _)) eqn:E; [|reflexivity].
    apply List.existsb_exists in E. destruct E as (x & Hx & Hxe).
    apply List.filter_In in Hx.
    assert (List.existsb (KG.same_edge f t rel) (KG.relationships d) = true)
      by (apply List.existsb_exists; exists x; tauto).
    congruence. }
  rewrite Hn. reflexivity.
Qed.

Lemma add_relationship_twice_witness :
  KG.add_relationship Scenario.t1 "person:a" "friend" "person:b" "friend" "knows"
    None Scenario.acquainted
  = (Ok false, Scenario.acquainted).
Proof.
  exact (proj1
    (add_relationship_twice Scenario.t0 Scenario.t1 "person:a" "person" "person:b"
       "person" "knows" None "friend" "friend" None Scenario.two_people eq_refl)).
Defined.

(** X3. Delete semantics of [delete_content]. Deleting an absent id returns
    [False] and changes nothing, not even the changelog. Deleting a stored id
    returns [True]; afterwards [get_content] of that id is [None], every
    other id reads as before, and a second delete returns [False]. *)
Theorem delete_content_semantics :
  forall (now now' : KG.sqltime) (content_id : string) (d : KG.db),
    (KG.select_content d content_id = None ->
     KG.delete_content now content_id d = (Ok false, d))
    /\ (forall row, KG.select_content d content_id = Some row ->
          let d' := snd (KG.delete_content now content_id d) in
          fst (KG.delete_content now content_id d) = Ok true
          /\ KG.get_content content_id d' = (Ok None, d')
          /\ (forall other, other <> content_id ->
                KG.get_content other d' = (fst (KG.get_content other d), d'))
          /\ KG.delete_content now' content_id d' = (Ok false, d')).
Proof.
  intros now now' i d.
  assert (Habsent : forall d0 n, KG.select_content d0 i = None ->
                      KG.delete_content n i d0 = (Ok false, d0)).
  { intros d0 n E. unfold KG.select_content in E.
    unfold KG.delete_content, KG._connection, bind, get_state, KG.set_content,
      KG._log_change, ret. simpl.
    rewrite (find_none_filter_length _ _ E). simpl.
    rewrite (find_none_filter_negb _ _ E), db_eta. reflexivity. }
  split; [apply Habsent|].
  intros row E. cbv zeta.
  assert (Hd' : KG.content (snd (KG.delete_content now i d))
                = List.filter (fun r => negb (String.eqb (KG.c_id r) i))
                              (KG.content d)
                /\ fst (KG.delete_content now i d) = Ok true).
  { unfold KG.select_content in E.
    unfold KG.delete_content, KG._connection, bind, get_state, KG.set_content,
      KG._log_change, ret. simpl.
    rewrite (find_some_filter_length _ _ _ E). simpl. auto. }
  destruct Hd' as [Hc Hr].
  assert (Hgone : KG.select_content (snd (KG.delete_content now i d)) i = None).
  { unfold KG.select_content. rewrite Hc. apply find_filter_self. }
  split; [exact Hr|]. split; [|split].
  - unfold KG.get_content, KG._connection, bind, get_state, ret. simpl.
    rewrite Hgone. reflexivity.
  - intros other Hne.
    unfold KG.get_content, KG._connection, bind, get_state, ret. simpl.
    unfold KG.select_content. rewrite Hc.
    rewrite find_filter_other by congruence. reflexivity.
  - apply Habsent, Hgone.
Qed.

Lemma delete_content_semantics_witness :
  KG.delete_content Scenario.t1 "nope" Scenario.abc_db = (Ok false, Scenario.abc_db).
Proof.
  exact (proj1 (delete_content_semantics Scenario.t1 Scenario.t1 "nope"
                  Scenario.abc_db) eq_refl).
Defined.

Section KGLookups.

Local Open Scope list_scope.

Lemma find_overwrite_hit {A} (p : A -> bool) (row : A) (l : list A) :
  p row = true -> List.existsb p l = true ->
  List.find p (List.map (fun r => if p r then row else r) l) = Some row.
Proof.
  intros Hrow. induction l as [|x l IH]; simpl; [discriminate|].
  destruct (p x) eqn:E; simpl.
  - rewrite Hrow. reflexivity.
  - rewrite E. exact IH.
Qed.

Lemma find_overwrite_miss {A} (p q : A -> bool) (row : A) (l : list A) :
  q row = false -> (forall r, p r = true -> q r = false) ->
  List.find q (List.map (fun r => if p r then row else r) l) = List.find q l.
Proof.
  intros Hrow Hpq. induction l as [|x l IH]; simpl; [reflexivity|].
  destruct (p x) eqn:E.
  - rewrite Hrow, (Hpq x E). exact IH.
  - destruct (q x); [reflexivity | exact IH].
Qed.

Lemma find_snoc_hit {A} (p : A -> bool) (row : A) (l : list A) :
  p row = true -> List.existsb p l = false ->
  List.find p (l ++ [row]) = Some row.
Proof.
  intros Hrow. induction l as [|x l IH]; simpl.
  - rewrite Hrow. reflexivity.
  - destruct (p x); simpl; [discriminate | exact IH].
Qed.

Lemma find_snoc_miss {A} (q : A -> bool) (row : A) (l : list A) :
  q row = false -> List.find q (l ++ [row]) = List.find q l.
Proof.
  intros Hrow. induction l as [|x l IH]; simpl.
  - rewrite Hrow. reflexivity.
  - destruct (q x); [reflexivity | exact IH].
Qed.

End KGLookups.

(** X4. The sync cursor round trip. After [set_last_sync(source, account,
    t, token, metadata)], [get_last_sync(source, account)] returns exactly
    that state (so the last write wins), the state of every other
    (source, account) pair reads as before, and no other table and no
    changelog entry was touched. *)
Theorem sync_state_round_trip :
  forall (source account : string) (last_sync : KG.datetime)
         (sync_token : option string) (metadata : option KG.dict) (d : KG.db),
    let d' := snd (KG.set_last_sync source account last_sync sync_token
                     metadata d) in
    KG.get_last_sync source account d'
    = (Ok (Some (KG.mk_sync_state source account
                   (Some (KG.isoformat last_sync)) sync_token
                   (KG.metadata_json metadata))), d')
    /\ (forall source' account',
          (source', account') <> (source, account) ->
          fst (KG.get_last_sync source' account' d')
          = fst (KG.get_last_sync source' account' d))
    /\ (KG.entities d' = KG.entities d /\ KG.content d' = KG.content d
        /\ KG.relationships d' = KG.relationships d
        /\ KG.changelog d' = KG.changelog d).
Proof.
  intros s a t tok md d. cbv zeta.
  unfold KG.set_last_sync, KG.get_last_sync, KG._connection, bind, get_state,
    put_state, ret. simpl.
  set (hit := fun r => String.eqb (KG.s_source r) s && String.eqb (KG.s_account r) a).
  set (row := KG.mk_sync_state s a (Some (KG.isoformat t)) tok (KG.metadata_json md)).
  assert (Hrow : hit row = true).
  { unfold hit, row. simpl. rewrite !String.eqb_refl. reflexivity. }
  split; [|split; [|auto]].
  - f_equal. f_equal.
    destruct (List.existsb hit (KG.sync_state d)) eqn:E.
    + apply find_overwrite_hit; assumption.
    + apply find_snoc_hit; assumption.
  - intros s' a' Hne.
    set (q := fun r => String.eqb (KG.s_source r) s' && String.eqb (KG.s_account r) a').
    assert (Hq : forall r, hit r = true -> q r = false).
    { intros r Hr. unfold hit in Hr. apply andb_prop in Hr. destruct Hr as [H1 H2].
      apply String.eqb_eq in H1, H2. unfold q.
      destruct (String.eqb (KG.s_source r) s') eqn:E1; [|reflexivity].
      destruct (String.eqb (KG.s_account r) a') eqn:E2; [|reflexivity].
      apply String.eqb_eq in E1, E2. exfalso. apply Hne. congruence. }
    f_equal.
    destruct (List.existsb hit (KG.sync_state d)) eqn:E.
    + apply find_overwrite_miss; [apply Hq, Hrow | exact Hq].
    + apply find_snoc_miss. apply Hq, Hrow.
Qed.

(** X5. The upsert / get round trip. After [upsert_content], [get_content]
    of the id returns a row with exactly the fields that were passed, with
    [updated_at] at the clock of the call and [created_at] at that clock for
    a new id, kept for an existing one; [get_content] of any other id reads
    as before. The same holds for [upsert_entity] and [get_entity]. *)
Theorem upsert_then_get :
  forall (now : KG.sqltime) (d : KG.db)
         (content_id content_type source : string)
         (source_account title body source_id url : option string)
         (timestamp : option KG.datetime) (metadata : option KG.dict)
         (entity_id entity_type name esource : string)
         (eaccount email : option string) (emetadata : option KG.dict),
    let dc := snd (KG.upsert_content now content_id content_type source
                     source_account title body source_id url timestamp
                     metadata d) in
    let de := snd (KG.upsert_entity now entity_id entity_type name esource
                     eaccount email emetadata d) in
    (fst (KG.get_content content_id dc)
     = Ok (Some (KG.mk_content content_id content_type title body source
                   source_account source_id url
                   (option_map KG.isoformat timestamp)
                   (KG.metadata_json metadata)
                   (match KG.select_content d content_id with
                    | Some old => KG.c_created_at old
                    | None => now
                    end) now))
     /\ forall other, other <> content_id ->
          fst (KG.get_content other dc) = fst (KG.get_content other d))
    /\ (fst (KG.get_entity entity_id de)
        = Ok (Some (KG.mk_entity entity_id entity_type name email esource
                      eaccount (KG.metadata_json emetadata)
                      (match KG.select_entity d entity_id with
                       | Some old => KG.e_created_at old
                       | None => now
                       end) now))
        /\ forall other, other <> entity_id ->
             fst (KG.get_entity other de) = fst (KG.get_entity other d)).
Proof.
  intros now d cid cty src sa ti bo si url ts md eid ety nm es ea em emd.
  cbv zeta. split.
  - unfold KG.upsert_content, KG.get_content, KG._connection, bind, get_state,
      KG.set_content, KG._log_change, ret, KG.select_content. simpl.
    destruct (List.find _ (KG.content d)) as [old|] eqn:E; simpl.
    + split.
      * rewrite (find_replace_self KG.c_id cid
                   (fun r => KG.mk_content (KG.c_id r) cty ti bo src sa si url
                               (option_map KG.isoformat ts) (KG.metadata_json md)
                               (KG.c_created_at r) now) _ old); [|reflexivity|exact E].
        apply List.find_some in E. destruct E as [_ E].
        apply String.eqb_eq in E. rewrite E. reflexivity.
      * intros other Hne. rewrite find_replace_other; [reflexivity|reflexivity|].
        congruence.
    + split.
      * rewrite (find_app_new _ _ _ E) by (simpl; apply String.eqb_refl).
        reflexivity.
      * intros other Hne. rewrite (find_snoc_other KG.c_id cid other);
          [reflexivity | reflexivity | congruence].
  - unfold KG.upsert_entity, KG.get_entity, KG._connection, bind, get_state,
      KG.set_entities, KG._log_change, ret, KG.select_entity. simpl.
    destruct (List.find _ (KG.entities d)) as [old|] eqn:E; simpl.
    + split.
      * rewrite (find_replace_self KG.e_id eid
                   (fun r => KG.mk_entity (KG.e_id r) ety nm em es ea
                               (KG.metadata_json emd) (KG.e_created_at r) now)
                   _ old); [|reflexivity|exact E].
        apply List.find_some in E. destruct E as [_ E].
        apply String.eqb_eq in E. rewrite E. reflexivity.
      * intros other Hne. rewrite find_replace_other; [reflexivity|reflexivity|].
        congruence.
    + split.
      * rewrite (find_app_new _ _ _ E) by (simpl; apply String.eqb_refl).
        reflexivity.
      * intros other Hne. rewrite (find_snoc_other KG.e_id eid other);
          [reflexivity | reflexivity | congruence].
Qed.

Lemma upsert_then_get_witness :
  fst (KG.get_content "c2"
         (snd (KG.upsert_content Scenario.t1 "c1" "note" "manual" None
                 (Some "abc, revised") None None None None None Scenario.abc_db)))
  = fst (KG.get_content "c2" Scenario.abc_db).
Proof.
  refine (proj2 (proj1
    (upsert_then_get Scenario.t1 Scenario.abc_db "c1" "note" "manual" None
       (Some "abc, revised") None None None None None
       "person:a" "person" "A" "gmail" None None None)) "c2" _).
  discriminate.
Defined.

(** X6. Deleting an entity cascades. In a database that satisfies the
    schema's constraints, after [delete_entity(id)] the entity is gone, no
    stored relationship has [id] as [from_id] or [to_id], every remaining
    relationship was there before, exactly the relationships that do not
    touch [id] remain, and the content table is untouched. *)
Theorem delete_entity_cascades :
  forall (now : KG.sqltime) (entity_id : string) (d : KG.db),
    KGInv.well_formed d ->
    let d' := snd (KG.delete_entity now entity_id d) in
    KG.select_entity d' entity_id = None
    /\ KG.relationships d'
       = List.filter (fun r => negb (String.eqb (KG.r_from_id r) entity_id
                                     || String.eqb (KG.r_to_id r) entity_id))
                     (KG.relationships d)
    /\ (forall r, List.In r (KG.relationships d') ->
          KG.r_from_id r <> entity_id /\ KG.r_to_id r <> entity_id)
    /\ KG.content d' = KG.content d.
Proof.
  intros now i d Hwf. cbv zeta.
  unfold KG.delete_entity, KG._connection, bind, get_state, put_state,
    KG._log_change, ret. simpl.
  set (touch := fun r => negb (String.eqb (KG.r_from_id r) i
                               || String.eqb (KG.r_to_id r) i)).
  assert (Hrel : (if (0 <? List.length
                            (List.filter (fun r => String.eqb (KG.e_id r) i)
                                         (KG.entities d)))%nat
                  then List.filter touch (KG.relationships d)
                  else KG.relationships d)
                 = List.filter touch (KG.relationships d)).
  { destruct (0 <? _)%nat eqn:E; [reflexivity|].
    apply Nat.ltb_ge in E. symmetry.
    apply List.forallb_filter_id. apply List.forallb_forall. intros r Hr.
    destruct (KGInv.wf_fk d Hwf r Hr) as [H1 H2].
    assert (Hno : forall x, KG.is_entity_id d x = true -> String.eqb x i = false).
    { intros x Hx. destruct (String.eqb x i) eqn:Ex; [|reflexivity].
      apply String.eqb_eq in Ex. subst x. exfalso.
      unfold KG.is_entity_id in Hx. apply List.existsb_exists in Hx.
      destruct Hx as (y & Hy & Ey).
      assert (Hin : List.In y (List.filter (fun r => String.eqb (KG.e_id r) i)
                                           (KG.entities d)))
        by (apply List.filter_In; auto).
      destruct (List.filter _ (KG.entities d)); [destruct Hin | simpl in E; lia]. }
    unfold touch. rewrite (Hno _ H1), (Hno _ H2). reflexivity. }
  destruct (0 <? _)%nat eqn:E; simpl in *.
  - split; [apply find_filter_self|]. split; [reflexivity|]. split; [|reflexivity].
    intros r Hr. apply List.filter_In in Hr. destruct Hr as [_ Hr].
    unfold touch in Hr. apply negb_true_iff, orb_false_iff in Hr.
    destruct Hr as [H1 H2]. apply String.eqb_neq in H1, H2. auto.
  - split; [apply find_filter_self|]. split; [exact Hrel|]. split; [|reflexivity].
    intros r Hr. rewrite Hrel in Hr. apply List.filter_In in Hr.
    destruct Hr as [_ Hr].
    unfold touch in Hr. apply negb_true_iff, orb_false_iff in Hr.
    destruct Hr as [H1 H2]. apply String.eqb_neq in H1, H2. auto.
Qed.

Lemma delete_entity_cascades_witness :
  KG.relationships (snd (KG.delete_entity Scenario.t1 "person:b" Scenario.acquainted))
  = [].
Proof.
  refine (proj1 (proj2
    (delete_entity_cascades Scenario.t1 "person:b" Scenario.acquainted _))).
  apply add_relationship_wf, upsert_entity_wf, upsert_entity_wf, empty_db_wf.
Defined.

Section EntitySearchFacts.

Import KG KGAux.

Local Open Scope list_scope.

Lemma insert_updated_perm x l : Permutation (insert_by_updated_desc x l) (x :: l).
Proof.
  induction l as [|y l IH]; simpl; [reflexivity|].
  destruct (String.leb (e_updated_at y) (e_updated_at x)); [reflexivity|].
  rewrite IH. apply perm_swap.
Qed.

Lemma order_by_updated_perm l : Permutation (order_by_updated_desc l) l.
Proof.
  induction l as [|x l IH]; simpl; [reflexivity|].
  rewrite insert_updated_perm. constructor. exact IH.
Qed.

Lemma leb_false_flip (x y : string) : String.leb x y = false -> String.leb y x = true.
Proof.
  intros H. destruct (String.leb_total x y) as [E|E]; congruence.
Qed.

Lemma insert_updated_sorted x l :
  Sorted (fun a b => String.leb (e_updated_at b) (e_updated_at a) = true) l ->
  Sorted (fun a b => String.leb (e_updated_at b) (e_updated_at a) = true)
         (insert_by_updated_desc x l).
Proof.
  induction l as [|y l IH]; simpl; intros Hs.
  - repeat constructor.
  - destruct (String.leb (e_updated_at y) (e_updated_at x)) eqn:E.
    + constructor; [exact Hs|]. constructor. exact E.
    + inversion Hs as [|? ? Hs' Hhd]; subst.
      constructor; [apply IH, Hs'|].
      destruct l as [|z l]; simpl.
      * constructor. apply leb_false_flip, E.
      * destruct (String.leb (e_updated_at z) (e_updated_at x)).
        -- constructor. apply leb_false_flip, E.
        -- inversion Hhd; subst. constructor. assumption.
Qed.

Lemma order_by_updated_sorted l :
  Sorted (fun a b => String.leb (e_updated_at b) (e_updated_at a) = true)
         (order_by_updated_desc l).
Proof.
  induction l as [|x l IH]; simpl; [constructor | apply insert_updated_sorted, IH].
Qed.

Lemma sql_limit_in {A} (limit : Z) (l : list A) (x : A) :
  List.In x (sql_limit limit l) -> List.In x l.
Proof.
  unfold sql_limit. destruct (limit <? 0); [auto|].
  intros H. rewrite <- (List.firstn_skipn (Z.to_nat limit)).
  apply List.in_or_app. auto.
Qed.

Lemma sql_limit_length {A} (limit : Z) (l : list A) :
  0 <= limit -> Z.of_nat (List.length (sql_limit limit l)) <= limit.
Proof.
  intros Hl. unfold sql_limit.
  destruct (limit <? 0) eqn:E; [apply Z.ltb_lt in E; lia|].
  rewrite List.length_firstn. lia.
Qed.

Lemma sql_limit_sorted {A} (R : A -> A -> Prop) (limit : Z) (l : list A) :
  Sorted R l -> Sorted R (sql_limit limit l).
Proof.
  intros H. unfold sql_limit. destruct (limit <? 0); [exact H|].
  apply sorted_firstn, H.
Qed.

End EntitySearchFacts.

(** X7. [search_entities] returns stored entities that pass every provided
    filter together: the type and the source are equal to the ones asked,
    and a query without the wildcards [%] and [_] is a case-insensitive
    substring of the name or of the email (an entity without email can only
    match by name). At most [limit] rows are returned when [limit >= 0], by
    descending [updated_at]. In particular [find_person] returns at most 20
    entities, all of type [person]. *)
Theorem search_entities_filters :
  forall (query entity_type source : option string) (limit : Z) (d : KG.db)
         (rows : list KG.entity_row),
    fst (KG.search_entities query entity_type source limit d) = Ok rows ->
    (forall r, List.In r rows ->
       List.In r (KG.entities d)
       /\ (forall q, KG.given query = Some q -> KGAux.no_wildcard q = true ->
             KGAux.contains_ci q (KG.e_name r)
             || KGAux.col_contains_ci q (KG.e_email r) = true)
       /\ (forall t, KG.given entity_type = Some t -> KG.e_type r = t)
       /\ (forall v, KG.given source = Some v -> KG.e_source r = v))
    /\ (0 <= limit -> Z.of_nat (List.length rows) <= limit)
    /\ Sorted (fun a b => String.leb (KG.e_updated_at b) (KG.e_updated_at a) = true)
              rows
    /\ (forall q people,
          fst (Engine.find_person q d) = Ok people ->
          Z.of_nat (List.length people) <= 20
          /\ forall p, List.In p people -> KG.e_type p = "person").
Proof.
  assert (G : forall query entity_type source limit d rows,
    fst (KG.search_entities query entity_type source limit d) = Ok rows ->
    (forall r, List.In r rows ->
       List.In r (KG.entities d)
       /\ (forall q, KG.given query = Some q -> KGAux.no_wildcard q = true ->
             KGAux.contains_ci q (KG.e_name r)
             || KGAux.col_contains_ci q (KG.e_email r) = true)
       /\ (forall t, KG.given entity_type = Some t -> KG.e_type r = t)
       /\ (forall v, KG.given source = Some v -> KG.e_source r = v))
    /\ (0 <= limit -> Z.of_nat (List.length rows) <= limit)
    /\ Sorted (fun a b => String.leb (KG.e_updated_at b) (KG.e_updated_at a) = true)
              rows).
  { intros query entity_type source limit d rows.
    unfold KG.search_entities, KG._connection, bind, get_state, ret. simpl.
    intros [= <-]. split; [|split].
    - intros r Hr. apply sql_limit_in in Hr.
      eapply Permutation_in in Hr; [|apply order_by_updated_perm].
      apply List.filter_In in Hr. destruct Hr as [Hin Hm].
      split; [exact Hin|].
      unfold KG.entity_conditions in Hm.
      rewrite !List.forallb_app in Hm.
      apply andb_prop in Hm. destruct Hm as [Hq Hm].
      apply andb_prop in Hm. destruct Hm as [Ht Hs].
      split; [|split].
      + intros q Eq Hw. rewrite Eq in Hq. cbn [List.forallb] in Hq.
        rewrite andb_true_r in Hq. unfold KG.col_like in Hq.
        unfold KGAux.col_contains_ci.
        rewrite like_literal_substring in Hq by exact Hw.
        destruct (KG.e_email r);
          rewrite ?like_literal_substring in Hq by exact Hw; exact Hq.
      + intros t Et. rewrite Et in Ht. simpl in Ht. rewrite andb_true_r in Ht.
        apply String.eqb_eq, Ht.
      + intros v Ev. rewrite Ev in Hs. simpl in Hs. rewrite andb_true_r in Hs.
        apply String.eqb_eq, Hs.
    - apply sql_limit_length.
    - apply sql_limit_sorted, order_by_updated_sorted. }
  intros query entity_type source limit d rows H.
  destruct (G _ _ _ _ _ _ H) as (H1 & H2 & H3).
  split; [exact H1|]. split; [exact H2|]. split; [exact H3|].
  intros q people Hp. unfold Engine.find_person in Hp.
  destruct (G _ _ _ _ _ _ Hp) as (P1 & P2 & _).
  split; [apply P2; lia|].
  intros p Hin. destruct (P1 p Hin) as (_ & _ & Pt & _).
  apply Pt. reflexivity.
Qed.

Lemma search_entities_filters_witness :
  Z.of_nat (List.length [KG.mk_entity "person:a" "person" "Person A" None "gmail"
                           None None Scenario.t0 Scenario.t0]) <= 1.
Proof.
  refine (proj1 (proj2
    (search_entities_filters (Some "person a") (Some "person") None 1
       Scenario.two_people _ _)) _).
  - reflexivity.
  - discriminate.
Defined.

(* ===================================================================== *)
(** * Further properties of the query engine *)
(* ===================================================================== *)

Section ActivityFacts.

Import KG Engine.

Local Open Scope list_scope.

Lemma get_content_reads id d : KG.get_content id d = (Ok (select_content d id), d).
Proof. reflexivity. Qed.

(** The loop only appends rows that [get_content] found for one of the ids,
    and only reads the database. *)
Lemma collect_activity_spec content_types d ids : forall activity,
  exists extra,
    collect_activity content_types ids activity d = (Ok (activity ++ extra), d)
    /\ forall c, List.In c extra ->
         List.In (c_id c) ids /\ List.In c (content d)
         /\ (forall cts, content_types = Some cts -> List.In (c_type c) cts).
Proof.
  induction ids as [|id ids IH]; intros activity; simpl.
  - exists []. rewrite List.app_nil_r. split; [reflexivity | intros c []].
  - unfold bind at 1. rewrite get_content_reads.
    destruct (select_content d id) as [c0|] eqn:E.
    + assert (Hc0 : c_id c0 = id /\ List.In c0 (content d)).
      { unfold select_content in E. apply List.find_some in E.
        destruct E as [Hin Heq]. apply String.eqb_eq in Heq. auto. }
      destruct content_types as [cts|].
      * destruct (bool_decide (c_type c0 ∈ cts)) eqn:Eb.
        -- destruct (IH (activity ++ [c0])) as (extra & -> & Hx).
           exists (c0 :: extra). rewrite <- List.app_assoc. split; [reflexivity|].
           intros c [<-|Hin].
           ++ destruct Hc0 as [-> Hin0]. split; [left; reflexivity|].
              split; [exact Hin0|]. intros cts' [= <-].
              apply bool_decide_eq_true_1 in Eb. apply list_elem_of_In, Eb.
           ++ destruct (Hx c Hin) as (H1 & H2 & H3). auto.
        -- destruct (IH activity) as (extra & -> & Hx).
           exists extra. split; [reflexivity|].
           intros c Hin. destruct (Hx c Hin) as (H1 & H2 & H3). auto.
      * destruct (IH (activity ++ [c0])) as (extra & -> & Hx).
        exists (c0 :: extra). rewrite <- List.app_assoc. split; [reflexivity|].
        intros c [<-|Hin].
        -- destruct Hc0 as [-> Hin0]. split; [left; reflexivity|].
           split; [exact Hin0|]. intros cts' [=].
        -- destruct (Hx c Hin) as (H1 & H2 & H3). auto.
    + destruct (IH activity) as (extra & -> & Hx).
      exists extra. split; [reflexivity|].
      intros c Hin. destruct (Hx c Hin) as (H1 & H2 & H3). auto.
Qed.

Lemma insert_activity_perm x l : Permutation (insert_by_activity_key x l) (x :: l).
Proof.
  induction l as [|y l IH]; simpl; [reflexivity|].
  destruct (String.leb (activity_key y) (activity_key x)); [reflexivity|].
  rewrite IH. apply perm_swap.
Qed.

Lemma sort_activity_perm l : Permutation (sort_activity l) l.
Proof.
  induction l as [|x l IH]; simpl; [reflexivity|].
  rewrite insert_activity_perm. constructor. exact IH.
Qed.

Lemma py_prefix_in {A} (k : Z) (l : list A) (x : A) :
  List.In x (py_prefix k l) -> List.In x l.
Proof.
  intros H. destruct (py_prefix_is_prefix k l) as (rest & E).
  rewrite E. apply List.in_or_app. auto.
Qed.

End ActivityFacts.

(** X8. [get_person_activity] only reads the database, returns at most
    [limit] rows when [limit >= 0], and every row it returns is a stored
    content row of an allowed type whose id is the [from_id] of a stored
    relationship pointing to the person. In a database that satisfies the
    schema's constraints such an id is also the id of a stored entity, so
    the result is empty whenever no content row shares its id with an
    entity. *)
Theorem person_activity_needs_entity_ids :
  forall (person_id : string) (content_types : option (list string)) (limit : Z)
         (d : KG.db),
    KGInv.well_formed d ->
    exists rows,
      Engine.get_person_activity person_id content_types limit d = (Ok rows, d)
      /\ (0 <= limit -> Z.of_nat (List.length rows) <= limit)
      /\ (forall c, List.In c rows ->
            List.In c (KG.content d)
            /\ (exists r, List.In r (KG.relationships d)
                          /\ KG.r_to_id r = person_id
                          /\ KG.r_from_id r = KG.c_id c)
            /\ KG.is_entity_id d (KG.c_id c) = true
            /\ (forall cts, content_types = Some cts -> List.In (KG.c_type c) cts))
      /\ ((forall c, List.In c (KG.content d) -> KG.is_entity_id d (KG.c_id c) = false) ->
          rows = []).
Proof.
  intros person_id content_types limit d Hwf.
  unfold Engine.get_person_activity, bind.
  unfold KG.get_relationships at 1, KG._connection, bind, get_state, ret. simpl.
  set (incoming := List.filter _ (KG.relationships d)).
  destruct (collect_activity_spec content_types d
              (Engine.py_prefix limit (List.map KG.r_from_id incoming)) [])
    as (extra & -> & Hx).
  simpl.
  assert (Hrows : forall c,
            List.In c (Engine.py_prefix limit (Engine.sort_activity extra)) ->
            List.In c (KG.content d)
            /\ (exists r, List.In r (KG.relationships d)
                          /\ KG.r_to_id r = person_id
                          /\ KG.r_from_id r = KG.c_id c)
            /\ KG.is_entity_id d (KG.c_id c) = true
            /\ (forall cts, content_types = Some cts -> List.In (KG.c_type c) cts)).
  { intros c Hc. apply py_prefix_in in Hc.
    eapply Permutation_in in Hc; [|apply sort_activity_perm].
    destruct (Hx c Hc) as (Hid & Hin & Hty).
    apply py_prefix_in in Hid. apply List.in_map_iff in Hid.
    destruct Hid as (r & Er & Hr). unfold incoming in Hr.
    apply List.filter_In in Hr. destruct Hr as [Hr Hto].
    rewrite andb_true_r in Hto. apply String.eqb_eq in Hto.
    split; [exact Hin|]. split; [exists r; auto|]. split; [|exact Hty].
    rewrite <- Er. apply (KGInv.wf_fk d Hwf r Hr). }
  eexists. split; [reflexivity|]. split; [|split].
  - apply py_prefix_length.
  - exact Hrows.
  - intros Hnone.
    destruct (Engine.py_prefix limit (Engine.sort_activity extra)) as [|c l] eqn:E;
      [reflexivity|].
    destruct (Hrows c (or_introl eq_refl)) as (Hin & _ & He & _).
    rewrite (Hnone c Hin) in He. discriminate.
Qed.

Lemma person_activity_needs_entity_ids_witness :
  exists rows,
    Engine.get_person_activity "person:b" None 20 Scenario.acquainted
    = (Ok rows, Scenario.acquainted)
    /\ (0 <= 20 -> Z.of_nat (List.length rows) <= 20).
Proof.
  destruct (person_activity_needs_entity_ids "person:b" None 20 Scenario.acquainted)
    as (rows & H1 & H2 & _).
  - apply add_relationship_wf, upsert_entity_wf, upsert_entity_wf, empty_db_wf.
  - exists rows. split; assumption.
Defined.

(* ===================================================================== *)
(** * Further properties of the chunker *)
(* ===================================================================== *)

Section ChunkShape.

Import Chunker.

Local Open Scope list_scope.

Variables chunk_size chunk_overlap min_chunk_size : Z.
Variable re_split : string -> list string.
Variable md : option KG.dict.

Local Abbreviation numbered := (ChunkerAux.numbered md).
Local Abbreviation loop_ok := (ChunkerAux.loop_ok md).

Lemma numbered_nil : numbered [].
Proof. split; [reflexivity | constructor]. Qed.

Lemma numbered_snoc l x :
  numbered l -> chunk_index x = Z.of_nat (List.length l) -> metadata x = md ->
  numbered (l ++ [x]).
Proof.
  intros [Hi Hm] Hx Hxm. split.
  - rewrite List.length_app, List.map_app, List.seq_app, List.map_app, Hi.
    simpl. rewrite Hx. reflexivity.
  - apply List.Forall_app. split; [exact Hm | repeat constructor; exact Hxm].
Qed.

Lemma numbered_replace_last l p x :
  numbered (l ++ [p]) -> chunk_index x = chunk_index p -> metadata x = md ->
  numbered (l ++ [x]).
Proof.
  intros [Hi Hm] Hx Hxm. split.
  - rewrite List.length_app, List.map_app in *. simpl in *. rewrite Hx. exact Hi.
  - apply List.Forall_app in Hm. destruct Hm as [Hm _].
    apply List.Forall_app. split; [exact Hm | repeat constructor; exact Hxm].
Qed.

Lemma chunk_step_ok st item :
  loop_ok st -> loop_ok (chunk_step chunk_size chunk_overlap md st item).
Proof.
  intros [Hn Hi]. destruct item as [sentence_start sentence].
  unfold chunk_step.
  destruct (current_chunk st) as [|s0 ss] eqn:Ec; [split; assumption|].
  destruct (current_length st + PyStr.len sentence >? chunk_size);
    [|split; assumption].
  split; simpl.
  - apply numbered_snoc; [exact Hn | exact Hi | reflexivity].
  - rewrite List.length_app, Hi. simpl. lia.
Qed.

Lemma chunk_loop_ok items : forall st,
  loop_ok st ->
  loop_ok (List.fold_left (chunk_step chunk_size chunk_overlap md) items st).
Proof.
  induction items as [|item items IH]; intros st H; simpl; [exact H|].
  apply IH, chunk_step_ok, H.
Qed.

Lemma chunk_finish_numbered st :
  loop_ok st -> numbered (chunk_finish min_chunk_size md st).
Proof.
  intros [Hn Hi]. unfold chunk_finish.
  destruct (current_chunk st) as [|s0 ss]; [exact Hn|].
  destruct (PyStr.len _ >=? min_chunk_size).
  - apply numbered_snoc; [exact Hn | exact Hi | reflexivity].
  - destruct (List.rev (chunks st)) as [|prev earlier] eqn:Er; [exact Hn|].
    assert (E : chunks st = List.rev earlier ++ [prev]).
    { rewrite <- (List.rev_involutive (chunks st)), Er. reflexivity. }
    rewrite E in Hn.
    eapply numbered_replace_last; [exact Hn | reflexivity | reflexivity].
Qed.

Lemma chunk_numbered text :
  numbered (chunk chunk_size chunk_overlap min_chunk_size re_split text md).
Proof.
  unfold chunk.
  destruct (negb (PyStr.truthy text) || (PyStr.len text <? min_chunk_size)).
  - destruct (PyStr.truthy text); [|apply numbered_nil].
    split; [reflexivity | repeat constructor].
  - apply chunk_finish_numbered, chunk_loop_ok.
    split; [apply numbered_nil | reflexivity].
Qed.

End ChunkShape.

Lemma chunk_indices_sequential_aux chunk_size chunk_overlap min_chunk_size
  re_split text md :
  List.map Chunker.chunk_index
    (Chunker.chunk chunk_size chunk_overlap min_chunk_size re_split text md)
  = List.map Z.of_nat
      (List.seq 0 (List.length
         (Chunker.chunk chunk_size chunk_overlap min_chunk_size re_split text md))).
Proof.
  apply (chunk_numbered chunk_size chunk_overlap min_chunk_size re_split md text).
Qed.

(** X9. The chunks returned by [chunk] are numbered 0, 1, 2, ... in the
    order of the list, also when the last piece was merged into its
    predecessor, and each of them carries the metadata that was passed. *)
Theorem chunk_indices_sequential :
  forall (chunk_size chunk_overlap min_chunk_size : Z)
         (re_split : string -> list string) (text : string)
         (metadata : option KG.dict),
    let chunks :=
      Chunker.chunk chunk_size chunk_overlap min_chunk_size re_split text metadata in
    List.map Chunker.chunk_index chunks
    = List.map Z.of_nat (List.seq 0 (List.length chunks))
    /\ forall c, List.In c chunks -> Chunker.metadata c = metadata.
Proof.
  intros cs co mcs re_split text md. cbv zeta.
  destruct (chunk_numbered cs co mcs re_split md text) as [Hi Hm].
  split; [exact Hi|]. apply List.Forall_forall, Hm.
Qed.

Section OverlapFacts.

Import Chunker.

Local Open Scope list_scope.

Lemma len_append (s1 s2 : string) :
  PyStr.len (s1 ++ s2)%string = PyStr.len s1 + PyStr.len s2.
Proof.
  unfold PyStr.len. rewrite <- Nat2Z.inj_add. f_equal.
  induction s1 as [|c s1 IH]; simpl; [reflexivity | f_equal; exact IH].
Qed.

Lemma len_nonneg (s : string) : 0 <= PyStr.len s.
Proof. unfold PyStr.len. lia. Qed.

Lemma len_join_cons (x : string) (l : list string) :
  PyStr.len (PyStr.join " " (x :: l))
  = PyStr.len x
    + match l with [] => 0 | _ => PyStr.len (PyStr.join " " l) + 1 end.
Proof.
  unfold PyStr.join. destruct l as [|y l]; simpl String.concat; [lia|].
  rewrite !len_append. change (PyStr.len " ") with 1. lia.
Qed.

(** The loop of [_get_overlap] keeps the text collected so far within
    [target_length] and only prepends sentences taken from the front of the
    reversed list. *)
Lemma overlap_from_spec target reversed : forall acc L,
  L = match acc with [] => 0 | _ => PyStr.len (PyStr.join " " acc) + 1 end ->
  PyStr.len (PyStr.join " " acc) <= Z.max 0 target ->
  exists j,
    overlap_from target reversed acc L = List.rev (List.firstn j reversed) ++ acc
    /\ PyStr.len (PyStr.join " " (overlap_from target reversed acc L))
       <= Z.max 0 target.
Proof.
  induction reversed as [|s rest IH]; intros acc L HL Hacc; simpl.
  - exists 0%nat. split; [reflexivity | exact Hacc].
  - destruct (L + PyStr.len s >? target) eqn:E.
    + exists 0%nat. split; [reflexivity | exact Hacc].
    + assert (Hle : L + PyStr.len s <= target)
        by (rewrite Z.gtb_ltb in E; apply Z.ltb_ge in E; exact E).
      assert (Hj : PyStr.len (PyStr.join " " (s :: acc)) = L + PyStr.len s).
      { rewrite len_join_cons, HL. destruct acc; lia. }
      destruct (IH (s :: acc) (L + PyStr.len s + 1)) as (j & Ej & Hlen).
      * rewrite Hj. reflexivity.
      * rewrite Hj. lia.
      * exists (S j). split; [|exact Hlen].
        rewrite Ej. simpl. rewrite <- List.app_assoc. reflexivity.
Qed.

End OverlapFacts.

(** X10. The overlap law. The text with which [_get_overlap] seeds the
    next chunk is the join of the last sentences of the chunk just emitted,
    whole and in order, and it is at most [target_length] characters long
    (empty when [target_length] is negative or the last sentence alone is
    longer). *)
Theorem overlap_is_bounded_suffix :
  forall (sentences : list string) (target_length : Z),
    PyStr.len (Chunker._get_overlap sentences target_length)
    <= Z.max 0 target_length
    /\ exists k,
         Chunker._get_overlap sentences target_length
         = PyStr.join " " (List.skipn k sentences).
Proof.
  intros sentences target. unfold Chunker._get_overlap.
  destruct sentences as [|s0 ss] eqn:Es.
  { split; [change (PyStr.len "") with 0; lia | exists 0%nat; reflexivity]. }
  rewrite <- Es.
  destruct (overlap_from_spec target (List.rev sentences) [] 0 eq_refl)
    as (j & Ej & Hlen).
  { change (PyStr.len (PyStr.join " " [])) with 0. lia. }
  split; [exact Hlen|].
  exists (List.length sentences - j)%nat. rewrite Ej, List.app_nil_r.
  rewrite List.firstn_rev, List.rev_involutive. reflexivity.
Qed.

Section DictFacts.

Import KG.

Local Open Scope list_scope.

Lemma dict_get_set_eq key value d : dict_get key (dict_set key value d) = Some value.
Proof.
  induction d as [|[k v] d IH]; simpl.
  - rewrite String.eqb_refl. reflexivity.
  - destruct (String.eqb k key) eqn:E; simpl; rewrite E; [reflexivity | exact IH].
Qed.

Lemma dict_get_set_ne key key' value d :
  key <> key' -> dict_get key (dict_set key' value d) = dict_get key d.
Proof.
  intros Hne. induction d as [|[k v] d IH]; simpl.
  - apply String.eqb_neq in Hne. rewrite String.eqb_sym, Hne. reflexivity.
  - destruct (String.eqb k key') eqn:E; simpl.
    + apply String.eqb_eq in E. subst k.
      assert (String.eqb key' key = false) as ->
          by (apply String.eqb_neq; congruence).
      reflexivity.
    + destruct (String.eqb k key); [reflexivity | exact IH].
Qed.

Lemma dict_get_absent key d :
  ~ List.In key (List.map fst d) -> dict_get key d = None.
Proof.
  induction d as [|[k v] d IH]; simpl; [reflexivity|].
  intros Hn. destruct (String.eqb k key) eqn:E.
  - apply String.eqb_eq in E. tauto.
  - apply IH. tauto.
Qed.

(** [{**d, **more}] read at a key: the value of [more] when it has the
    key, the one of [d] otherwise. *)
Lemma dict_get_update key more : forall d,
  List.NoDup (List.map fst more) ->
  dict_get key (dict_update d more)
  = match dict_get key more with
    | Some v => Some v
    | None => dict_get key d
    end.
Proof.
  unfold dict_update.
  induction more as [|[k v] more IH]; intros d Hnd; simpl; [reflexivity|].
  inversion Hnd as [|? ? Hk Hnd']; subst.
  rewrite IH by exact Hnd'.
  destruct (String.eqb k key) eqn:E.
  - apply String.eqb_eq in E. subst k.
    rewrite (dict_get_absent _ _ Hk). apply dict_get_set_eq.
  - destruct (dict_get key more); [reflexivity|].
    apply dict_get_set_ne. apply String.eqb_neq in E. congruence.
Qed.

End DictFacts.

(** X11. [chunk_document] stamps the chunks of [chunk]. It returns the
    chunks that [chunk] makes of the title, a blank line and the body (of the
    body alone when the title is empty), with the same texts, offsets and
    indices. In the metadata of each chunk, [chunk_index] is the index of
    the chunk and [total_chunks] the number of chunks returned, whatever the
    caller's metadata say under these two keys; under every other key the
    caller's metadata win over [source_id], [source_type] and [title]. *)
Theorem chunk_document_stamps :
  forall (chunk_size chunk_overlap min_chunk_size : Z)
         (re_split : string -> list string)
         (title body source_id source_type : string) (metadata : option KG.dict),
    let m := match metadata with Some m => m | None => [] end in
    let full_text :=
      if PyStr.truthy title
      then (title ++ String "010" (String "010" body))%string else body in
    let docs :=
      Chunker.chunk_document chunk_size chunk_overlap min_chunk_size re_split
        title body source_id source_type metadata in
    List.NoDup (List.map fst m) ->
    (exists base,
        let plain := Chunker.chunk chunk_size chunk_overlap min_chunk_size re_split
                       full_text (Some base) in
        List.map Chunker.text docs = List.map Chunker.text plain
        /\ List.map Chunker.start_char docs = List.map Chunker.start_char plain
        /\ List.map Chunker.end_char docs = List.map Chunker.end_char plain
        /\ List.map Chunker.chunk_index docs = List.map Chunker.chunk_index plain)
    /\ List.map Chunker.chunk_index docs
       = List.map Z.of_nat (List.seq 0 (List.length docs))
    /\ forall c, List.In c docs ->
         exists md,
           Chunker.metadata c = Some md
           /\ KG.dict_get "chunk_index" md = Some (KG.JInt (Chunker.chunk_index c))
           /\ KG.dict_get "total_chunks" md = Some (KG.JInt (PyStr.len_list docs))
           /\ forall key, key <> "chunk_index" -> key <> "total_chunks" ->
                KG.dict_get key md
                = match KG.dict_get key m with
                  | Some v => Some v
                  | None =>
                      KG.dict_get key
                        [("source_id", KG.JStr source_id);
                         ("source_type", KG.JStr source_type);
                         ("title", KG.JStr title)]
                  end.
Proof.
  intros cs co mcs re_split title body source_id source_type metadata m
    full_text docs Hnd.
  unfold docs, Chunker.chunk_document. fold m. fold full_text.
  set (base := KG.dict_update _ m).
  set (plain := Chunker.chunk cs co mcs re_split full_text (Some base)).
  split; [|split].
  - exists base. fold plain. cbv zeta.
    rewrite !List.map_map. repeat split; reflexivity.
  - rewrite List.map_map, List.length_map. simpl.
    apply (chunk_indices_sequential_aux cs co mcs re_split full_text (Some base)).
  - intros c Hc. apply List.in_map_iff in Hc. destruct Hc as (c0 & <- & Hc0).
    eexists. split; [reflexivity|]. simpl.
    unfold KG.dict_update. cbn [List.fold_left fst snd].
    fold (KG.dict_update [("source_id", KG.JStr source_id);
                          ("source_type", KG.JStr source_type);
                          ("title", KG.JStr title)] m).
    split; [|split].
    + rewrite dict_get_set_ne by discriminate. apply dict_get_set_eq.
    + rewrite dict_get_set_eq. unfold PyStr.len_list.
      rewrite List.length_map. reflexivity.
    + intros key H1 H2.
      rewrite !dict_get_set_ne by congruence.
      apply dict_get_update, Hnd.
Qed.

Lemma chunk_document_stamps_witness :
  List.map Chunker.chunk_index
    (Chunker.chunk_document 1000 200 100 (fun t => [t]) "Title" "body" "doc1"
       "file" (Some [("source_id", KG.JStr "other")]))
  = List.map Z.of_nat
      (List.seq 0
         (List.length
            (Chunker.chunk_document 1000 200 100 (fun t => [t]) "Title" "body"
               "doc1" "file" (Some [("source_id", KG.JStr "other")])))).
Proof.
  refine (proj1 (proj2
    (chunk_document_stamps 1000 200 100 (fun t => [t]) "Title" "body" "doc1"
       "file" (Some [("source_id", KG.JStr "other")]) _))).
  repeat constructor. simpl. tauto.
Defined.



(* ===================================================================== *)
(** * Further properties of the embedder *)
(* ===================================================================== *)

Section SortByIndex.

Import Embedder.

Local Open Scope list_scope.

Local Abbreviation idx_le := EmbedderAux.idx_le.
Local Abbreviation idx_lt := EmbedderAux.idx_lt.

Lemma insert_index_perm x l : Permutation (insert_by_index x l) (x :: l).
Proof.
  induction l as [|y l IH]; simpl; [reflexivity|].
  destruct (fst x <=? fst y)%nat; [reflexivity|].
  rewrite IH. apply perm_swap.
Qed.

Lemma sort_index_perm l : Permutation (sort_by_index l) l.
Proof.
  induction l as [|x l IH]; simpl; [reflexivity|].
  rewrite insert_index_perm. constructor. exact IH.
Qed.

Lemma insert_index_sorted x l :
  StronglySorted idx_le l -> StronglySorted idx_le (insert_by_index x l).
Proof.
  induction l as [|y l IH]; simpl; intros Hs.
  - repeat constructor.
  - inversion Hs as [|? ? Hs' Hall]; subst.
    destruct (fst x <=? fst y)%nat eqn:E.
    + apply Nat.leb_le in E. constructor; [exact Hs|].
      constructor; [exact E|].
      eapply List.Forall_impl; [|exact Hall].
      intros z Hz. unfold EmbedderAux.idx_le in *. lia.
    + apply Nat.leb_gt in E.
      constructor; [apply IH, Hs'|].
      eapply Permutation_Forall; [symmetry; apply insert_index_perm|].
      constructor; [unfold EmbedderAux.idx_le; lia | exact Hall].
Qed.

Lemma sort_index_sorted l : StronglySorted idx_le (sort_by_index l).
Proof.
  induction l as [|x l IH]; simpl; [constructor | apply insert_index_sorted, IH].
Qed.

(** A list sorted by index that is a permutation of a list with strictly
    increasing indices is that list. *)
Lemma sorted_perm_unique l' : forall l,
  StronglySorted idx_le l -> StronglySorted idx_lt l' -> Permutation l l' ->
  l = l'.
Proof.
  induction l' as [|a l' IH]; intros l Hl Hl' Hp.
  - apply Permutation_sym, Permutation_nil in Hp. exact Hp.
  - destruct l as [|b l]; [apply Permutation_nil in Hp; discriminate|].
    inversion Hl as [|? ? Hs Hall]; subst.
    inversion Hl' as [|? ? Hs' Hall']; subst.
    assert (Hab : b = a).
    { assert (Ha : List.In a (b :: l))
        by (eapply Permutation_in; [symmetry; exact Hp | left; reflexivity]).
      assert (Hb : List.In b (a :: l'))
        by (eapply Permutation_in; [exact Hp | left; reflexivity]).
      destruct Hb as [Hb|Hb]; [auto|].
      destruct Ha as [Ha|Ha]; [auto|].
      rewrite List.Forall_forall in Hall, Hall'.
      specialize (Hall a Ha). specialize (Hall' b Hb).
      unfold EmbedderAux.idx_le, EmbedderAux.idx_lt in *. lia. }
    subst b. f_equal. apply IH; [exact Hs | exact Hs'|].
    eapply Permutation_cons_inv, Hp.
Qed.

Lemma sort_index_of_perm l l' :
  StronglySorted idx_lt l' -> Permutation l l' -> sort_by_index l = l'.
Proof.
  intros Hl' Hp. apply sorted_perm_unique; [apply sort_index_sorted | exact Hl'|].
  rewrite sort_index_perm. exact Hp.
Qed.

(** The positions [i, i+1, ...] paired with the elements of a list. *)
Lemma indexed_sorted (l : list embedding) : forall i,
  StronglySorted idx_lt (List.combine (List.seq i (List.length l)) l).
Proof.
  induction l as [|x l IH]; intros i; simpl; [constructor|].
  constructor; [apply IH|].
  apply List.Forall_forall. intros [j e] Hin.
  apply List.in_combine_l in Hin. apply List.in_seq in Hin.
  unfold EmbedderAux.idx_lt. simpl. lia.
Qed.

Lemma indexed_snd (l : list embedding) : forall i,
  List.map snd (List.combine (List.seq i (List.length l)) l) = l.
Proof.
  induction l as [|x l IH]; intros i; simpl; [reflexivity|].
  rewrite IH. reflexivity.
Qed.

End SortByIndex.

Section EmbedBatchFacts.

Import Embedder.

Local Open Scope list_scope.

Variable _cache_key : string -> string.
Variable batch_size : Z.
Variable provider : nat -> list string -> outcome (list embedding).

Local Abbreviation trunc := (fun t : string => _truncate_text t 8000).

Lemma batches_concat n : forall fuel texts,
  (0 < n)%nat -> (List.length texts <= fuel)%nat ->
  List.concat (batches fuel n texts) = texts.
Proof.
  induction fuel as [|fuel IH]; intros texts Hn Hlen.
  - destruct texts; [reflexivity | simpl in Hlen; lia].
  - destruct texts as [|t texts]; [reflexivity|].
    cbn [batches List.concat].
    rewrite IH; [apply List.firstn_skipn | exact Hn|].
    rewrite List.length_skipn. simpl in *. lia.
Qed.

Lemma batches_bounded n : forall fuel texts,
  List.Forall (fun b => (List.length b <= n)%nat) (batches fuel n texts).
Proof.
  induction fuel as [|fuel IH]; intros texts; [constructor|].
  destruct texts as [|t texts]; [constructor|].
  cbn [batches]. constructor; [|apply IH].
  rewrite List.length_firstn. lia.
Qed.

(** The first loop of [embed_batch]: the hits carry the cached vector, the
    misses are the uncached texts in order, and together they cover every
    position once. *)
Lemma check_cache_spec (f : string -> embedding) (cache : gmap string embedding) :
  forall texts i,
    let '(results, to_embed) := check_cache _cache_key cache i texts in
    List.map snd to_embed = EmbedderAux.misses _cache_key cache texts
    /\ Permutation
         (results ++ List.map (fun it => (fst it, f (trunc (snd it)))) to_embed)
         (List.combine (List.seq i (List.length texts))
            (List.map (EmbedderAux.answer _cache_key f cache) texts)).
Proof.
  induction texts as [|t texts IH]; intros i.
  - simpl. split; [reflexivity | constructor].
  - cbn [check_cache]. specialize (IH (S i)).
    destruct (check_cache _cache_key cache (S i) texts) as [results to_embed].
    destruct IH as [IHm IHp].
    cbn [EmbedderAux.misses List.filter List.map List.length List.seq List.combine].
    unfold EmbedderAux.answer at 1.
    destruct (cache !! _cache_key t) as [e|] eqn:E.
    + split; [exact IHm|]. simpl. constructor. exact IHp.
    + split; [simpl; f_equal; exact IHm|].
      cbn [List.map fst snd]. rewrite <- Permutation_middle.
      constructor. exact IHp.
Qed.

Lemma check_cache_all_hits (cache : gmap string embedding) :
  forall texts i,
    EmbedderAux.misses _cache_key cache texts = [] ->
    snd (check_cache _cache_key cache i texts) = [].
Proof.
  intros texts i H.
  pose proof (check_cache_spec (fun _ => []) cache texts i) as Hs.
  destruct (check_cache _cache_key cache i texts) as [results to_embed].
  destruct Hs as [Hm _]. rewrite H in Hm. simpl.
  destruct to_embed; [reflexivity | discriminate].
Qed.

(** One attempt appends to the log the truncated batches it sent, a prefix
    of the batches of the texts, and touches neither cache. *)
Lemma embed_batches_calls : forall bs acc st,
  exists (k : nat),
    snd (embed_batches provider bs acc st)
    = mk_state (_cache st) (disk st)
        (provider_calls st ++ List.firstn k (List.map (List.map trunc) bs)).
Proof.
  induction bs as [|b bs IH]; intros acc st.
  - exists 0%nat. simpl. rewrite List.app_nil_r. destruct st; reflexivity.
  - cbn [embed_batches]. unfold bind at 1, call_provider.
    destruct (provider _ _) as [embs|e].
    + match goal with
      | |- context [embed_batches _ _ ?a ?s] => destruct (IH a s) as [k Hk]
      end.
      exists (S k). rewrite Hk. cbn [_cache disk provider_calls].
      rewrite <- List.app_assoc. reflexivity.
    + exists 1%nat. reflexivity.
Qed.

Lemma embed_batches_ok (f : string -> embedding) :
  (forall n batch, provider n batch = Ok (List.map f batch)) ->
  forall bs acc st,
    embed_batches provider bs acc st
    = (Ok (acc ++ List.map (fun t => f (trunc t)) (List.concat bs)),
       mk_state (_cache st) (disk st)
         (provider_calls st ++ List.map (List.map trunc) bs)).
Proof.
  intros Hp. induction bs as [|b bs IH]; intros acc st.
  - simpl. rewrite !List.app_nil_r. destruct st; reflexivity.
  - cbn [embed_batches]. unfold bind at 1, call_provider. rewrite Hp.
    rewrite IH. cbn [_cache disk provider_calls List.concat List.map].
    rewrite List.map_app, List.map_map, <- !List.app_assoc. reflexivity.
Qed.

Lemma _embed_batch_ok (f : string -> embedding) :
  0 < batch_size ->
  (forall n batch, provider n batch = Ok (List.map f batch)) ->
  forall texts st,
    _embed_batch batch_size provider texts st
    = (Ok (List.map (fun t => f (trunc t)) texts),
       mk_state (_cache st) (disk st)
         (provider_calls st
            ++ List.map (List.map trunc)
                 (batches (List.length texts) (Z.to_nat batch_size) texts))).
Proof.
  intros Hb Hp texts st. unfold _embed_batch, try_except, _embed_batch_attempt.
  destruct (batch_size =? 0) eqn:E0; [apply Z.eqb_eq in E0; lia|].
  destruct (batch_size <? 0) eqn:E1; [apply Z.ltb_lt in E1; lia|].
  rewrite (embed_batches_ok f Hp). simpl List.app.
  rewrite batches_concat; [reflexivity | lia | lia].
Qed.

(** The second loop of [embed_batch]: the new vectors are appended to the
    results in order and stored in both caches; the log is not touched. *)
Lemma store_new_spec : forall pairs results st,
  exists st',
    store_new _cache_key pairs results st
    = (Ok (results ++ List.map (fun p => (fst (fst p), snd p)) pairs), st')
    /\ provider_calls st' = provider_calls st
    /\ (forall k, is_Some (_cache st !! k) -> is_Some (_cache st' !! k))
    /\ (forall p, List.In p pairs ->
          is_Some (_cache st' !! _cache_key (snd (fst p)))).
Proof.
  induction pairs as [|[[idx t] e] pairs IH]; intros results st.
  - exists st. simpl. rewrite List.app_nil_r.
    repeat split; auto. intros p [].
  - cbn [store_new]. unfold cache_store, _save_cache_entry, bind,
      get_state, put_state. cbn [_cache disk provider_calls].
    match goal with
    | |- context [store_new _ _ ?r ?s] => destruct (IH r s) as (st' & -> & Hc & Hk & Hin)
    end.
    exists st'. cbn [_cache disk provider_calls] in *.
    split; [rewrite <- List.app_assoc; reflexivity|].
    split; [exact Hc|]. split.
    + intros k Hsome. apply Hk.
      destruct (decide (_cache_key t = k)) as [->|Hne].
      * rewrite lookup_insert_eq. eauto.
      * rewrite lookup_insert_ne; auto.
    + intros p [<-|Hp]; [|apply Hin, Hp].
      apply Hk. cbn [fst snd]. rewrite lookup_insert_eq. eauto.
Qed.

End EmbedBatchFacts.

Section EmbedBatchAnswers.

Import Embedder.

Local Open Scope list_scope.

Variable _cache_key : string -> string.
Variable batch_size : Z.
Variable provider : nat -> list string -> outcome (list embedding).

Local Abbreviation trunc := (fun t : string => _truncate_text t 8000).

Lemma zip_new_embeddings (g : string -> embedding) (l : list (nat * string)) :
  List.map (fun p : nat * string * embedding => (fst (fst p), snd p))
    (List.combine l (List.map g (List.map snd l)))
  = List.map (fun it => (fst it, g (snd it))) l.
Proof.
  induction l as [|[i t] l IH]; simpl; [reflexivity | f_equal; exact IH].
Qed.

Lemma zip_covers (g : string -> embedding) (l : list (nat * string)) (t : string) :
  List.In t (List.map snd l) ->
  exists p, List.In p (List.combine l (List.map g (List.map snd l)))
            /\ snd (fst p) = t.
Proof.
  induction l as [|[i u] l IH]; simpl; [intros []|].
  intros [->|Hin].
  - exists ((i, t), g t). auto.
  - destruct (IH Hin) as (p & Hp & Ht). exists p. auto.
Qed.

Lemma hit_or_miss (cache : gmap string embedding) (texts : list string) (t : string) :
  List.In t texts ->
  is_Some (cache !! _cache_key t)
  \/ List.In t (EmbedderAux.misses _cache_key cache texts).
Proof.
  intros Hin. unfold EmbedderAux.misses.
  destruct (cache !! _cache_key t) as [e|] eqn:E; [left; eauto|].
  right. apply List.filter_In. rewrite E. auto.
Qed.

Lemma sorted_results (f : string -> embedding) (cache : gmap string embedding)
  (texts : list string) (l : list (nat * embedding)) :
  Permutation l
    (List.combine (List.seq 0 (List.length texts))
       (List.map (EmbedderAux.answer _cache_key f cache) texts)) ->
  List.map snd (sort_by_index l)
  = List.map (EmbedderAux.answer _cache_key f cache) texts.
Proof.
  intros Hp.
  pose proof (indexed_sorted
                (List.map (EmbedderAux.answer _cache_key f cache) texts) 0) as Hs.
  pose proof (indexed_snd
                (List.map (EmbedderAux.answer _cache_key f cache) texts) 0) as Hm.
  rewrite List.length_map in Hs, Hm.
  rewrite (sort_index_of_perm _ _ Hs Hp). exact Hm.
Qed.

End EmbedBatchAnswers.

(** [embed_batch] with a provider that answers every request. *)
Lemma embed_batch_ok :
  forall (_cache_key : string -> string) (batch_size : Z)
         (provider : nat -> list string -> outcome (list Embedder.embedding))
         (f : string -> Embedder.embedding)
         (texts : list string) (st : Embedder.state),
    0 < batch_size ->
    (forall n batch, provider n batch = Ok (List.map f batch)) ->
    let to_embed := EmbedderAux.misses _cache_key (Embedder._cache st) texts in
    exists st',
      Embedder.embed_batch _cache_key batch_size provider texts st
      = (Ok (List.map (EmbedderAux.answer _cache_key f (Embedder._cache st)) texts),
         st')
      /\ Embedder.provider_calls st'
         = (Embedder.provider_calls st
              ++ List.map (List.map (fun t => Embedder._truncate_text t 8000))
                   (Embedder.batches (List.length to_embed)
                      (Z.to_nat batch_size) to_embed))%list
      /\ forall t, List.In t texts ->
           is_Some (Embedder._cache st' !! _cache_key t).
Proof.
  intros key bs provider f texts st Hb Hp to_embed. subst to_embed.
  unfold Embedder.embed_batch, bind at 1, get_state.
  pose proof (check_cache_spec key f (Embedder._cache st) texts 0) as Hs.
  destruct (Embedder.check_cache key (Embedder._cache st) 0 texts)
    as [results to_embed].
  destruct Hs as [Hm Hperm]. rewrite <- Hm.
  destruct to_embed as [|p to_embed].
  - exists st. unfold bind, ret. simpl List.map in Hperm.
    rewrite List.app_nil_r in Hperm.
    rewrite (sorted_results key f _ _ _ Hperm).
    split; [reflexivity|]. split; [simpl; rewrite List.app_nil_r; reflexivity|].
    intros t Hin.
    destruct (hit_or_miss key (Embedder._cache st) texts t Hin) as [H|H];
      [exact H|]. rewrite <- Hm in H. destruct H.
  - remember (p :: to_embed) as l eqn:El.
    unfold bind at 1. unfold bind at 1.
    rewrite (_embed_batch_ok bs provider f Hb Hp).
    match goal with
    | |- context [Embedder.store_new _ ?ps ?r ?s] =>
        destruct (store_new_spec key ps r s) as (st' & -> & Hc & Hk & Hin)
    end.
    cbn [Embedder._cache Embedder.disk Embedder.provider_calls] in *.
    exists st'. unfold ret.
    rewrite (zip_new_embeddings (fun t => f (Embedder._truncate_text t 8000))).
    rewrite (sorted_results key f _ _ _ Hperm).
    split; [reflexivity|]. split; [exact Hc|].
    intros t Ht.
    destruct (hit_or_miss key (Embedder._cache st) texts t Ht) as [H|H].
    + apply Hk, H.
    + rewrite <- Hm in H.
      destruct (zip_covers (fun t => f (Embedder._truncate_text t 8000)) l t H)
        as (q & Hq & <-).
      apply Hin, Hq.
Qed.

(** X12 -- [Embedder.embed_batch]: with a provider that answers every
    request with one vector per text, the result has one vector per input
    text, in the order of the input: the cached vector for a text whose key
    is in [self._cache], the provider's vector for the truncated text
    otherwise. Only the uncached texts are sent, in order and in batches of
    [batch_size], and afterwards the key of every input text is in
    [self._cache]. *)
Theorem embed_batch_answers_in_order :
  forall (_cache_key : string -> string) (batch_size : Z)
         (provider : nat -> list string -> outcome (list Embedder.embedding))
         (f : string -> Embedder.embedding)
         (texts : list string) (st : Embedder.state),
    0 < batch_size ->
    (forall n batch, provider n batch = Ok (List.map f batch)) ->
    let to_embed := EmbedderAux.misses _cache_key (Embedder._cache st) texts in
    exists st',
      Embedder.embed_batch _cache_key batch_size provider texts st
      = (Ok (List.map (EmbedderAux.answer _cache_key f (Embedder._cache st)) texts),
         st')
      /\ Embedder.provider_calls st'
         = (Embedder.provider_calls st
              ++ List.map (List.map (fun t => Embedder._truncate_text t 8000))
                   (Embedder.batches (List.length to_embed)
                      (Z.to_nat batch_size) to_embed))%list
      /\ forall t, List.In t texts ->
           is_Some (Embedder._cache st' !! _cache_key t).
Proof.
  intros key bs provider f texts st Hb Hp. apply embed_batch_ok; assumption.
Qed.

Lemma embed_batch_answers_in_order_witness :
  exists st',
    Embedder.embed_batch (fun t => t) 100 Scenario.demo_provider ["a"; "b"; "a"]
      (Embedder.mk_state {[ "b" := [(1 # 3)%Q] ]} ∅ [])
    = (Ok [Scenario.demo_vector; [(1 # 3)%Q]; Scenario.demo_vector], st')
    /\ Embedder.provider_calls st' = [["a"; "a"]].
Proof.
  destruct (embed_batch_answers_in_order (fun t => t) 100 Scenario.demo_provider
              (fun _ => Scenario.demo_vector) ["a"; "b"; "a"]
              (Embedder.mk_state {[ "b" := [(1 # 3)%Q] ]} ∅ []))
    as (st' & Hr & Hc & _); [lia | reflexivity|].
  exists st'. split; [exact Hr | exact Hc].
Defined.

(** X13 -- [Embedder.embed_batch]: when the key of every text is in
    [self._cache], the vectors come from the cache in the order of the
    texts, no request is sent to the provider and the state is unchanged,
    whatever the provider and the batch size are. *)
Theorem embed_batch_all_cached :
  forall (_cache_key : string -> string) (batch_size : Z)
         (provider : nat -> list string -> outcome (list Embedder.embedding))
         (texts : list string) (st : Embedder.state),
    (forall t, List.In t texts ->
       is_Some (Embedder._cache st !! _cache_key t)) ->
    exists vectors,
      Embedder.embed_batch _cache_key batch_size provider texts st
      = (Ok vectors, st)
      /\ List.Forall2
           (fun t v => Embedder._cache st !! _cache_key t = Some v)
           texts vectors.
Proof.
  intros key bs provider texts st Hall.
  assert (Hmiss : EmbedderAux.misses key (Embedder._cache st) texts = []).
  { unfold EmbedderAux.misses. induction texts as [|t texts IH]; [reflexivity|].
    simpl. destruct (Hall t (or_introl eq_refl)) as [e ->].
    apply IH. intros u Hu. apply Hall. right. exact Hu. }
  exists (List.map (EmbedderAux.answer key (fun _ => []) (Embedder._cache st)) texts).
  split.
  - unfold Embedder.embed_batch, bind at 1, get_state.
    pose proof (check_cache_spec key (fun _ => []) (Embedder._cache st) texts 0)
      as Hs.
    destruct (Embedder.check_cache key (Embedder._cache st) 0 texts)
      as [results to_embed].
    destruct Hs as [Hm Hperm]. rewrite Hmiss in Hm.
    destruct to_embed; [|discriminate].
    simpl List.map in Hperm. rewrite List.app_nil_r in Hperm.
    unfold bind, ret. rewrite (sorted_results key _ _ _ _ Hperm). reflexivity.
  - clear Hmiss. induction texts as [|t texts IH]; simpl; constructor.
    + unfold EmbedderAux.answer.
      destruct (Hall t (or_introl eq_refl)) as [e ->]. reflexivity.
    + apply IH. intros u Hu. apply Hall. right. exact Hu.
Qed.

Lemma embed_batch_all_cached_witness :
  exists vectors,
    Embedder.embed_batch (fun t => t) 0 (fun _ _ => Raise RetryError) ["b"; "b"]
      (Embedder.mk_state {[ "b" := [(1 # 3)%Q] ]} ∅ [])
    = (Ok vectors, Embedder.mk_state {[ "b" := [(1 # 3)%Q] ]} ∅ []).
Proof.
  destruct (embed_batch_all_cached (fun t => t) 0 (fun _ _ => Raise RetryError)
              ["b"; "b"] (Embedder.mk_state {[ "b" := [(1 # 3)%Q] ]} ∅ []))
    as (vectors & H & _).
  - intros t [<-|[<-|[]]]; exists [(1 # 3)%Q]; reflexivity.
  - exists vectors. exact H.
Defined.

Section RequestFacts.

Import Embedder.

Local Open Scope list_scope.

Variable _cache_key : string -> string.
Variable batch_size : Z.
Variable provider : nat -> list string -> outcome (list embedding).

Local Abbreviation trunc := (fun t : string => _truncate_text t 8000).

Lemma length_substring_0 (s : string) : forall n,
  (String.length (String.substring 0 n s) <= n)%nat.
Proof.
  induction s as [|c s IH]; intros [|n]; simpl; try lia.
  specialize (IH n). lia.
Qed.

Lemma truncate_bounded (t : string) : PyStr.len (trunc t) <= 32000.
Proof.
  unfold _truncate_text. change (8000 * 4) with 32000.
  destruct (PyStr.len t >? 32000) eqn:E.
  - unfold PyStr.take, PyStr.len.
    pose proof (length_substring_0 t (Z.to_nat 32000)) as H.
    apply Nat2Z.inj_le in H. rewrite Z2Nat.id in H; [exact H | lia].
  - rewrite Z.gtb_ltb in E. apply Z.ltb_ge in E. exact E.
Qed.

Lemma truncated_batches_ok (texts : list string) (fuel : nat) :
  0 < batch_size ->
  List.Forall (EmbedderAux.request_ok batch_size)
    (List.map (List.map trunc) (batches fuel (Z.to_nat batch_size) texts)).
Proof.
  intros Hb. apply List.Forall_map.
  eapply List.Forall_impl; [|apply batches_bounded].
  intros b Hlen. split.
  - unfold PyStr.len_list. rewrite List.length_map. cbv beta in Hlen. lia.
  - apply List.Forall_map, List.Forall_forall. intros t _.
    apply truncate_bounded.
Qed.

Lemma Forall_prefix {A} (P : A -> Prop) (l : list A) (k : nat) :
  List.Forall P l -> List.Forall P (List.firstn k l).
Proof.
  intros H. rewrite <- (List.firstn_skipn k l) in H.
  apply List.Forall_app in H. tauto.
Qed.

Lemma only_sends_refl st : EmbedderAux.only_sends batch_size st st.
Proof.
  repeat split. exists []. rewrite List.app_nil_r. auto.
Qed.

Lemma only_sends_trans st1 st2 st3 :
  EmbedderAux.only_sends batch_size st1 st2 -> EmbedderAux.only_sends batch_size st2 st3 -> EmbedderAux.only_sends batch_size st1 st3.
Proof.
  intros (Hc1 & Hd1 & n1 & Hn1 & Hf1) (Hc2 & Hd2 & n2 & Hn2 & Hf2).
  split; [congruence|]. split; [congruence|].
  exists (n1 ++ n2). rewrite Hn2, Hn1, List.app_assoc.
  split; [reflexivity | apply List.Forall_app; auto].
Qed.

Lemma attempt_only_sends (texts : list string) (st : state) :
  EmbedderAux.only_sends batch_size st (snd (_embed_batch_attempt batch_size provider texts st)).
Proof.
  unfold _embed_batch_attempt.
  destruct (batch_size =? 0) eqn:E0; [apply only_sends_refl|].
  destruct (batch_size <? 0) eqn:E1; [apply only_sends_refl|].
  apply Z.eqb_neq in E0. apply Z.ltb_ge in E1.
  match goal with
  | |- context [embed_batches _ ?bs ?a ?s] =>
      destruct (embed_batches_calls provider bs a s) as [k ->]
  end.
  repeat split. eexists. split; [reflexivity|].
  apply Forall_prefix, truncated_batches_ok. lia.
Qed.

(** [_embed_batch] only sends requests, and raises nothing but
    [RetryError]. *)
Lemma _embed_batch_only_sends (texts : list string) (st : state) :
  EmbedderAux.only_sends batch_size st (snd (_embed_batch batch_size provider texts st))
  /\ forall e, fst (_embed_batch batch_size provider texts st) = Raise e ->
       e = RetryError.
Proof.
  unfold _embed_batch, try_except.
  pose proof (attempt_only_sends texts st) as H1.
  destruct (_embed_batch_attempt batch_size provider texts st) as [[a|e1] s1];
    [split; [exact H1 | discriminate]|].
  pose proof (attempt_only_sends texts s1) as H2.
  destruct (_embed_batch_attempt batch_size provider texts s1) as [[a|e2] s2];
    simpl in *.
  { split; [eapply only_sends_trans; eauto | discriminate]. }
  pose proof (attempt_only_sends texts s2) as H3.
  destruct (_embed_batch_attempt batch_size provider texts s2) as [[a|e3] s3];
    simpl in *.
  { split; [eapply only_sends_trans; eauto using only_sends_trans | discriminate]. }
  unfold raise. simpl.
  split; [eapply only_sends_trans; eauto using only_sends_trans|].
  intros e [= <-]. reflexivity.
Qed.

End RequestFacts.

(** X14 -- [Embedder.embed_batch] is all or nothing: when it raises, the
    exception is the [RetryError] of the retry decorator, and neither
    [self._cache] nor the cache directory has changed, so no vector of a
    failed call is kept. *)
Theorem embed_batch_failure_caches_nothing :
  forall (_cache_key : string -> string) (batch_size : Z)
         (provider : nat -> list string -> outcome (list Embedder.embedding))
         (texts : list string) (st st' : Embedder.state) (e : exn),
    Embedder.embed_batch _cache_key batch_size provider texts st = (Raise e, st') ->
    e = RetryError
    /\ Embedder._cache st' = Embedder._cache st
    /\ Embedder.disk st' = Embedder.disk st.
Proof.
  intros key bs provider texts st st' e.
  unfold Embedder.embed_batch, bind at 1, get_state.
  destruct (Embedder.check_cache key (Embedder._cache st) 0 texts)
    as [results to_embed].
  destruct to_embed as [|p to_embed]; [unfold bind, ret; discriminate|].
  unfold bind at 1. unfold bind at 1.
  destruct (_embed_batch_only_sends bs provider
              (List.map snd (p :: to_embed)) st) as [(Hc & Hd & _) He].
  destruct (Embedder._embed_batch bs provider (List.map snd (p :: to_embed)) st)
    as [[embs|e1] s1].
  - match goal with
    | |- context [Embedder.store_new _ ?ps ?r ?s] =>
        destruct (store_new_spec key ps r s) as (s2 & -> & _)
    end.
    unfold ret. discriminate.
  - intros [= <- <-]. simpl in *. split; [apply He; reflexivity | auto].
Qed.

Lemma embed_batch_failure_caches_nothing_witness :
  RetryError = RetryError
  /\ Embedder._cache
       (Embedder.mk_state ∅ ∅ [["a"]; ["a"]; ["a"]]) = ∅
  /\ Embedder.disk
       (Embedder.mk_state ∅ ∅ [["a"]; ["a"]; ["a"]]) = ∅.
Proof.
  apply (embed_batch_failure_caches_nothing (fun t => t) 100
           (fun _ _ => Raise (OtherError "service unavailable")) ["a"]
           Scenario.fresh_embedder).
  reflexivity.
Defined.

(** X15 -- [Embedder.embed_batch] and [Embedder.embed]: whatever the
    provider answers, every request sent holds at most [batch_size] texts,
    each of at most 32000 characters; requests are only added to those made
    before. *)
Theorem requests_respect_limits :
  forall (_cache_key : string -> string) (batch_size : Z)
         (provider : nat -> list string -> outcome (list Embedder.embedding))
         (texts : list string) (text : string) (st : Embedder.state),
    (exists new,
       Embedder.provider_calls
         (snd (Embedder.embed_batch _cache_key batch_size provider texts st))
       = (Embedder.provider_calls st ++ new)%list
       /\ List.Forall (EmbedderAux.request_ok batch_size) new)
    /\ (exists new,
          Embedder.provider_calls
            (snd (Embedder.embed _cache_key batch_size provider text st))
          = (Embedder.provider_calls st ++ new)%list
          /\ List.Forall (EmbedderAux.request_ok batch_size) new).
Proof.
  intros key bs provider texts text st. split.
  - unfold Embedder.embed_batch, bind at 1, get_state.
    destruct (Embedder.check_cache key (Embedder._cache st) 0 texts)
      as [results to_embed].
    destruct to_embed as [|p to_embed].
    { exists []. unfold bind, ret. simpl. rewrite List.app_nil_r. auto. }
    unfold bind at 1. unfold bind at 1.
    destruct (_embed_batch_only_sends bs provider
                (List.map snd (p :: to_embed)) st) as [(_ & _ & Hs) _].
    destruct (Embedder._embed_batch bs provider (List.map snd (p :: to_embed)) st)
      as [[embs|e1] s1]; [|exact Hs].
    match goal with
    | |- context [Embedder.store_new _ ?ps ?r ?s] =>
        destruct (store_new_spec key ps r s) as (s2 & -> & Hc & _)
    end.
    unfold ret. simpl in *. rewrite Hc. exact Hs.
  - unfold Embedder.embed, bind at 1, get_state.
    destruct (Embedder._cache st !! key text) as [v|].
    { exists []. unfold ret. simpl. rewrite List.app_nil_r. auto. }
    unfold bind at 1.
    destruct (_embed_batch_only_sends bs provider [text] st) as [(_ & _ & Hs) _].
    destruct (Embedder._embed_batch bs provider [text] st)
      as [[[|v embs]|e1] s1]; exact Hs.
Qed.

(** X16 -- [Embedder.embed_batch] with a provider that fails on every
    request and at least one uncached text: [RetryError] is raised after
    exactly three requests, each of them the first batch of the uncached
    texts. *)
Theorem embed_batch_gives_up_after_three :
  forall (_cache_key : string -> string) (batch_size : Z)
         (provider : nat -> list string -> outcome (list Embedder.embedding))
         (texts : list string) (st : Embedder.state),
    0 < batch_size ->
    (forall n batch, exists e, provider n batch = Raise e) ->
    let to_embed := EmbedderAux.misses _cache_key (Embedder._cache st) texts in
    to_embed <> [] ->
    Embedder.embed_batch _cache_key batch_size provider texts st
    = (Raise RetryError,
       Embedder.mk_state (Embedder._cache st) (Embedder.disk st)
         (Embedder.provider_calls st
            ++ List.repeat
                 (List.map (fun t => Embedder._truncate_text t 8000)
                    (List.firstn (Z.to_nat batch_size) to_embed)) 3)%list).
Proof.
  intros key bs provider texts st Hb Hfail to_embed Hne. subst to_embed.
  assert (Hatt : forall l s, l <> [] ->
            exists e,
              Embedder._embed_batch_attempt bs provider l s
              = (Raise e,
                 Embedder.mk_state (Embedder._cache s) (Embedder.disk s)
                   (Embedder.provider_calls s
                      ++ [List.map (fun t => Embedder._truncate_text t 8000)
                            (List.firstn (Z.to_nat bs) l)])%list)).
  { intros l s Hl. unfold Embedder._embed_batch_attempt.
    destruct (bs =? 0) eqn:E0; [apply Z.eqb_eq in E0; lia|].
    destruct (bs <? 0) eqn:E1; [apply Z.ltb_lt in E1; lia|].
    destruct l as [|t l]; [congruence|].
    cbn [List.length Embedder.batches Embedder.embed_batches].
    unfold bind, Embedder.call_provider.
    match goal with
    | |- context [provider ?n ?b] => destruct (Hfail n b) as [e ->]
    end.
    exists e. reflexivity. }
  unfold Embedder.embed_batch, bind at 1, get_state.
  pose proof (check_cache_spec key (fun _ => []) (Embedder._cache st) texts 0)
    as Hs.
  destruct (Embedder.check_cache key (Embedder._cache st) 0 texts)
    as [results to_embed].
  destruct Hs as [Hm _]. rewrite <- Hm in *.
  destruct to_embed as [|p to_embed]; [exfalso; apply Hne; reflexivity|].
  remember (List.map snd (p :: to_embed)) as l eqn:El.
  unfold bind at 1. unfold bind at 1.
  unfold Embedder._embed_batch, try_except.
  destruct (Hatt l st Hne) as [e1 ->].
  match goal with
  | |- context [Embedder._embed_batch_attempt _ _ _ ?s] =>
      destruct (Hatt l s Hne) as [e2 ->]
  end.
  match goal with
  | |- context [Embedder._embed_batch_attempt _ _ _ ?s] =>
      destruct (Hatt l s Hne) as [e3 ->]
  end.
  unfold raise. cbn [Embedder._cache Embedder.disk Embedder.provider_calls].
  simpl List.repeat. rewrite <- !List.app_assoc. reflexivity.
Qed.

Lemma embed_batch_gives_up_after_three_witness :
  Embedder.embed_batch (fun t => t) 2
    (fun _ _ => Raise (OtherError "service unavailable")) ["a"; "b"; "c"]
    Scenario.fresh_embedder
  = (Raise RetryError,
     Embedder.mk_state ∅ ∅ [["a"; "b"]; ["a"; "b"]; ["a"; "b"]]).
Proof.
  apply (embed_batch_gives_up_after_three (fun t => t) 2
           (fun _ _ => Raise (OtherError "service unavailable")) ["a"; "b"; "c"]
           Scenario.fresh_embedder).
  - lia.
  - intros n batch. eexists. reflexivity.
  - discriminate.
Defined.

(* ===================================================================== *)
(** * Further properties of the Gmail indexer *)
(* ===================================================================== *)

Section EdgesFacts.

Import Gmail GmailAux.

Lemma edges_ret {A} (a : A) : keeps_edges (ret a).
Proof. intros st H. auto. Qed.

Lemma edges_raise {A} (e : exn) : keeps_edges (@raise run_state A e).
Proof. intros st H. auto. Qed.

Lemma edges_get : keeps_edges (@get_state run_state).
Proof. intros st H. auto. Qed.

Lemma edges_bind {A B} (c : M run_state A) (k : A -> M run_state B) :
  keeps_edges c -> (forall a, keeps_edges (k a)) -> keeps_edges (bind c k).
Proof.
  intros Hc Hk st H. unfold bind. specialize (Hc st H).
  destruct (c st) as [[a|e] s1]; simpl in Hc; [|exact Hc].
  destruct Hc as [H1 E1]. destruct (Hk a s1 H1) as [H2 E2].
  split; [exact H2 | congruence].
Qed.

Lemma edges_try {A} (c : M run_state A) (h : exn -> M run_state A) :
  keeps_edges c -> (forall e, keeps_edges (h e)) -> keeps_edges (try_except c h).
Proof.
  intros Hc Hh st H. unfold try_except. specialize (Hc st H).
  destruct (c st) as [[a|e] s1]; simpl in Hc; [exact Hc|].
  destruct Hc as [H1 E1]. destruct (Hh e s1 H1) as [H2 E2].
  split; [exact H2 | congruence].
Qed.

Lemma edges_incr key : keeps_edges (incr key).
Proof.
  intros st H. unfold incr. destruct (stats st !! key); simpl; auto.
Qed.

Lemma edges_read key : keeps_edges (read key).
Proof.
  intros st H. unfold read. destruct (stats st !! key); simpl; auto.
Qed.

Lemma edges_new_stats s : keeps_edges (new_stats s).
Proof. intros st H. simpl. auto. Qed.

Lemma edges_on_kg {A} (c : M KG.db A) : db_keeps_edges c -> keeps_edges (on_kg c).
Proof.
  intros Hc st H. unfold on_kg. specialize (Hc (kg st) H).
  destruct (c (kg st)) as [r d]. exact Hc.
Qed.

(** The calls the indexer makes on the graph. *)
Lemma edges_upsert_person now email t n s sa e m :
  db_keeps_edges (KG.upsert_entity now ("person:" ++ email)%string t n s sa e m).
Proof.
  intros d H. unfold no_gmail_entity in *.
  unfold KG.upsert_entity, KG._connection, bind, get_state, KG.set_entities,
    KG._log_change, ret.
  destruct (KG.select_entity d _) as [row|]; simpl; (split; [|reflexivity]).
  - apply List.Forall_map. eapply List.Forall_impl; [|exact H].
    intros r Hr. cbv beta in *. destruct (String.eqb _ _); exact Hr.
  - apply List.Forall_app. split; [exact H|].
    constructor; [reflexivity | constructor].
Qed.

Lemma no_gmail_entity_id (d : KG.db) (rest : string) :
  no_gmail_entity d -> KG.is_entity_id d ("gmail:" ++ rest)%string = false.
Proof.
  intros H. unfold KG.is_entity_id.
  destruct (List.existsb _ _) eqn:E; [|reflexivity].
  apply List.existsb_exists in E. destruct E as (r & Hin & Hr).
  apply String.eqb_eq in Hr.
  unfold no_gmail_entity in H. rewrite List.Forall_forall in H.
  specialize (H r Hin). rewrite Hr in H. simpl in H.
  destruct rest; discriminate.
Qed.

Lemma edges_add_from_mail now rest ft t tty rel m :
  db_keeps_edges (KG.add_relationship now ("gmail:" ++ rest)%string ft t tty rel m).
Proof.
  intros d H.
  unfold KG.add_relationship, KG._connection, try_except, bind,
    KG.insert_relationship, ret, raise.
  rewrite (no_gmail_entity_id d rest H). simpl. auto.
Qed.

Lemma edges_upsert_content now i t s sa ti b si u ts m :
  db_keeps_edges (KG.upsert_content now i t s sa ti b si u ts m).
Proof.
  intros d H.
  unfold KG.upsert_content, KG._connection, bind, get_state, KG.set_content,
    KG._log_change, ret.
  destruct (KG.select_content d i); simpl; auto.
Qed.

Lemma edges_delete_content now i : db_keeps_edges (KG.delete_content now i).
Proof.
  intros d H.
  unfold KG.delete_content, KG._connection, bind, get_state, KG.set_content,
    KG._log_change, ret. simpl.
  destruct (0 <? _)%nat; simpl; auto.
Qed.

Lemma edges_get_last_sync s a : db_keeps_edges (KG.get_last_sync s a).
Proof. intros d H. simpl. auto. Qed.

Lemma edges_set_last_sync s a l t m : db_keeps_edges (KG.set_last_sync s a l t m).
Proof. intros d H. simpl. auto. Qed.

Variable message : Type.
Variable GOOGLE_ACCOUNTS : list string.
Variable SYNC_BATCH_SIZE : Z.
Variable GmailClient : string -> outcome unit.
Variable list_messages : string -> string -> Z -> option string -> outcome list_response.
Variable get_message : string -> string -> outcome (option message).
Variable get_profile : string -> outcome (option string).
Variable list_history : string -> string -> outcome history_response.
Variable parse_message : message -> outcome parsed_message.
Variable findall_named : string -> list (string * string).
Variable findall_plain : string -> list string.
Variable now : KG.sqltime.
Variable utcnow : KG.datetime.

Lemma edges_call {A} (r : outcome A) : keeps_edges (call r).
Proof. intros st H. auto. Qed.

Create HintDb edges.
#[local] Hint Resolve edges_ret edges_raise edges_get edges_incr edges_read
  edges_new_stats edges_call edges_on_kg edges_upsert_person edges_add_from_mail
  edges_upsert_content edges_delete_content edges_get_last_sync
  edges_set_last_sync : edges.

(** Walks through the binds, handlers and case distinctions of a
    computation; what is left are the calls of other functions. *)
Ltac edges :=
  lazymatch goal with
  | |- keeps_edges (bind _ _) => apply edges_bind; [edges | intros ?; edges]
  | |- keeps_edges (try_except _ _) => apply edges_try; [edges | intros ?; edges]
  | |- keeps_edges (match ?x with _ => _ end) => destruct x; edges
  | |- _ => try solve [auto with edges]
  end.

Lemma edges_index_people account rest people :
  keeps_edges (index_people now account ("gmail:" ++ rest)%string people).
Proof.
  induction people as [|p people IH]; cbn [index_people]; edges.
Qed.
#[local] Hint Resolve edges_index_people : edges.

Lemma edges_index_message account msg :
  keeps_edges (_index_message message parse_message findall_named findall_plain
                 now account msg).
Proof.
  unfold _index_message. edges.
Qed.
#[local] Hint Resolve edges_index_message : edges.

Lemma edges_index_page account msg_ids :
  keeps_edges (index_page message get_message parse_message findall_named
                 findall_plain now account msg_ids).
Proof.
  induction msg_ids as [|m rest IH]; cbn [index_page]; edges.
Qed.
#[local] Hint Resolve edges_index_page : edges.

Lemma edges_index_all_loop fuel : forall account query max_messages page_token,
  keeps_edges (index_all_loop message SYNC_BATCH_SIZE list_messages get_message
                 parse_message findall_named findall_plain now
                 fuel account query max_messages page_token).
Proof.
  induction fuel as [|fuel IH]; intros account query max_messages page_token;
    cbn [index_all_loop]; edges.
Qed.
#[local] Hint Resolve edges_index_all_loop : edges.

Lemma edges_index_all fuel account max_messages labels :
  keeps_edges (Gmail.index_all message GOOGLE_ACCOUNTS SYNC_BATCH_SIZE GmailClient
                 list_messages get_message get_profile parse_message
                 findall_named findall_plain now utcnow
                 fuel account max_messages labels).
Proof.
  unfold Gmail.index_all. edges.
Qed.
#[local] Hint Resolve edges_index_all : edges.

Lemma edges_index_added account msg_ids :
  keeps_edges (index_added message get_message parse_message findall_named
                 findall_plain now account msg_ids).
Proof.
  induction msg_ids as [|m rest IH]; cbn [index_added]; edges.
Qed.
#[local] Hint Resolve edges_index_added : edges.

Lemma edges_index_deleted account msg_ids :
  keeps_edges (index_deleted now account msg_ids).
Proof.
  induction msg_ids as [|m rest IH]; cbn [index_deleted]; edges.
Qed.
#[local] Hint Resolve edges_index_deleted : edges.

Lemma edges_index_history account records :
  keeps_edges (index_history message get_message parse_message findall_named
                 findall_plain now account records).
Proof.
  induction records as [|h rest IH]; cbn [index_history]; edges.
Qed.
#[local] Hint Resolve edges_index_history : edges.

Lemma edges_index_delta fuel account :
  keeps_edges (Gmail.index_delta message GOOGLE_ACCOUNTS SYNC_BATCH_SIZE GmailClient
                 list_messages get_message get_profile list_history parse_message
                 findall_named findall_plain now utcnow fuel account).
Proof.
  unfold Gmail.index_delta. edges.
Qed.

End EdgesFacts.

(** X17 -- [GmailIndexer.index_all] and [GmailIndexer.index_delta] store no
    relationship: the content id of a message, [gmail:<account>:<id>], is
    not the id of an entity, so the foreign key of [relationships.from_id]
    rejects every edge from a message to a person and [add_relationship]
    answers [False]. In a graph where no entity id begins with [gmail:], the
    [relationships] table after a full or a delta run is the one before. *)
Theorem gmail_sync_stores_no_relationship :
  forall (message : Type) (GOOGLE_ACCOUNTS : list string) (SYNC_BATCH_SIZE : Z)
         (GmailClient : string -> outcome unit)
         (list_messages :
            string -> string -> Z -> option string -> outcome Gmail.list_response)
         (get_message : string -> string -> outcome (option message))
         (get_profile : string -> outcome (option string))
         (list_history : string -> string -> outcome Gmail.history_response)
         (parse_message : message -> outcome Gmail.parsed_message)
         (findall_named : string -> list (string * string))
         (findall_plain : string -> list string)
         (now : KG.sqltime) (utcnow : KG.datetime)
         (fuel : nat) (account : string) (max_messages : Z)
         (labels : option (list string)) (st : Gmail.run_state),
    GmailAux.no_gmail_entity (Gmail.kg st) ->
    KG.relationships
      (Gmail.kg
         (snd (Gmail.index_all message GOOGLE_ACCOUNTS SYNC_BATCH_SIZE GmailClient
                 list_messages get_message get_profile parse_message findall_named
                 findall_plain now utcnow fuel account max_messages labels st)))
    = KG.relationships (Gmail.kg st)
    /\ KG.relationships
         (Gmail.kg
            (snd (Gmail.index_delta message GOOGLE_ACCOUNTS SYNC_BATCH_SIZE
                    GmailClient list_messages get_message get_profile list_history
                    parse_message findall_named findall_plain now utcnow
                    fuel account st)))
       = KG.relationships (Gmail.kg st).
Proof.
  intros message GOOGLE_ACCOUNTS SYNC_BATCH_SIZE GmailClient list_messages
    get_message get_profile list_history parse_message findall_named
    findall_plain now utcnow fuel account max_messages labels st H.
  split.
  - apply (edges_index_all message GOOGLE_ACCOUNTS SYNC_BATCH_SIZE GmailClient
             list_messages get_message get_profile parse_message findall_named
             findall_plain now utcnow fuel account max_messages labels st H).
  - apply (edges_index_delta message GOOGLE_ACCOUNTS SYNC_BATCH_SIZE GmailClient
             list_messages get_message get_profile list_history parse_message
             findall_named findall_plain now utcnow fuel account st H).
Qed.

Lemma gmail_sync_stores_no_relationship_witness :
  KG.relationships
    (Gmail.kg (snd (Scenario.g_index_all 1%nat "acct" 10000 None Scenario.g_start)))
  = [].
Proof.
  refine (proj1
    (gmail_sync_stores_no_relationship Gmail.parsed_message Scenario.g_accounts 100
       Scenario.g_client Scenario.g_list_messages Scenario.g_get_message
       Scenario.g_get_profile Scenario.g_list_history Scenario.g_parse_message
       Scenario.g_findall_named Scenario.g_findall_plain Scenario.t0
       "2024-01-02T00:00:00+00:00" 1%nat "acct" 10000 None Scenario.g_start _)).
  constructor.
Defined.

Section DeltaFacts.

Import Gmail GmailAux.

Lemma delta_stats_keys : dom delta_stats = delta_keys.
Proof.
  unfold delta_stats, delta_keys. rewrite !dom_insert_L, dom_singleton_L.
  set_solver.
Qed.

Lemma upsert_entity_keeps_content now i t n s sa e m d :
  exists b d',
    KG.upsert_entity now i t n s sa e m d = (Ok b, d')
    /\ KG.content d' = KG.content d.
Proof.
  unfold KG.upsert_entity, KG._connection, bind, get_state, KG.set_entities,
    KG._log_change, ret.
  destruct (KG.select_entity d i); simpl; eauto.
Qed.

Lemma add_relationship_keeps_content now f ft t tty rel m d :
  exists b d',
    KG.add_relationship now f ft t tty rel m d = (Ok b, d')
    /\ KG.content d' = KG.content d.
Proof.
  unfold KG.add_relationship, KG._connection, try_except, bind,
    KG.insert_relationship, ret, raise.
  destruct (KG.is_entity_id d f); simpl; eauto.
  destruct (KG.is_entity_id d t); simpl; eauto.
  destruct (List.existsb _ _); simpl; eauto.
Qed.

Lemma set_then_get_last_sync s a t tok md d :
  let d' := snd (KG.set_last_sync s a t tok md d) in
  KG.set_last_sync s a t tok md d = (Ok tt, d')
  /\ KG.get_last_sync s a d'
     = (Ok (Some (KG.mk_sync_state s a (Some (KG.isoformat t)) tok
                    (KG.metadata_json md))), d').
Proof.
  cbv zeta.
  unfold KG.set_last_sync, KG.get_last_sync, KG._connection, bind, get_state,
    put_state, ret. simpl.
  split; [reflexivity|]. f_equal. f_equal.
  set (hit := fun r => String.eqb (KG.s_source r) s && String.eqb (KG.s_account r) a).
  set (row := KG.mk_sync_state s a (Some (KG.isoformat t)) tok (KG.metadata_json md)).
  assert (Hrow : hit row = true).
  { unfold hit, row. simpl. rewrite !String.eqb_refl. reflexivity. }
  destruct (List.existsb hit (KG.sync_state d)) eqn:E.
  - apply find_overwrite_hit; assumption.
  - apply find_snoc_hit; assumption.
Qed.

Variable message : Type.
Variable GOOGLE_ACCOUNTS : list string.
Variable SYNC_BATCH_SIZE : Z.
Variable GmailClient : string -> outcome unit.
Variable list_messages : string -> string -> Z -> option string -> outcome list_response.
Variable get_message : string -> string -> outcome (option message).
Variable get_profile : string -> outcome (option string).
Variable list_history : string -> string -> outcome history_response.
Variable parse_message : message -> outcome parsed_message.
Variable findall_named : string -> list (string * string).
Variable findall_plain : string -> list string.
Variable now : KG.sqltime.
Variable utcnow : KG.datetime.

Local Abbreviation _index_message :=
  (Gmail._index_message message parse_message findall_named findall_plain now).
Local Abbreviation index_added :=
  (Gmail.index_added message get_message parse_message findall_named
     findall_plain now).
Local Abbreviation index_history :=
  (Gmail.index_history message get_message parse_message findall_named
     findall_plain now).
Local Abbreviation index_all :=
  (Gmail.index_all message GOOGLE_ACCOUNTS SYNC_BATCH_SIZE GmailClient list_messages
     get_message get_profile parse_message findall_named findall_plain now utcnow).
Local Abbreviation index_delta :=
  (Gmail.index_delta message GOOGLE_ACCOUNTS SYNC_BATCH_SIZE GmailClient list_messages
     get_message get_profile list_history parse_message findall_named
     findall_plain now utcnow).

(** With the statistics of a delta run, the loop over the people of a
    message leaves the statistics and the [content] table alone, and stops
    with a [KeyError] at the first person that is new. *)
Lemma index_people_delta account content_id people : forall st,
  stats st !! "people_extracted" = None ->
  exists r st1,
    index_people now account content_id people st = (r, st1)
    /\ stats st1 = stats st
    /\ KG.content (kg st1) = KG.content (kg st)
    /\ (r = Ok tt \/ exists k, r = Raise (KeyError k)).
Proof.
  induction people as [|p people IH]; intros st Hs.
  - exists (Ok tt), st. simpl. unfold ret. auto.
  - cbn [index_people]. unfold bind at 1. unfold on_kg at 1.
    match goal with
    | |- context [KG.upsert_entity ?a ?b ?c ?d ?e ?f ?g ?h (kg st)] =>
        destruct (upsert_entity_keeps_content a b c d e f g h (kg st))
          as (b1 & d1 & -> & Hc1)
    end.
    unfold bind at 1.
    destruct b1.
    + unfold incr at 1. cbn [stats kg]. rewrite Hs.
      do 2 eexists. split; [reflexivity|]. cbn [stats kg]. eauto 6.
    + unfold ret at 1. unfold bind at 1. unfold on_kg at 1. cbn [stats kg].
      match goal with
      | |- context [KG.add_relationship ?a ?b ?c ?d ?e ?f ?g d1] =>
          destruct (add_relationship_keeps_content a b c d e f g d1)
            as (b2 & d2 & -> & Hc2)
      end.
      destruct (IH (mk_run d2 (stats st)) Hs) as (r & st1 & -> & Hst & Hct & Hr).
      exists r, st1. cbn [stats kg] in *.
      split; [reflexivity|]. split; [exact Hst|].
      split; [congruence | exact Hr].
Qed.

(** With the statistics of a delta run, [_index_message] of a message that
    is not in the graph yet ends in a [KeyError]. *)
Lemma index_message_delta account msg parsed st :
  parse_message msg = Ok parsed ->
  stats st !! "people_extracted" = None ->
  stats st !! "messages_indexed" = None ->
  KG.select_content (kg st) ("gmail:" ++ account ++ ":" ++ p_id parsed)%string = None ->
  exists k st1,
    _index_message account msg st = (Raise (KeyError k), st1)
    /\ stats st1 = stats st.
Proof.
  intros Hp Hpe Hmi Hnew.
  unfold Gmail._index_message. unfold bind at 1. unfold call at 1. rewrite Hp.
  unfold bind at 1.
  destruct (index_people_delta account
              ("gmail:" ++ account ++ ":" ++ p_id parsed)%string
              (_extract_people findall_named findall_plain parsed) st Hpe)
    as (r & st1 & -> & Hst & Hct & [->|[k ->]]).
  - unfold bind at 1. unfold on_kg at 1.
    unfold KG.upsert_content, KG._connection, bind at 1, get_state.
    unfold KG.select_content in *. rewrite Hct, Hnew.
    unfold bind, KG.set_content, KG._log_change, ret. cbn [stats kg].
    unfold incr. cbn [stats kg]. rewrite Hst, Hmi.
    do 2 eexists. split; [reflexivity|]. reflexivity.
  - exists k, st1. auto.
Qed.

Lemma index_all_ignores_stats fuel account max_messages labels st s :
  GmailClient account = Ok tt ->
  List.In account GOOGLE_ACCOUNTS ->
  index_all fuel account max_messages labels (mk_run (kg st) s)
  = index_all fuel account max_messages labels st.
Proof.
  intros Hc Hacc. unfold Gmail.index_all.
  rewrite bool_decide_eq_true_2 by (apply list_elem_of_In, Hacc).
  cbn [negb]. unfold bind at 1 3. unfold call at 1 3. rewrite Hc.
  unfold bind at 1 3. unfold new_stats at 1 2. cbn [kg stats].
  reflexivity.
Qed.

End DeltaFacts.

Section DeltaRun.

Import Gmail GmailAux.

Variable message : Type.
Variable get_message : string -> string -> outcome (option message).
Variable parse_message : message -> outcome parsed_message.
Variable findall_named : string -> list (string * string).
Variable findall_plain : string -> list string.
Variable now : KG.sqltime.

Lemma keeps_index_added account msg_ids :
  keeps_keys (index_added message get_message parse_message findall_named
                findall_plain now account msg_ids).
Proof.
  induction msg_ids as [|m rest IH]; cbn [index_added].
  - apply keeps_ret.
  - apply keeps_bind; [|intros _; exact IH].
    apply keeps_try; [|intros e; apply keeps_incr].
    apply keeps_bind; [apply keeps_call|].
    intros [msg|]; [|apply keeps_ret].
    apply keeps_bind; [apply keeps_index_message | intros _; apply keeps_incr].
Qed.

Lemma index_added_ok account msg_ids : forall st,
  "errors" ∈ dom (stats st) ->
  exists st',
    index_added message get_message parse_message findall_named findall_plain now
      account msg_ids st = (Ok tt, st')
    /\ dom (stats st') = dom (stats st).
Proof.
  induction msg_ids as [|m rest IH]; intros st He; cbn [index_added];
    [unfold ret; eauto|].
  unfold bind at 1.
  match goal with
  | |- context [try_except ?c _ st] =>
      destruct (try_incr_errors_ok c st) as (s1 & E & Hd); [|exact He|]
  end.
  - apply keeps_bind; [apply keeps_call|].
    intros [msg|]; [|apply keeps_ret].
    apply keeps_bind; [apply keeps_index_message | intros _; apply keeps_incr].
  - rewrite E. destruct (IH s1) as (s2 & E2 & Hd2); [rewrite Hd; exact He|].
    exists s2. split; [exact E2 | congruence].
Qed.

Lemma index_deleted_ok account msg_ids : forall st,
  "messages_deleted" ∈ dom (stats st) ->
  exists st',
    index_deleted now account msg_ids st = (Ok tt, st')
    /\ dom (stats st') = dom (stats st).
Proof.
  induction msg_ids as [|m rest IH]; intros st He; cbn [index_deleted];
    [unfold ret; eauto|].
  unfold bind at 1. unfold on_kg at 1.
  destruct (KG.delete_content _ _ _) as [[b|e] d1] eqn:E.
  - unfold bind at 1. destruct b.
    + destruct (incr_ok "messages_deleted" (mk_run d1 (stats st)) He)
        as (s1 & E1).
      rewrite E1. pose proof (keeps_incr _ _ _ _ E1) as Hd. cbn [stats] in Hd.
      destruct (IH s1) as (s2 & E2 & Hd2); [rewrite Hd; exact He|].
      exists s2. split; [exact E2 | congruence].
    + unfold ret at 1. destruct (IH (mk_run d1 (stats st)) He) as (s2 & E2 & Hd2).
      exists s2. split; [exact E2 | exact Hd2].
  - exfalso. revert E.
    unfold KG.delete_content, KG._connection, bind, get_state, KG.set_content,
      KG._log_change, ret. simpl. destruct (0 <? _)%nat; discriminate.
Qed.

Lemma index_history_ok account records : forall st,
  dom (stats st) = delta_keys ->
  exists st',
    index_history message get_message parse_message findall_named findall_plain
      now account records st = (Ok tt, st')
    /\ dom (stats st') = delta_keys.
Proof.
  assert (He : "errors" ∈ delta_keys)
    by (unfold delta_keys; rewrite !elem_of_union, !elem_of_singleton; auto).
  assert (Hm : "messages_deleted" ∈ delta_keys)
    by (unfold delta_keys; rewrite !elem_of_union, !elem_of_singleton; auto).
  induction records as [|h rest IH]; intros st Hd; cbn [index_history];
    [unfold ret; eauto|].
  unfold bind at 1.
  destruct (index_added_ok account (messagesAdded h) st) as (s1 & -> & Hd1);
    [rewrite Hd; exact He|].
  unfold bind at 1.
  destruct (index_deleted_ok account (messagesDeleted h) s1) as (s2 & -> & Hd2);
    [rewrite Hd1, Hd; exact Hm|].
  apply IH. congruence.
Qed.

End DeltaRun.

(** X18 -- [GmailIndexer.index_delta], the loop over [messagesAdded]: a
    message that is not in the graph yet is counted under [errors], not
    under [messages_added]. [_index_message] increments
    [stats["messages_indexed"]] (or [stats["people_extracted"]]), keys the
    statistics of a delta run do not have; the [KeyError] is caught by the
    loop, which adds one to [errors] and goes on with the next message. *)
Theorem delta_counts_new_message_as_error :
  forall (message : Type)
         (get_message : string -> string -> outcome (option message))
         (parse_message : message -> outcome Gmail.parsed_message)
         (findall_named : string -> list (string * string))
         (findall_plain : string -> list string)
         (now : KG.sqltime)
         (account msg_id : string) (rest : list string) (msg : message)
         (parsed : Gmail.parsed_message) (st : Gmail.run_state) (n : Z),
    let index_added :=
      Gmail.index_added message get_message parse_message findall_named
        findall_plain now in
    get_message account msg_id = Ok (Some msg) ->
    parse_message msg = Ok parsed ->
    dom (Gmail.stats st) = GmailAux.delta_keys ->
    Gmail.stats st !! "errors" = Some n ->
    fst (KG.get_content ("gmail:" ++ account ++ ":" ++ Gmail.p_id parsed)%string
           (Gmail.kg st)) = Ok None ->
    exists st1,
      index_added account (msg_id :: rest) st = index_added account rest st1
      /\ Gmail.stats st1 = <["errors" := n + 1]> (Gmail.stats st).
Proof.
  intros message get_message parse_message findall_named findall_plain now
    account msg_id rest msg parsed st n index_added Hg Hp Hd He Hnew.
  subst index_added.
  assert (Hpe : Gmail.stats st !! "people_extracted" = None).
  { apply not_elem_of_dom. rewrite Hd. unfold GmailAux.delta_keys.
    rewrite !elem_of_union, !elem_of_singleton. intuition discriminate. }
  assert (Hmi : Gmail.stats st !! "messages_indexed" = None).
  { apply not_elem_of_dom. rewrite Hd. unfold GmailAux.delta_keys.
    rewrite !elem_of_union, !elem_of_singleton. intuition discriminate. }
  assert (Hsel : KG.select_content (Gmail.kg st)
                   ("gmail:" ++ account ++ ":" ++ Gmail.p_id parsed)%string = None).
  { revert Hnew. unfold KG.get_content, KG._connection, bind, get_state, ret.
    simpl. congruence. }
  destruct (index_message_delta message parse_message findall_named findall_plain
              now account msg parsed st Hp Hpe Hmi Hsel) as (k & s1 & E & Hs1).
  cbn [Gmail.index_added]. unfold bind at 1, try_except.
  unfold bind at 1. unfold Gmail.call at 1. rewrite Hg.
  unfold bind at 1. rewrite E.
  unfold Gmail.incr at 1. rewrite Hs1, He.
  eexists. split; [reflexivity|]. reflexivity.
Qed.

Lemma delta_counts_new_message_as_error_witness :
  exists st1,
    Scenario.g_index_added "acct" ["m1"] (Gmail.mk_run KG.empty_db Gmail.delta_stats)
    = Scenario.g_index_added "acct" [] st1
    /\ Gmail.stats st1 = <["errors" := 0 + 1]> Gmail.delta_stats.
Proof.
  apply (delta_counts_new_message_as_error Gmail.parsed_message
           Scenario.g_get_message Scenario.g_parse_message Scenario.g_findall_named
           Scenario.g_findall_plain Scenario.t0 "acct" "m1" [] Scenario.g_message
           Scenario.g_message (Gmail.mk_run KG.empty_db Gmail.delta_stats) 0).
  - reflexivity.
  - reflexivity.
  - apply delta_stats_keys.
  - reflexivity.
  - reflexivity.
Defined.

(** X19 -- [GmailIndexer.index_delta] when [list_history] fails: if the
    text of the exception contains [historyId], the run is a full
    [index_all(account)], with the same result and effects; otherwise it
    returns the delta statistics with [errors] at 1 and leaves the graph,
    and with it the stored history id, as it was. *)
Theorem delta_history_failure :
  forall (message : Type) (GOOGLE_ACCOUNTS : list string) (SYNC_BATCH_SIZE : Z)
         (GmailClient : string -> outcome unit)
         (list_messages :
            string -> string -> Z -> option string -> outcome Gmail.list_response)
         (get_message : string -> string -> outcome (option message))
         (get_profile : string -> outcome (option string))
         (list_history : string -> string -> outcome Gmail.history_response)
         (parse_message : message -> outcome Gmail.parsed_message)
         (findall_named : string -> list (string * string))
         (findall_plain : string -> list string)
         (now : KG.sqltime) (utcnow : KG.datetime)
         (fuel : nat) (account : string) (st : Gmail.run_state)
         (row : KG.sync_state_row) (start_history_id : string) (e : exn),
    let index_delta :=
      Gmail.index_delta message GOOGLE_ACCOUNTS SYNC_BATCH_SIZE GmailClient list_messages
        get_message get_profile list_history parse_message findall_named
        findall_plain now utcnow in
    let index_all :=
      Gmail.index_all message GOOGLE_ACCOUNTS SYNC_BATCH_SIZE GmailClient list_messages
        get_message get_profile parse_message findall_named findall_plain
        now utcnow in
    List.In account GOOGLE_ACCOUNTS ->
    GmailClient account = Ok tt ->
    fst (KG.get_last_sync "gmail" account (Gmail.kg st)) = Ok (Some row) ->
    KG.given (KG.s_last_sync_token row) = Some start_history_id ->
    list_history account start_history_id = Raise e ->
    if PyStr.contains "historyId" (Gmail.exn_str e)
    then index_delta fuel account st = index_all fuel account 10000 None st
    else index_delta fuel account st
         = (Ok (Some (<["errors" := 1]> Gmail.delta_stats)),
            Gmail.mk_run (Gmail.kg st) (<["errors" := 1]> Gmail.delta_stats)).
Proof.
  intros message GOOGLE_ACCOUNTS SYNC_BATCH_SIZE GmailClient list_messages
    get_message get_profile list_history parse_message findall_named
    findall_plain now utcnow fuel account st row h e index_delta index_all
    Hacc Hc Hrow Htok Hfail.
  subst index_delta index_all.
  assert (E : Gmail.index_delta message GOOGLE_ACCOUNTS SYNC_BATCH_SIZE GmailClient
                list_messages get_message get_profile list_history parse_message
                findall_named findall_plain now utcnow fuel account st
              = if PyStr.contains "historyId" (Gmail.exn_str e)
                then Gmail.index_all message GOOGLE_ACCOUNTS SYNC_BATCH_SIZE
                       GmailClient list_messages get_message get_profile
                       parse_message findall_named findall_plain now utcnow
                       fuel account 10000 None
                       (Gmail.mk_run (Gmail.kg st) (<["errors" := 1]> Gmail.delta_stats))
                else (Ok (Some (<["errors" := 1]> Gmail.delta_stats)),
                      Gmail.mk_run (Gmail.kg st)
                        (<["errors" := 1]> Gmail.delta_stats))).
  { unfold Gmail.index_delta.
    rewrite bool_decide_eq_true_2 by (apply list_elem_of_In, Hacc).
    cbn [negb]. unfold bind at 1. unfold Gmail.call at 1. rewrite Hc.
    unfold bind at 1. unfold Gmail.new_stats at 1.
    unfold bind at 1. unfold Gmail.on_kg at 1. cbn [Gmail.kg Gmail.stats].
    destruct (get_last_sync_reads "gmail" account (Gmail.kg st)) as (Hs & _).
    destruct (KG.get_last_sync "gmail" account (Gmail.kg st)) as [r d].
    simpl in Hs, Hrow. subst r d. rewrite Htok.
    unfold bind at 1. unfold try_except at 1.
    unfold bind at 1. unfold Gmail.call at 1. rewrite Hfail.
    unfold bind at 1. unfold Gmail.incr at 1. cbn [Gmail.kg Gmail.stats].
    change (Gmail.delta_stats !! "errors") with (Some 0).
    unfold ret at 1.
    destruct (PyStr.contains "historyId" (Gmail.exn_str e)); [reflexivity|].
    unfold bind, get_state, ret. reflexivity. }
  rewrite E. destruct (PyStr.contains "historyId" (Gmail.exn_str e));
    [|reflexivity].
  apply (index_all_ignores_stats message GOOGLE_ACCOUNTS SYNC_BATCH_SIZE GmailClient
           list_messages get_message get_profile parse_message findall_named
           findall_plain now utcnow fuel account 10000 None st _ Hc Hacc).
Qed.

Lemma delta_history_failure_witness :
  Scenario.g_index_delta_failing 1%nat "acct" Scenario.g_synced
  = (Ok (Some (<["errors" := 1]> Gmail.delta_stats)),
     Gmail.mk_run (Gmail.kg Scenario.g_synced) (<["errors" := 1]> Gmail.delta_stats)).
Proof.
  refine (delta_history_failure Gmail.parsed_message Scenario.g_accounts 100
            Scenario.g_client Scenario.g_list_messages Scenario.g_get_message
            Scenario.g_get_profile Scenario.g_failing_history
            Scenario.g_parse_message Scenario.g_findall_named
            Scenario.g_findall_plain Scenario.t0 "2024-01-02T00:00:00+00:00"
            1%nat "acct" Scenario.g_synced Scenario.g_cursor_row "h7"
            (OtherError "quota exceeded") _ eq_refl eq_refl eq_refl eq_refl).
  simpl. auto.
Defined.

(** X20 -- [GmailIndexer.index_all]: when it returns its statistics, the
    sync state of [("gmail", account)] holds the [historyId] of the profile
    as token, the time of the run, and as metadata the type [full] with the
    very statistics that are returned. *)
Theorem full_sync_records_cursor :
  forall (message : Type) (GOOGLE_ACCOUNTS : list string) (SYNC_BATCH_SIZE : Z)
         (GmailClient : string -> outcome unit)
         (list_messages :
            string -> string -> Z -> option string -> outcome Gmail.list_response)
         (get_message : string -> string -> outcome (option message))
         (get_profile : string -> outcome (option string))
         (parse_message : message -> outcome Gmail.parsed_message)
         (findall_named : string -> list (string * string))
         (findall_plain : string -> list string)
         (now : KG.sqltime) (utcnow : KG.datetime)
         (fuel : nat) (account : string) (max_messages : Z)
         (labels : option (list string)) (st st' : Gmail.run_state)
         (s : gmap string Z),
    Gmail.index_all message GOOGLE_ACCOUNTS SYNC_BATCH_SIZE GmailClient list_messages
      get_message get_profile parse_message findall_named findall_plain now utcnow
      fuel account max_messages labels st = (Ok (Some s), st') ->
    Gmail.stats st' = s
    /\ exists history_id,
         get_profile account = Ok history_id
         /\ KG.get_last_sync "gmail" account (Gmail.kg st')
            = (Ok (Some (KG.mk_sync_state "gmail" account
                           (Some (KG.isoformat utcnow)) history_id
                           (Some [("type", KG.JStr "full");
                                  ("stats", Gmail.stats_json s)]))),
               Gmail.kg st').
Proof.
  intros message GOOGLE_ACCOUNTS SYNC_BATCH_SIZE GmailClient list_messages
    get_message get_profile parse_message findall_named findall_plain now utcnow
    fuel account max_messages labels st st' s.
  unfold Gmail.index_all.
  destruct (negb (bool_decide (account ∈ GOOGLE_ACCOUNTS))); [discriminate|].
  unfold bind at 1. unfold Gmail.call at 1.
  destruct (GmailClient account) as [[]|e]; [|discriminate].
  unfold bind at 1. unfold Gmail.new_stats at 1.
  unfold bind at 1.
  destruct (Gmail.index_all_loop _ _ _ _ _ _ _ _ _ _ _ _ _ _) as [[[]|] s1];
    [|discriminate|discriminate].
  unfold bind at 1. unfold Gmail.call at 1.
  destruct (get_profile account) as [history_id|]; [|discriminate].
  unfold bind at 1. unfold get_state at 1.
  unfold bind at 1. unfold Gmail.on_kg at 1.
  match goal with
  | |- context [KG.set_last_sync ?a ?b ?c ?d ?e ?f] =>
      destruct (set_then_get_last_sync a b c d e f) as [Hset Hget];
      rewrite Hset
  end.
  unfold bind, get_state, ret. cbn [Gmail.stats Gmail.kg].
  intros [= <- <-]. cbn [Gmail.stats Gmail.kg].
  split; [reflexivity|]. exists history_id. split; [reflexivity|].
  exact Hget.
Qed.

Lemma full_sync_records_cursor_witness :
  match Scenario.g_index_all 1%nat "acct" 10000 None Scenario.g_start with
  | (Ok (Some s), st') => Gmail.stats st' = s
  | _ => False
  end.
Proof.
  destruct (Scenario.g_index_all 1%nat "acct" 10000 None Scenario.g_start)
    as [[[s|]|e] st'] eqn:E.
  - exact (proj1
      (full_sync_records_cursor Gmail.parsed_message Scenario.g_accounts 100
         Scenario.g_client Scenario.g_list_messages Scenario.g_get_message
         Scenario.g_get_profile Scenario.g_parse_message Scenario.g_findall_named
         Scenario.g_findall_plain Scenario.t0 "2024-01-02T00:00:00+00:00"
         1%nat "acct" 10000 None Scenario.g_start st' s E)).
  - vm_compute in E. discriminate.
  - vm_compute in E. discriminate.
Defined.

(** X21 -- [GmailIndexer.index_delta] when [list_history] answers: the run
    returns statistics with the three keys of a delta run, whatever happens
    to the single messages, and the sync state of [("gmail", account)] then
    holds the [historyId] of the response (the one the run started from when
    the response has none) with the type [delta] and the returned
    statistics. *)
Theorem delta_sync_advances_cursor :
  forall (message : Type) (GOOGLE_ACCOUNTS : list string) (SYNC_BATCH_SIZE : Z)
         (GmailClient : string -> outcome unit)
         (list_messages :
            string -> string -> Z -> option string -> outcome Gmail.list_response)
         (get_message : string -> string -> outcome (option message))
         (get_profile : string -> outcome (option string))
         (list_history : string -> string -> outcome Gmail.history_response)
         (parse_message : message -> outcome Gmail.parsed_message)
         (findall_named : string -> list (string * string))
         (findall_plain : string -> list string)
         (now : KG.sqltime) (utcnow : KG.datetime)
         (fuel : nat) (account : string) (st : Gmail.run_state)
         (row : KG.sync_state_row) (start_history_id : string)
         (response : Gmail.history_response),
    List.In account GOOGLE_ACCOUNTS ->
    GmailClient account = Ok tt ->
    fst (KG.get_last_sync "gmail" account (Gmail.kg st)) = Ok (Some row) ->
    KG.given (KG.s_last_sync_token row) = Some start_history_id ->
    list_history account start_history_id = Ok response ->
    exists s st',
      Gmail.index_delta message GOOGLE_ACCOUNTS SYNC_BATCH_SIZE GmailClient
        list_messages get_message get_profile list_history parse_message
        findall_named findall_plain now utcnow fuel account st
      = (Ok (Some s), st')
      /\ dom s = GmailAux.delta_keys
      /\ Gmail.stats st' = s
      /\ KG.get_last_sync "gmail" account (Gmail.kg st')
         = (Ok (Some (KG.mk_sync_state "gmail" account
                        (Some (KG.isoformat utcnow))
                        (Some (match Gmail.historyId response with
                               | Some h => h
                               | None => start_history_id
                               end))
                        (Some [("type", KG.JStr "delta");
                               ("stats", Gmail.stats_json s)]))),
            Gmail.kg st').
Proof.
  intros message GOOGLE_ACCOUNTS SYNC_BATCH_SIZE GmailClient list_messages
    get_message get_profile list_history parse_message findall_named
    findall_plain now utcnow fuel account st row h response
    Hacc Hc Hrow Htok Hlist.
  unfold Gmail.index_delta.
  rewrite bool_decide_eq_true_2 by (apply list_elem_of_In, Hacc).
  cbn [negb]. unfold bind at 1. unfold Gmail.call at 1. rewrite Hc.
  unfold bind at 1. unfold Gmail.new_stats at 1.
  unfold bind at 1. unfold Gmail.on_kg at 1. cbn [Gmail.kg Gmail.stats].
  destruct (get_last_sync_reads "gmail" account (Gmail.kg st)) as (Hs & _).
  destruct (KG.get_last_sync "gmail" account (Gmail.kg st)) as [r d].
  simpl in Hs, Hrow. subst r d. rewrite Htok.
  unfold bind at 1. unfold try_except at 1.
  unfold bind at 1. unfold Gmail.call at 1. rewrite Hlist.
  unfold bind at 1.
  destruct (index_history_ok message get_message parse_message findall_named
              findall_plain now account (Gmail.history response)
              (Gmail.mk_run (Gmail.kg st) Gmail.delta_stats) delta_stats_keys)
    as (s1 & -> & Hd1).
  unfold bind at 1. unfold get_state at 1.
  unfold bind at 1. unfold Gmail.on_kg at 1.
  match goal with
  | |- context [KG.set_last_sync ?a ?b ?c ?d ?e ?f] =>
      destruct (set_then_get_last_sync a b c d e f) as [Hset Hget];
      rewrite Hset
  end.
  unfold ret at 1. unfold bind, get_state, ret. cbn [Gmail.stats Gmail.kg].
  do 2 eexists. split; [reflexivity|]. cbn [Gmail.stats Gmail.kg].
  split; [exact Hd1|]. split; [reflexivity|]. exact Hget.
Qed.

Lemma delta_sync_advances_cursor_witness :
  exists s st',
    Scenario.g_index_delta 1%nat "acct" Scenario.g_synced = (Ok (Some s), st')
    /\ dom s = GmailAux.delta_keys.
Proof.
  destruct (delta_sync_advances_cursor Gmail.parsed_message Scenario.g_accounts 100
              Scenario.g_client Scenario.g_list_messages Scenario.g_get_message
              Scenario.g_get_profile Scenario.g_list_history
              Scenario.g_parse_message Scenario.g_findall_named
              Scenario.g_findall_plain Scenario.t0 "2024-01-02T00:00:00+00:00"
              1%nat "acct" Scenario.g_synced Scenario.g_cursor_row "h7"
              (Gmail.mk_history_response [] None))
    as (s & st' & E & Hd & _).
  - simpl. auto.
  - reflexivity.
  - reflexivity.
  - reflexivity.
  - reflexivity.
  - exists s, st'. split; [exact E | exact Hd].
Defined.

(* ===================================================================== *)
(** * Readers of the knowledge graph used by the synchronisation code *)
(* ===================================================================== *)

Section ContentIds.

Import KG.

Local Open Scope list_scope.

Lemma upserted_row_present now i t s sa ti b si u ts m d :
  exists r,
    List.In r (content (snd (upsert_content now i t s sa ti b si u ts m d)))
    /\ c_id r = i /\ c_source r = s /\ c_source_account r = sa.
Proof.
  unfold upsert_content, _connection, bind, get_state, set_content, _log_change,
    ret, select_content.
  destruct (List.find _ (content d)) as [row|] eqn:E; simpl.
  - apply List.find_some in E. destruct E as [Hin Hid].
    eexists. split.
    + apply List.in_map_iff. exists row. split; [reflexivity | exact Hin].
    + rewrite Hid. simpl. apply String.eqb_eq in Hid. auto.
  - eexists. split; [apply List.in_or_app; right; left; reflexivity|].
    simpl. auto.
Qed.

Lemma upserted_row_only now i t s sa ti b si u ts m d r :
  List.In r (content (snd (upsert_content now i t s sa ti b si u ts m d))) ->
  c_id r = i -> c_source r = s /\ c_source_account r = sa.
Proof.
  unfold upsert_content, _connection, bind, get_state, set_content, _log_change,
    ret, select_content.
  destruct (List.find _ (content d)) as [row|] eqn:E; simpl.
  - intros Hin Hid. apply List.in_map_iff in Hin. destruct Hin as (x & Hx & _).
    destruct (String.eqb (c_id x) i) eqn:Ex.
    + subst r. simpl. auto.
    + subst r. apply String.eqb_neq in Ex. contradiction.
  - intros Hin Hid. apply List.in_app_or in Hin. destruct Hin as [Hin|[<-|[]]].
    + exfalso. apply (find_none_not_in c_id i (content d) E).
      apply List.in_map_iff. exists r. auto.
    + simpl. auto.
Qed.

Lemma deleted_row_absent now i d r :
  List.In r (content (snd (delete_content now i d))) -> c_id r <> i.
Proof.
  unfold delete_content, _connection, bind, get_state, set_content, _log_change,
    ret. simpl.
  intros Hin.
  assert (Hf : List.In r (List.filter (fun r => negb (String.eqb (c_id r) i))
                            (content d))).
  { destruct (0 <? _)%nat; simpl in Hin; exact Hin. }
  apply List.filter_In in Hf. destruct Hf as [_ Hf].
  apply negb_true_iff, String.eqb_neq in Hf. exact Hf.
Qed.

(** What [get_content_ids_by_source] returns: the ids of the rows of the
    source, restricted to the account when one is given. *)
Lemma content_ids_spec source source_account d :
  exists ids,
    get_content_ids_by_source source source_account d = (Ok ids, d)
    /\ forall i,
         i ∈ ids <->
         exists r, List.In r (content d) /\ c_id r = i /\ c_source r = source
                   /\ match given source_account with
                      | Some a => c_source_account r = Some a
                      | None => True
                      end.
Proof.
  unfold get_content_ids_by_source, _connection, bind, get_state, ret.
  eexists. split; [reflexivity|].
  intros i. rewrite elem_of_list_to_set, list_elem_of_In, List.in_map_iff.
  destruct (given source_account) as [a|].
  - split.
    + intros (r & Hid & Hin). apply List.filter_In in Hin.
      destruct Hin as [Hin Hp]. apply andb_prop in Hp. destruct Hp as [Hs Ha].
      apply String.eqb_eq in Hs. unfold col_eq in Ha.
      destruct (c_source_account r) as [x|] eqn:Ex; [|discriminate].
      apply String.eqb_eq in Ha. subst x. exists r. auto.
    + intros (r & Hin & Hid & Hs & Ha). exists r. split; [exact Hid|].
      apply List.filter_In. split; [exact Hin|].
      unfold col_eq. rewrite Ha, Hs, !String.eqb_refl. reflexivity.
  - split.
    + intros (r & Hid & Hin). apply List.filter_In in Hin.
      destruct Hin as [Hin Hs]. apply String.eqb_eq in Hs. exists r. auto.
    + intros (r & Hin & Hid & Hs & _). exists r. split; [exact Hid|].
      apply List.filter_In. split; [exact Hin|].
      rewrite Hs. apply String.eqb_refl.
Qed.

End ContentIds.

(** X22 -- [KnowledgeGraph.get_content_ids_by_source] follows the writes.
    After [upsert_content] of an item of a source, the id is in the set of
    that source; with an account given (a non-empty string), it is in the
    set exactly when the item was stored with that account, so an item
    stored without account is never returned for an account. After
    [delete_content] the id is in no set. An empty account string means no
    restriction. *)
Theorem content_ids_by_source_tracks_writes :
  forall (now : KG.sqltime) (content_id content_type source : string)
         (source_account title body source_id url : option string)
         (timestamp : option KG.datetime) (metadata : option KG.dict)
         (d : KG.db),
    let d1 := snd (KG.upsert_content now content_id content_type source
                     source_account title body source_id url timestamp
                     metadata d) in
    let d2 := snd (KG.delete_content now content_id d) in
    (exists ids, KG.get_content_ids_by_source source None d1 = (Ok ids, d1)
                 /\ content_id ∈ ids)
    /\ (forall a, PyStr.truthy a = true ->
          exists ids,
            KG.get_content_ids_by_source source (Some a) d1 = (Ok ids, d1)
            /\ (content_id ∈ ids <-> source_account = Some a))
    /\ (forall src acc,
          exists ids, KG.get_content_ids_by_source src acc d2 = (Ok ids, d2)
                      /\ content_id ∉ ids)
    /\ (forall src db, KG.get_content_ids_by_source src (Some "") db
                       = KG.get_content_ids_by_source src None db).
Proof.
  intros now i t s sa ti b si u ts m d d1 d2.
  destruct (upserted_row_present now i t s sa ti b si u ts m d)
    as (r & Hin & Hid & Hs & Ha).
  fold d1 in Hin.
  split; [|split; [|split]].
  - destruct (content_ids_spec s None d1) as (ids & E & Hids).
    exists ids. split; [exact E|]. apply Hids. exists r. simpl. auto.
  - intros a Ht.
    destruct (content_ids_spec s (Some a) d1) as (ids & E & Hids).
    exists ids. split; [exact E|]. rewrite Hids.
    assert (Hg : KG.given (Some a) = Some a)
      by (unfold KG.given; rewrite Ht; reflexivity).
    rewrite Hg. split.
    + intros (x & Hx & Hxi & _ & Hxa).
      destruct (upserted_row_only now i t s sa ti b si u ts m d x Hx Hxi)
        as [_ Hsa]. congruence.
    + intros ->. exists r. auto.
  - intros src acc.
    destruct (content_ids_spec src acc d2) as (ids & E & Hids).
    exists ids. split; [exact E|]. rewrite Hids.
    intros (x & Hx & Hxi & _).
    exact (deleted_row_absent now i d x Hx Hxi).
  - intros src db. reflexivity.
Qed.

(** X23 -- [KnowledgeGraph.get_relationships]: direction [both] returns the
    outgoing rows followed by the incoming rows (a relationship of an entity
    with itself comes twice); a direction other than [outgoing], [incoming]
    and [both] returns nothing; an empty relation string filters nothing;
    the outgoing (incoming) rows are the stored rows that start (end) at the
    entity and carry the relation asked for. The database is not changed. *)
Theorem get_relationships_directions :
  forall (entity_id : string) (relation : option string) (direction : string)
         (d : KG.db),
    let get dir := KG.get_relationships entity_id relation dir d in
    let relation_ok r :=
      match KG.given relation with
      | Some v => KG.r_relation r = v
      | None => True
      end in
    (exists outgoing incoming,
        get "outgoing" = (Ok outgoing, d)
        /\ get "incoming" = (Ok incoming, d)
        /\ get "both" = (Ok (outgoing ++ incoming)%list, d)
        /\ (forall r, List.In r outgoing <->
                      List.In r (KG.relationships d)
                      /\ KG.r_from_id r = entity_id /\ relation_ok r)
        /\ (forall r, List.In r incoming <->
                      List.In r (KG.relationships d)
                      /\ KG.r_to_id r = entity_id /\ relation_ok r))
    /\ (direction <> "outgoing" -> direction <> "incoming" ->
        direction <> "both" -> get direction = (Ok [], d))
    /\ KG.get_relationships entity_id (Some "") direction d
       = KG.get_relationships entity_id None direction d.
Proof.
  intros i rel dir d get relation_ok. subst get relation_ok.
  assert (Hok : forall r,
            (match KG.given rel with
             | Some v => String.eqb (KG.r_relation r) v
             | None => true
             end) = true
            <-> match KG.given rel with
                | Some v => KG.r_relation r = v
                | None => True
                end).
  { intros r. destruct (KG.given rel); [apply String.eqb_eq | tauto]. }
  split; [|split].
  - unfold KG.get_relationships, KG._connection, bind, get_state, ret.
    simpl. do 2 eexists.
    split; [reflexivity|]. split; [reflexivity|]. split; [reflexivity|].
    split; intros r; rewrite List.filter_In, andb_true_iff, String.eqb_eq, Hok;
      tauto.
  - intros H1 H2 H3.
    unfold KG.get_relationships, KG._connection, bind, get_state, ret.
    apply String.eqb_neq in H1, H2, H3. rewrite H1, H2, H3. reflexivity.
  - reflexivity.
Qed.

Lemma get_relationships_directions_witness :
  KG.get_relationships "person:a" None "Outgoing" Scenario.acquainted
  = (Ok [], Scenario.acquainted).
Proof.
  refine (proj1 (proj2
    (get_relationships_directions "person:a" None "Outgoing" Scenario.acquainted))
    _ _ _); discriminate.
Defined.

Lemma content_ids_by_source_tracks_writes_witness :
  exists ids,
    KG.get_content_ids_by_source "gmail" (Some "work")
      (snd (KG.upsert_content Scenario.t0 "gmail:work:1" "email" "gmail"
              (Some "work") None None None None None None KG.empty_db))
    = (Ok ids,
       snd (KG.upsert_content Scenario.t0 "gmail:work:1" "email" "gmail"
              (Some "work") None None None None None None KG.empty_db))
    /\ ("gmail:work:1" ∈ ids <-> Some "work" = Some "work").
Proof.
  refine (proj1 (proj2
    (content_ids_by_source_tracks_writes Scenario.t0 "gmail:work:1" "email"
       "gmail" (Some "work") None None None None None None KG.empty_db))
    "work" _).
  reflexivity.
Defined.

(* ===================================================================== *)
(** * Properties of the semantic indexer *)
(* ===================================================================== *)

Section ChunkIds.

Import SemanticAux.

Lemma digits_no_colon (d : Decimal.uint) :
  no_colon (NilEmpty.string_of_uint d) = true.
Proof.
  induction d; simpl; auto.
Qed.

Lemma str_int_no_colon (z : Z) : 0 <= z -> no_colon (PyStr.str_int z) = true.
Proof.
  intros Hz. unfold PyStr.str_int. destruct z as [|p|p]; [reflexivity| |lia].
  simpl. unfold NilZero.string_of_uint.
  destruct (Pos.to_uint p); [reflexivity|..]; apply digits_no_colon.
Qed.

Lemma prefix_no_colon (p : string) : forall n,
  no_colon p = false -> no_colon n = true -> String.prefix p n = false.
Proof.
  induction p as [|a p IH]; intros n Hp Hn; [discriminate|].
  destruct n as [|b n]; [reflexivity|].
  simpl. destruct (ascii_dec a b) as [->|Hab]; [|reflexivity].
  simpl in Hp, Hn. apply andb_prop in Hn. destruct Hn as [Hb Hn].
  rewrite Hb in Hp. simpl in Hp. apply IH; assumption.
Qed.

Lemma contains_no_colon (p n : string) :
  no_colon p = false -> no_colon n = true -> PyStr.contains p n = false.
Proof.
  intros Hp. induction n as [|b n IH]; intros Hn.
  - cbn [PyStr.contains]. rewrite (prefix_no_colon p "" Hp eq_refl). reflexivity.
  - cbn [PyStr.contains]. rewrite (prefix_no_colon p _ Hp Hn).
    simpl in Hn. apply andb_prop in Hn. destruct Hn as [_ Hn].
    simpl. apply IH, Hn.
Qed.

Lemma rsplit_absent (sep s : string) :
  PyStr.contains sep s = false -> PyStr.rsplit1_head sep s = None.
Proof.
  induction s as [|c s IH]; cbn [PyStr.contains PyStr.rsplit1_head]; intros H;
    apply orb_false_elim in H; destruct H as [Hp Hc].
  - rewrite Hp. reflexivity.
  - rewrite (IH Hc), Hp. reflexivity.
Qed.

Lemma rsplit_here (sep : string) (c : ascii) (s : string) :
  String.prefix sep (String c s) = true -> PyStr.contains sep s = false ->
  PyStr.rsplit1_head sep (String c s) = Some "".
Proof.
  intros Hp Hc. cbn [PyStr.rsplit1_head]. rewrite (rsplit_absent sep s Hc), Hp.
  reflexivity.
Qed.

Lemma rsplit_app (sep t h : string) : forall c,
  PyStr.rsplit1_head sep t = Some h ->
  PyStr.rsplit1_head sep (c ++ t) = Some (c ++ h)%string.
Proof.
  induction c as [|a c IH]; intros H; [exact H|].
  change (String a c ++ t)%string with (String a (c ++ t)%string).
  change (String a c ++ h)%string with (String a (c ++ h)%string).
  cbn [PyStr.rsplit1_head]. rewrite (IH H). reflexivity.
Qed.

Lemma append_empty_r (s : string) : (s ++ "")%string = s.
Proof.
  induction s as [|c s IH]; [reflexivity|].
  change (String c s ++ "")%string with (String c (s ++ "")%string).
  f_equal. exact IH.
Qed.

(** The part before the last [:chunk:] of a chunk id is the content id,
    also when the content id holds [:chunk:] itself. *)
Lemma chunk_id_parses (content_id : string) (k : nat) :
  PyStr.rsplit1_head ":chunk:" (chunk_id content_id k) = Some content_id.
Proof.
  unfold chunk_id.
  pose proof (str_int_no_colon (Z.of_nat k) (Nat2Z.is_nonneg k)) as Hn.
  set (n := PyStr.str_int (Z.of_nat k)) in *. clearbody n.
  rewrite <- (append_empty_r content_id) at 2.
  apply rsplit_app.
  change (":chunk:" ++ n)%string with (String ":" ("chunk:" ++ n)%string).
  apply rsplit_here; [destruct n; reflexivity|].
  change ("chunk:" ++ n)%string
    with (String "c" (String "h" (String "u" (String "n" (String "k"
            (String ":" n)))))).
  cbn [PyStr.contains].
  change (String.prefix ":chunk:" (String ":" n)) with (String.prefix "chunk:" n).
  rewrite (prefix_no_colon "chunk:" n eq_refl Hn).
  rewrite (contains_no_colon ":chunk:" n eq_refl Hn).
  reflexivity.
Qed.

End ChunkIds.

Section IndexContent.

Import SemanticIndexer SemanticAux.

Local Open Scope list_scope.

Variable re_split : string -> list string.
Variable repr : KG.json -> string.

(** The chunks of an item are numbered from 0, for both chunkers. *)
Lemma chunk_content_numbered (content : content_item) :
  List.map Chunker.chunk_index (_chunk_content re_split repr content)
  = List.map Z.of_nat
      (List.seq 0 (List.length (_chunk_content re_split repr content))).
Proof.
  unfold _chunk_content.
  destruct (negb (PyStr.truthy (str_or_empty (i_body content)))); [reflexivity|].
  destruct (String.eqb (i_type content) "email").
  - unfold Chunker.chunk_email. apply chunk_indices_sequential_aux.
  - unfold Chunker.chunk_document. rewrite List.length_map, List.map_map.
    cbn [Chunker.chunk_index]. apply chunk_indices_sequential_aux.
Qed.

Lemma chunk_content_ids (content_id : string) (content : content_item) :
  List.map (fun c => (content_id ++ ":chunk:"
                        ++ PyStr.str_int (Chunker.chunk_index c))%string)
           (_chunk_content re_split repr content)
  = List.map (chunk_id content_id)
      (List.seq 0 (List.length (_chunk_content re_split repr content))).
Proof.
  rewrite <- (List.map_map Chunker.chunk_index
                (fun z => (content_id ++ ":chunk:" ++ PyStr.str_int z)%string)).
  rewrite chunk_content_numbered, List.map_map. reflexivity.
Qed.

End IndexContent.

(** X25 -- [SemanticIndexer.index_content] with a provider that answers
    every request and a vector store that accepts every call. The result is
    the number of chunks of the item, 0 for an item without body. When there
    are chunks, exactly one call of [vector_store.add] is made, on the
    collection named after the content type, with the ids
    [<content_id>:chunk:0], [<content_id>:chunk:1], ..., the chunk texts as
    documents and one vector per chunk, in the order of the chunks; when
    there is none, nothing is embedded or stored. The part before the last
    [:chunk:] of every stored id, which the query engine takes as the id of
    a semantic hit, is the content id. *)
Theorem index_content_stores_chunks :
  forall (_cache_key : string -> string) (batch_size : Z)
         (provider : nat -> list string -> outcome (list Embedder.embedding))
         (f : string -> Embedder.embedding)
         (re_split : string -> list string) (repr : KG.json -> string)
         (vs_add : SemanticIndexer.add_call -> outcome unit)
         (content_id content_type : string) (title body : option string)
         (metadata : option KG.dict) (st : SemanticIndexer.state),
    0 < batch_size ->
    (forall n batch, provider n batch = Ok (List.map f batch)) ->
    (forall call, vs_add call = Ok tt) ->
    let chunks :=
      SemanticIndexer._chunk_content re_split repr
        (SemanticIndexer.mk_item content_id content_type title body
           (Some (SemanticIndexer.dict_or_empty metadata)) None None) in
    let texts := List.map Chunker.text chunks in
    let ids :=
      List.map (SemanticAux.chunk_id content_id)
               (List.seq 0 (List.length chunks)) in
    exists st',
      SemanticIndexer.index_content _cache_key batch_size provider re_split repr
        vs_add content_id content_type title body metadata st
      = (Ok (PyStr.len_list chunks), st')
      /\ SemanticIndexer.add_calls st'
         = (SemanticIndexer.add_calls st
              ++ match chunks with
                 | [] => []
                 | _ =>
                     [SemanticIndexer.mk_add content_type ids
                        (List.map
                           (EmbedderAux.answer _cache_key f
                              (Embedder._cache (SemanticIndexer.embedder st)))
                           texts)
                        texts
                        (List.map
                           (fun c => SemanticIndexer.dict_or_empty
                                       (Chunker.metadata c))
                           chunks)]
                 end)%list
      /\ (chunks = [] -> st' = st)
      /\ (PyStr.truthy (SemanticIndexer.str_or_empty body) = false -> chunks = [])
      /\ List.Forall
           (fun id => PyStr.rsplit1_head ":chunk:" id = Some content_id) ids.
Proof.
  intros key bs provider f re_split repr vs_add cid cty title body md st
    Hb Hp Hadd chunks texts ids.
  subst ids texts chunks. unfold SemanticIndexer.index_content.
  set (chunks := SemanticIndexer._chunk_content re_split repr
                   (SemanticIndexer.mk_item cid cty title body
                      (Some (SemanticIndexer.dict_or_empty md)) None None)).
  assert (Hids : List.Forall
                   (fun id => PyStr.rsplit1_head ":chunk:" id = Some cid)
                   (List.map (SemanticAux.chunk_id cid)
                      (List.seq 0 (List.length chunks)))).
  { apply List.Forall_map, List.Forall_forall. intros k _.
    apply chunk_id_parses. }
  assert (Hbody : PyStr.truthy (SemanticIndexer.str_or_empty body) = false ->
                  chunks = []).
  { intros H. subst chunks. unfold SemanticIndexer._chunk_content.
    cbn [SemanticIndexer.i_body]. rewrite H. reflexivity. }
  pose proof (chunk_content_ids re_split repr cid
                (SemanticIndexer.mk_item cid cty title body
                   (Some (SemanticIndexer.dict_or_empty md)) None None))
    as Hcid.
  fold chunks in Hcid. clearbody chunks.
  destruct (PyStr.truthy (SemanticIndexer.str_or_empty body)) eqn:Et; cbn [negb].
  - destruct chunks as [|c0 cs].
    + exists st. unfold bind, ret. simpl.
      rewrite List.app_nil_r. repeat split; auto.
    + unfold bind at 1. unfold bind at 1.
      unfold SemanticIndexer.on_embedder at 1.
      destruct (embed_batch_ok key bs provider f
                  (List.map Chunker.text (c0 :: cs))
                  (SemanticIndexer.embedder st) Hb Hp) as (e1 & He & _).
      rewrite He.
      unfold SemanticIndexer.vector_store_add. rewrite Hadd.
      unfold ret. cbn [SemanticIndexer.add_calls SemanticIndexer.embedder].
      eexists. split; [reflexivity|].
      cbn [SemanticIndexer.add_calls].
      rewrite Hcid.
      split; [reflexivity|]. split; [discriminate|].
      split; [discriminate | exact Hids].
  - rewrite (Hbody eq_refl) in *. exists st. unfold ret. simpl.
    rewrite List.app_nil_r. repeat split; auto.
Qed.

Lemma index_content_stores_chunks_witness :
  exists st',
    Scenario.s_index_content "doc1" "note" (Some "T") (Some "body text") None
      Scenario.s_start
    = (Ok 1, st')
    /\ List.map SemanticIndexer.a_ids (SemanticIndexer.add_calls st')
       = [["doc1:chunk:0"]].
Proof.
  destruct (index_content_stores_chunks (fun t => t) 100 Scenario.demo_provider
              (fun _ => Scenario.demo_vector) (fun t => [t]) (fun _ => "")
              (fun _ => Ok tt) "doc1" "note" (Some "T") (Some "body text") None
              Scenario.s_start)
    as (st' & E & Hc & _); [lia | reflexivity | reflexivity |].
  exists st'. split; [exact E|]. rewrite Hc. reflexivity.
Defined.

(* ===================================================================== *)
(** * The semantic branch of the query engine, collection by collection *)
(* ===================================================================== *)

Section SemanticByCollection.

Import Engine.

Local Open Scope list_scope.

Lemma append_coll_hits_acc collection cr doc_ids : forall i results,
  append_coll_hits collection cr i doc_ids results
  = results ++ append_coll_hits collection cr i doc_ids [].
Proof.
  induction doc_ids as [|doc_id rest IH]; intros i results;
    cbn [append_coll_hits]; [rewrite List.app_nil_r; reflexivity|].
  destruct (item_or (documents cr) i ""); [|rewrite List.app_nil_r; reflexivity].
  destruct (item_or (metadatas cr) i []); [|rewrite List.app_nil_r; reflexivity].
  destruct (match distances cr with [] => _ | _ :: _ => _ end);
    [|rewrite List.app_nil_r; reflexivity].
  rewrite IH. rewrite (IH (S i) ([] ++ _)). rewrite <- List.app_assoc.
  reflexivity.
Qed.

Lemma fold_collections {C} (per : C -> list hit) (step : list hit -> C -> list hit) :
  (forall acc c, step acc c = acc ++ per c) ->
  forall cs acc, List.fold_left step cs acc = acc ++ List.flat_map per cs.
Proof.
  intros Hstep. induction cs as [|c cs IH]; intros acc; simpl.
  - rewrite List.app_nil_r. reflexivity.
  - rewrite IH, Hstep, <- List.app_assoc. reflexivity.
Qed.

Lemma item_or_in_range {A} (l : list A) (i : nat) (default : A) :
  (i < List.length l)%nat -> item_or l i default = Some (List.nth i l default).
Proof.
  intros Hi. unfold item_or. destruct l as [|x l]; [simpl in Hi; lia|].
  apply List.nth_error_nth'. exact Hi.
Qed.

Lemma append_coll_hits_complete collection cr : forall doc_ids i,
  (i + List.length doc_ids <= List.length (documents cr))%nat ->
  (i + List.length doc_ids <= List.length (metadatas cr))%nat ->
  (i + List.length doc_ids <= List.length (distances cr))%nat ->
  append_coll_hits collection cr i doc_ids []
  = List.map (EngineAux.hit_at collection cr)
             (List.combine (List.seq i (List.length doc_ids)) doc_ids).
Proof.
  induction doc_ids as [|doc_id rest IH]; intros i Hd Hm Hs; [reflexivity|].
  cbn [append_coll_hits List.length List.seq List.combine List.map].
  simpl List.length in Hd, Hm, Hs.
  rewrite (item_or_in_range (documents cr) i "") by lia.
  rewrite (item_or_in_range (metadatas cr) i []) by lia.
  unfold EngineAux.hit_at at 1. cbn [fst snd].
  destruct (distances cr) as [|x l] eqn:E; [simpl in Hs; lia|].
  rewrite (List.nth_error_nth' _ 0%Q) by lia. cbn [option_map].
  rewrite append_coll_hits_acc, IH by (rewrite ?E; lia). reflexivity.
Qed.

End SemanticByCollection.

(** X26 -- [QueryEngine._semantic_search], collection by collection. The
    result is the concatenation, in the order of the collections, of the
    hits of each collection; a collection whose search raises contributes
    nothing and does not disturb the others. When the answer of the vector
    store has a document, a metadata dictionary and a distance for each id,
    the hits of the collection are one per id, in order: the chunk id is the
    stored id, the text its document, the score one minus its distance, the
    type the collection, and the id is the content id when the stored id is
    [<content_id>:chunk:<n>] as written by [index_content]. *)
Theorem semantic_search_by_collection :
  forall (embedder_embed : string -> outcome Engine.embedding)
         (vs_list_collections : outcome (list string))
         (vs_search : string -> Engine.embedding -> Z -> outcome Engine.coll_results)
         (query : string) (content_types : option (list string)) (top_k : Z)
         (query_embedding : Engine.embedding) (collections : list string),
    embedder_embed query = Ok query_embedding ->
    match Engine.given_list content_types with
    | Some cts => Ok cts
    | None => vs_list_collections
    end = Ok collections ->
    let hits_of collection :=
      match vs_search collection query_embedding top_k with
      | Ok cr => Engine.append_coll_hits collection cr 0 (Engine.ids cr) []
      | Raise _ => []
      end in
    Engine._semantic_search embedder_embed vs_list_collections vs_search
      query content_types top_k
    = Ok (List.flat_map hits_of collections)
    /\ (forall collection cr,
          vs_search collection query_embedding top_k = Ok cr ->
          List.length (Engine.documents cr) = List.length (Engine.ids cr) ->
          List.length (Engine.metadatas cr) = List.length (Engine.ids cr) ->
          List.length (Engine.distances cr) = List.length (Engine.ids cr) ->
          hits_of collection
          = List.map (EngineAux.hit_at collection cr)
              (List.combine (List.seq 0 (List.length (Engine.ids cr)))
                            (Engine.ids cr)))
    /\ (forall collection cr i content_id k,
          Engine.hit_id
            (EngineAux.hit_at collection cr (i, SemanticAux.chunk_id content_id k))
          = content_id).
Proof.
  intros embed lc vs query cts top_k qe colls He Hc hits_of.
  split; [|split].
  - unfold Engine._semantic_search. rewrite He, Hc. f_equal.
    rewrite (fold_collections hits_of); [reflexivity|].
    intros acc c. subst hits_of. cbv beta.
    destruct (vs c qe top_k); [|rewrite List.app_nil_r; reflexivity].
    apply append_coll_hits_acc.
  - intros c cr Hcr Hd Hm Hs. subst hits_of. cbv beta. rewrite Hcr.
    apply append_coll_hits_complete; simpl; lia.
  - intros c cr i cid k. unfold EngineAux.hit_at. cbn [Engine.hit_id fst snd].
    rewrite chunk_id_parses. reflexivity.
Qed.

Lemma semantic_search_by_collection_witness :
  Engine._semantic_search Scenario.q_embed Scenario.q_collections
    Scenario.q_vs_search "budget" (Some ["note"; "email"]) 20
  = Ok (List.flat_map
          (fun collection =>
             match Scenario.q_vs_search collection [1%Q] 20 with
             | Ok cr => Engine.append_coll_hits collection cr 0 (Engine.ids cr) []
             | Raise _ => []
             end)
          ["note"; "email"]).
Proof.
  refine (proj1
    (semantic_search_by_collection Scenario.q_embed Scenario.q_collections
       Scenario.q_vs_search "budget" (Some ["note"; "email"]) 20 [1%Q]
       ["note"; "email"] _ _)); reflexivity.
Defined.

(* ===================================================================== *)
(** * The keyword branch of the query engine over a stored graph *)
(* ===================================================================== *)

Section KeywordOverGraph.

Import Engine.

Local Open Scope list_scope.

Variable d : KG.db.
Variable query : string.
Variables since until : option KG.datetime.
Variable limit : Z.





End KeywordOverGraph.

